(** * WhisperTranscriber: voice segmentation and dispatch pipeline

    A shallow embedding of [modules/audio_device/speech/whisper_transcriber.cc]
    and of the class declaration in [whisper_transcriber.h]: the PCM16
    conversions, the voice-activity state machine of [ProcessAudioBuffer],
    the overflow policy of [handleOverflow], the consumer loop of
    [RunProcessingThread] with the thread body of [Start], and the validation
    and single-flight guard of [TranscribeAudioNonBlocking].

    Conventions.
    - A [uint8_t] buffer is a [list byte]; an [int16_t] is a [Z] kept in
      [-32768, 32767]; a [size_t] counter is a [Z] reduced modulo [2^64].
    - A C++ [float] or [double] is a primitive binary64 [float].  Every
      binary32 value is a binary64 value, and the only operations the source
      performs on samples that the model keeps (dividing a 16-bit integer by
      [2^15], [abs], [==], [>]) are exact, so they give the same result in
      both formats.
    - Logging is not modelled. *)

From Stdlib Require Import ZArith NArith List Lia Bool PrimFloat FloatOps SpecFloat Uint63 QArith Qpower Qfield Qabs String.
From Stdlib.Strings Require Import Byte.
Import ListNotations.

Local Open Scope Z_scope.

(** ** Constants of the class declaration *)

Definition kSampleRate : Z := 16000.
Definition kTargetDurationSeconds : Z := 3.
Definition kRingBufferSizeIncrement : Z := kSampleRate * kTargetDurationSeconds * 2 * 10.
Definition kTargetSamples : Z := kSampleRate * 12 * 2.
Definition kSilenceSamples : Z := 16000.

(** [size_t] arithmetic: 64-bit, wrapping. *)
Definition size_max : Z := 2 ^ 64.
Definition wrap64 (z : Z) : Z := z mod size_max.

(** [v.size()] of a vector modelled as a list. *)
Definition size {A : Type} (v : list A) : Z := Z.of_nat (List.length v).

(** ** Floating point *)

(** The rational number a finite float stands for. *)
Definition float_value (f : float) : option Q :=
  match Prim2SF f with
  | S754_zero _ => Some 0%Q
  | S754_finite s m e =>
      Some ((if s then - inject_Z (Zpos m) else inject_Z (Zpos m)) * Qpower 2 e)%Q
  | _ => None
  end.

(** ** PCM16 conversions *)

Module Pcm16.

Definition byte_to_Z (b : byte) : Z := Z.of_N (Byte.to_N b).

(** Conversion of an [int] to [uint8_t], as done by [push_back] on a
    [std::vector<uint8_t>]. *)
Definition Z_to_byte (z : Z) : byte :=
  match Byte.of_N (Z.to_N (z mod 256)) with
  | Some b => b
  | None => x00
  end.

(** Conversion of an [int] to [int16_t]. *)
Definition to_int16 (z : Z) : Z :=
  let m := z mod 65536 in
  if m <? 32768 then m else m - 65536.

(** [(int16_t)(buf[i]) | ((int16_t)(buf[i + 1]) << 8)], stored in an
    [int16_t]. *)
Definition sample_of_bytes (lo hi : byte) : Z :=
  to_int16 (Z.lor (byte_to_Z lo) (Z.shiftl (byte_to_Z hi) 8)).

(** The loop [for (i = 0; i < n; i += 2)] over a block of [n] bytes.  With
    an odd [n] the last round reads [buf[n]], one byte past the block, which
    is whatever lies there in memory; the model reads zero there, and no
    property below says what that byte is: they speak of blocks of whole
    samples, of sizes, or of the converted block as it is. *)
Fixpoint int16Buffer_of (buf : list byte) : list Z :=
  match buf with
  | lo :: hi :: rest => sample_of_bytes lo hi :: int16Buffer_of rest
  | [lo] => [sample_of_bytes lo x00]
  | [] => []
  end.

(** [push_back(sample & 0xFF); push_back((sample >> 8) & 0xFF)] for every
    sample. *)
Fixpoint currentBuffer_of (int16Buffer : list Z) : list byte :=
  match int16Buffer with
  | sample :: rest =>
      Z_to_byte (Z.land sample 255)
      :: Z_to_byte (Z.land (Z.shiftr sample 8) 255)
      :: currentBuffer_of rest
  | [] => []
  end.

(** Conversion of an [int16_t] to floating point. *)
Definition float_of_int16 (z : Z) : float :=
  if z <? 0 then PrimFloat.opp (PrimFloat.of_uint63 (Uint63.of_Z (- z)))
  else PrimFloat.of_uint63 (Uint63.of_Z z).

(** [sample / 32768.0f] *)
Definition normalize (sample : Z) : float :=
  PrimFloat.div (float_of_int16 sample) 32768%float.

(** The conversion loop of the task closure in [RunProcessingThread]; it is
    only run on blocks of even size. *)
Fixpoint pcmf32_of (localAudioBuffer : list byte) : list float :=
  match localAudioBuffer with
  | lo :: hi :: rest => normalize (sample_of_bytes lo hi) :: pcmf32_of rest
  | [lo] => [normalize (sample_of_bytes lo x00)]
  | [] => []
  end.

(** The sentence of the specification, read literally: the two bytes are a
    little-endian signed 16-bit number. *)
Definition le_signed16 (lo hi : byte) : Z :=
  let u := byte_to_Z lo + 256 * byte_to_Z hi in
  if u <? 32768 then u else u - 65536.

(** Every byte, in order. *)
Definition all_bytes : list byte :=
  map (fun n => Z_to_byte (Z.of_nat n)) (seq 0 256).

(** The bytes of a block of whole samples. *)
Definition bytes_of_pairs (pairs : list (byte * byte)) : list byte :=
  flat_map (fun p => [fst p; snd p]) pairs.

(** A test that a normalized sample is the exact quotient: the mantissa is
    the sample's magnitude shifted left, and the exponent undoes the shift
    and divides by [2^15]. *)
Definition exact_quotient (z : Z) : bool :=
  match Prim2SF (normalize z) with
  | S754_zero _ => z =? 0
  | S754_finite s m e =>
      Bool.eqb s (z <? 0) && (e <=? -15)
      && (Zpos m =? Z.shiftl (Z.abs z) (- e - 15))
  | _ => false
  end.

End Pcm16.

(** ** The ring buffer *)

Module AudioRingBuffer.

(** Modelled from the spec: class [AudioRingBuffer] is declared in
    [whisper_helpers.h], which is not among the sources.  Section 4.1 of the
    specification describes it as a bounded byte store with a capacity and
    the bytes written and not yet read, in write order. *)
Record t : Type := mk { capacity : Z; unread : list byte }.

(** Modelled from the spec: the constructor [AudioRingBuffer(size)], missing
    with the class; an empty store of the given capacity. *)
Definition create (cap : Z) : t := mk cap [].

(** Modelled from the spec: [availableToRead()], missing with the class;
    "returns current unread byte count". *)
Definition availableToRead (rb : t) : Z := size (unread rb).

(** Modelled from the spec: [write(data, n)], missing with the class;
    "returns failure if insufficient free space, no partial writes are
    performed on failure". *)
Definition write (rb : t) (data : list byte) : bool * t :=
  if size data <=? capacity rb - availableToRead rb
  then (true, mk (capacity rb) (unread rb ++ data))
  else (false, rb).

(** Modelled from the spec: [read(dst, maxLen)], missing with the class;
    "returns and consumes up to maxLen available bytes; returns false if no
    data". *)
Definition read (rb : t) (maxLen : Z) : bool * list byte * t :=
  if availableToRead rb =? 0 then (false, [], rb)
  else (true, firstn (Z.to_nat maxLen) (unread rb),
        mk (capacity rb) (skipn (Z.to_nat maxLen) (unread rb))).

(** Modelled from the spec: [increaseWith(increment)], missing with the
    class; "reallocates to current size + increment, preserving unread
    bytes". *)
Definition increaseWith (rb : t) (increment : Z) : t :=
  mk (capacity rb + increment) (unread rb).

End AudioRingBuffer.

(** ** The transcriber object *)

(** The data members of [class WhisperTranscriber] that the modelled member
    functions read or write.  [_whisperContext] records whether the pointer
    is non-null, [_speech_audio_device] is [None] for a null pointer and
    otherwise holds the device's [_llaming] flag, and [_task_queue_pool] holds
    the blocks handed to [enqueue] and not yet run. *)
Record WhisperTranscriber : Type := mkTranscriber {
  _speech_audio_device : option bool;
  _task_queue_pool : list (list byte);
  _whisperContext : bool;
  _audioBuffer : AudioRingBuffer.t;
  _running : bool;
  _processingActive : bool;
  _accumulatedByteBuffer : list byte;
  _overflowCount : Z;
  _inVoiceSegment : bool;
  _samplesSinceVoiceStart : Z;
  _silentSamplesCount : Z
}.

Definition set_task_queue_pool (s : WhisperTranscriber) (v : list (list byte)) :=
  mkTranscriber (_speech_audio_device s) v (_whisperContext s) (_audioBuffer s)
    (_running s) (_processingActive s) (_accumulatedByteBuffer s)
    (_overflowCount s) (_inVoiceSegment s) (_samplesSinceVoiceStart s)
    (_silentSamplesCount s).

Definition set_audioBuffer (s : WhisperTranscriber) (v : AudioRingBuffer.t) :=
  mkTranscriber (_speech_audio_device s) (_task_queue_pool s) (_whisperContext s) v
    (_running s) (_processingActive s) (_accumulatedByteBuffer s)
    (_overflowCount s) (_inVoiceSegment s) (_samplesSinceVoiceStart s)
    (_silentSamplesCount s).

Definition set_running (s : WhisperTranscriber) (v : bool) :=
  mkTranscriber (_speech_audio_device s) (_task_queue_pool s) (_whisperContext s)
    (_audioBuffer s) v (_processingActive s) (_accumulatedByteBuffer s)
    (_overflowCount s) (_inVoiceSegment s) (_samplesSinceVoiceStart s)
    (_silentSamplesCount s).

Definition set_processingActive (s : WhisperTranscriber) (v : bool) :=
  mkTranscriber (_speech_audio_device s) (_task_queue_pool s) (_whisperContext s)
    (_audioBuffer s) (_running s) v (_accumulatedByteBuffer s)
    (_overflowCount s) (_inVoiceSegment s) (_samplesSinceVoiceStart s)
    (_silentSamplesCount s).

Definition set_accumulatedByteBuffer (s : WhisperTranscriber) (v : list byte) :=
  mkTranscriber (_speech_audio_device s) (_task_queue_pool s) (_whisperContext s)
    (_audioBuffer s) (_running s) (_processingActive s) v
    (_overflowCount s) (_inVoiceSegment s) (_samplesSinceVoiceStart s)
    (_silentSamplesCount s).

Definition set_overflowCount (s : WhisperTranscriber) (v : Z) :=
  mkTranscriber (_speech_audio_device s) (_task_queue_pool s) (_whisperContext s)
    (_audioBuffer s) (_running s) (_processingActive s) (_accumulatedByteBuffer s)
    v (_inVoiceSegment s) (_samplesSinceVoiceStart s) (_silentSamplesCount s).

Definition set_inVoiceSegment (s : WhisperTranscriber) (v : bool) :=
  mkTranscriber (_speech_audio_device s) (_task_queue_pool s) (_whisperContext s)
    (_audioBuffer s) (_running s) (_processingActive s) (_accumulatedByteBuffer s)
    (_overflowCount s) v (_samplesSinceVoiceStart s) (_silentSamplesCount s).

Definition set_samplesSinceVoiceStart (s : WhisperTranscriber) (v : Z) :=
  mkTranscriber (_speech_audio_device s) (_task_queue_pool s) (_whisperContext s)
    (_audioBuffer s) (_running s) (_processingActive s) (_accumulatedByteBuffer s)
    (_overflowCount s) (_inVoiceSegment s) v (_silentSamplesCount s).

Definition set_silentSamplesCount (s : WhisperTranscriber) (v : Z) :=
  mkTranscriber (_speech_audio_device s) (_task_queue_pool s) (_whisperContext s)
    (_audioBuffer s) (_running s) (_processingActive s) (_accumulatedByteBuffer s)
    (_overflowCount s) (_inVoiceSegment s) (_samplesSinceVoiceStart s) v.

(** The object as the constructor leaves it: empty buffers, both flags
    clear, the counters zero.  Whether the model loaded and which device is
    attached are the constructor's inputs. *)
Definition construct (speech_audio_device : option bool) (model_loaded : bool)
  : WhisperTranscriber :=
  mkTranscriber speech_audio_device [] model_loaded
    (AudioRingBuffer.create kRingBufferSizeIncrement)
    false false [] 0 false 0 0.

(** ** The overflow policy *)

(** [handleOverflow] *)
Definition handleOverflow (s : WhisperTranscriber) : WhisperTranscriber :=
  let s1 := set_overflowCount s (wrap64 (_overflowCount s + 1)) in
  if _overflowCount s1 >? 10 then
    let s2 :=
      set_audioBuffer s1
        (AudioRingBuffer.increaseWith (_audioBuffer s1) kRingBufferSizeIncrement) in
    set_overflowCount s2 0
  else s1.

(** A call of [_audioBuffer.write] as seen from outside: the bytes handed to
    it and what it answered. *)
Record ring_write : Type := mkWrite { written : list byte; accepted : bool }.

(** [if (!_audioBuffer.write(_accumulatedByteBuffer.data(), n)) handleOverflow();] *)
Definition write_or_overflow (s : WhisperTranscriber) (n : Z)
  : WhisperTranscriber * ring_write :=
  let data := firstn (Z.to_nat n) (_accumulatedByteBuffer s) in
  let '(ok, rb) := AudioRingBuffer.write (_audioBuffer s) data in
  if ok then (set_audioBuffer s rb, mkWrite data true)
  else (handleOverflow s, mkWrite data false).

(** The tail both flushes share: erase the [n] bytes just handed over when
    more than [n] are held, clear the accumulator otherwise. *)
Definition keep_remainder (s : WhisperTranscriber) (n : Z) : WhisperTranscriber :=
  if size (_accumulatedByteBuffer s) >? n then
    let rest := skipn (Z.to_nat n) (_accumulatedByteBuffer s) in
    set_samplesSinceVoiceStart (set_accumulatedByteBuffer s rest) (size rest)
  else
    set_samplesSinceVoiceStart (set_accumulatedByteBuffer s []) 0.

(** What a step can do to the ring buffer and to the overflow count:
    nothing, one accepted write, or one refused write followed by
    [handleOverflow]. *)
Definition ring_effect (s s' : WhisperTranscriber) (writes : list ring_write) : Prop :=
  (writes = [] /\ _audioBuffer s' = _audioBuffer s
   /\ _overflowCount s' = _overflowCount s)
  \/ (exists w, writes = [w] /\ accepted w = true
                /\ _audioBuffer s' = snd (AudioRingBuffer.write (_audioBuffer s) (written w))
                /\ _overflowCount s' = _overflowCount s)
  \/ (exists w, writes = [w] /\ accepted w = false
                /\ _audioBuffer s' = _audioBuffer (handleOverflow s)
                /\ _overflowCount s' = _overflowCount (handleOverflow s)).

(** ** The voice activity segmenter *)

Module Segmenter.

(** [relativeThreshold * 1.2f] and [relativeThreshold * 0.8f] with
    [relativeThreshold = 0.1f], each product rounded to binary32. *)
Definition relativeThreshold : float := 0x1.99999ap-4%float.
Definition voiceStartThreshold : float := 0x1.eb852p-4%float.
Definition voiceEndThreshold : float := 0x1.47ae16p-4%float.

(** Lines 382-393: the decision for one block.  [avgAmplitude] is the value
    of [silenceFinder.avgAmplitude] after [find], converted to [double];
    class [SilenceFinder] is not among the sources, so the amplitude is an
    input of the model. *)
Definition voicePresent_of (inVoiceSegment : bool) (avgAmplitude : float) : bool :=
  if PrimFloat.eqb avgAmplitude 0%float then false
  else
    let thresholdAmplitude := avgAmplitude in
    if negb inVoiceSegment
    then PrimFloat.ltb (PrimFloat.mul voiceStartThreshold thresholdAmplitude) thresholdAmplitude
    else PrimFloat.ltb (PrimFloat.mul voiceEndThreshold thresholdAmplitude) thresholdAmplitude.

(** Lines 404-408: entering or staying in a voice segment. *)
Definition enter_voice (s : WhisperTranscriber) : WhisperTranscriber :=
  let s1 :=
    if negb (_inVoiceSegment s)
    then set_samplesSinceVoiceStart (set_inVoiceSegment s true) 0
    else s in
  set_silentSamplesCount s1 0.

(** Lines 409-410: the block joins the accumulator. *)
Definition accumulate (s : WhisperTranscriber) (currentBuffer : list byte)
  : WhisperTranscriber :=
  let s1 := set_accumulatedByteBuffer s (_accumulatedByteBuffer s ++ currentBuffer) in
  set_samplesSinceVoiceStart s1 (wrap64 (_samplesSinceVoiceStart s1 + size currentBuffer)).

(** Lines 413-431: the flush while speaking. *)
Definition flush_continuous (s : WhisperTranscriber)
  : WhisperTranscriber * list ring_write :=
  if size (_accumulatedByteBuffer s) >=? kTargetSamples then
    let '(s1, w) := write_or_overflow s kTargetSamples in
    (keep_remainder s1 kTargetSamples, [w])
  else (s, []).

(** Lines 439-460: the flush at the end of speech. *)
Definition flush_end_of_speech (s : WhisperTranscriber)
  : WhisperTranscriber * list ring_write :=
  if (size (_accumulatedByteBuffer s) >=? kTargetSamples)
     || (size (_accumulatedByteBuffer s) >=? kSampleRate * 2) then
    let samplesTo := Z.min (size (_accumulatedByteBuffer s)) kTargetSamples in
    let '(s1, w) := write_or_overflow s samplesTo in
    (keep_remainder s1 samplesTo, [w])
  else (s, []).

(** Lines 433-462: a block without voice. *)
Definition silent_block (s : WhisperTranscriber) (currentBuffer : list byte)
  : WhisperTranscriber * list ring_write :=
  let s1 := set_silentSamplesCount s (wrap64 (_silentSamplesCount s + size currentBuffer)) in
  if _inVoiceSegment s1 && (_silentSamplesCount s1 >=? kSilenceSamples) then
    let s2 := set_inVoiceSegment s1 false in
    let '(s3, ws) := flush_end_of_speech s2 in
    (set_silentSamplesCount s3 0, ws)
  else (s1, []).

(** [ProcessAudioBuffer(playoutBuffer, kPlayoutBufferSize)]: the block is
    the list of its bytes; the result is the object afterwards and the calls
    of [_audioBuffer.write] the block caused. *)
Definition ProcessAudioBuffer (s : WhisperTranscriber) (avgAmplitude : float)
    (playoutBuffer : list byte) : WhisperTranscriber * list ring_write :=
  let int16Buffer := Pcm16.int16Buffer_of playoutBuffer in
  let voicePresent := voicePresent_of (_inVoiceSegment s) avgAmplitude in
  let currentBuffer := Pcm16.currentBuffer_of int16Buffer in
  if voicePresent then flush_continuous (accumulate (enter_voice s) currentBuffer)
  else silent_block s currentBuffer.

(** A run of the producer over a stream of blocks, each with its amplitude. *)
Fixpoint feed (s : WhisperTranscriber) (blocks : list (float * list byte))
  : WhisperTranscriber * list ring_write :=
  match blocks with
  | [] => (s, [])
  | (avgAmplitude, playoutBuffer) :: rest =>
      let '(s1, ws1) := ProcessAudioBuffer s avgAmplitude playoutBuffer in
      let '(s2, ws2) := feed s1 rest in
      (s2, ws1 ++ ws2)
  end.

End Segmenter.

(** ** The transcription adapter *)

(** What a task does to the outside world. *)
Inductive event : Type :=
| WhisperFull (pcmf32 : list float)
| AskLlama (text : string)
| SpeakText (text : string).

Definition is_engine_call (e : event) : bool :=
  match e with
  | WhisperFull _ => true
  | _ => false
  end.

Section Adapter.

(** The collaborators.  [whisper_full] gives the result code of the engine
    for a block, [segment_texts] the texts [whisper_full_get_segment_text]
    returns afterwards ([None] for a null pointer), and [strip_annotations]
    is the [std::regex_replace] that removes bracketed spans. *)
Variable whisper_full : list float -> Z.
Variable segment_texts : list float -> list (option string).
Variable strip_annotations : string -> string.

(** [!(sample == sample) || std::abs(sample) > 1.0f] *)
Definition invalid_sample (sample : float) : bool :=
  negb (PrimFloat.eqb sample sample) || PrimFloat.ltb 1%float (PrimFloat.abs sample).

(** Lines 93-111: the validation loop, which stops at the first invalid
    sample; the result is [validInput]. *)
Fixpoint validInput_of (pcmf32 : list float) : bool :=
  match pcmf32 with
  | [] => true
  | sample :: rest => if invalid_sample sample then false else validInput_of rest
  end.

(** Lines 165-172: the texts that are neither null nor empty, each followed
    by a space. *)
Fixpoint fullTranscription_of (texts : list (option string)) : string :=
  match texts with
  | [] => EmptyString
  | Some text :: rest =>
      if (0 <? Z.of_nat (String.length text))
      then (text ++ " " ++ fullTranscription_of rest)%string
      else fullTranscription_of rest
  | None :: rest => fullTranscription_of rest
  end.

Definition is_empty (t : string) : bool :=
  match t with
  | EmptyString => true
  | _ => false
  end.

(** Lines 174-187: forwarding the cleaned text. *)
Definition forward (s : WhisperTranscriber) (fullTranscription : string) : list event :=
  if negb (is_empty fullTranscription) then
    let cleanTranscription := strip_annotations fullTranscription in
    match _speech_audio_device s with
    | Some llaming =>
        if negb (is_empty cleanTranscription) then
          if llaming then [AskLlama cleanTranscription]
          else [SpeakText cleanTranscription]
        else []
    | None => []
    end
  else [].

(** [TranscribeAudioNonBlocking(pcmf32)]: the returned flag, the object
    afterwards and the events of the call, oldest first. *)
Definition TranscribeAudioNonBlocking (s : WhisperTranscriber) (pcmf32 : list float)
  : bool * WhisperTranscriber * list event :=
  if _processingActive s then (false, s, [])
  else
    let s := set_processingActive s true in
    if negb (_whisperContext s) then (false, set_processingActive s false, [])
    else if size pcmf32 =? 0 then (false, set_processingActive s false, [])
    else if (size pcmf32 <? kSampleRate) || (size pcmf32 >? kTargetSamples)
    then (false, set_processingActive s false, [])
    else if negb (validInput_of pcmf32) then (false, set_processingActive s false, [])
    else if negb (_whisperContext s) then (false, s, [])
    else
      let result := whisper_full pcmf32 in
      let forwarded :=
        if result =? 0
        then forward s (fullTranscription_of (segment_texts pcmf32))
        else [] in
      (result =? 0, set_processingActive s false, WhisperFull pcmf32 :: forwarded).

(** The closure [RunProcessingThread] hands to the pool, run on the block it
    captured. *)
Definition transcription_task (s : WhisperTranscriber) (localAudioBuffer : list byte)
  : WhisperTranscriber * list event :=
  if _whisperContext s && negb (size localAudioBuffer =? 0) then
    if negb (size localAudioBuffer mod 2 =? 0) then (s, [])
    else
      let pcmf32 := Pcm16.pcmf32_of localAudioBuffer in
      let '(_, s1, evs) := TranscribeAudioNonBlocking s pcmf32 in
      (s1, evs)
  else (s, []).

End Adapter.

(** ** The consumer thread *)

Module Consumer.

(** The loop of [RunProcessingThread].  [fuel] bounds the number of rounds;
    [None] means the bound was reached with the loop still going. *)
Fixpoint processing_loop (fuel : nat) (s : WhisperTranscriber)
  : option WhisperTranscriber :=
  if _running s && (AudioRingBuffer.availableToRead (_audioBuffer s) >? 0) then
    match fuel with
    | O => None
    | S fuel' =>
        let n := AudioRingBuffer.availableToRead (_audioBuffer s) in
        let '(ok, audioBuffer, rb) := AudioRingBuffer.read (_audioBuffer s) n in
        let s1 := set_audioBuffer s rb in
        let s2 :=
          if ok then set_task_queue_pool s1 (_task_queue_pool s1 ++ [audioBuffer])
          else s1 in
        processing_loop fuel' s2
    end
  else Some s.

(** [RunProcessingThread()]: the loop, then [return true]. *)
Definition RunProcessingThread (fuel : nat) (s : WhisperTranscriber)
  : option (bool * WhisperTranscriber) :=
  match processing_loop fuel s with
  | Some s1 => Some (true, s1)
  | None => None
  end.

(** Where the thread started by [Start] stands after a number of rounds of
    [while (RunProcessingThread()) {}]. *)
Inductive thread_outcome : Type :=
| Exited (s : WhisperTranscriber)
| StillLooping (s : WhisperTranscriber).

(** The thread body: [rounds] calls of [RunProcessingThread] at most, each
    with [fuel] for its inner loop. *)
Fixpoint thread_body (rounds fuel : nat) (s : WhisperTranscriber) : thread_outcome :=
  match rounds with
  | O => StillLooping s
  | S rounds' =>
      match RunProcessingThread fuel s with
      | Some (true, s1) => thread_body rounds' fuel s1
      | Some (false, s1) => Exited s1
      | None => StillLooping s
      end
  end.

(** [Start()]: sets the flag and spawns the thread when not yet running. *)
Definition Start (s : WhisperTranscriber) : WhisperTranscriber :=
  if negb (_running s) then set_running s true else s.

(** [Stop()]: clears the flag, joins the thread and clears the accumulator.
    The join returns once the thread body has exited; [None] means it has
    not within [rounds] rounds. *)
Definition Stop (rounds fuel : nat) (s : WhisperTranscriber)
  : option WhisperTranscriber :=
  if _running s then
    let s1 := set_running s false in
    match thread_body rounds fuel s1 with
    | Exited s2 => Some (set_accumulatedByteBuffer s2 [])
    | StillLooping _ => None
    end
  else Some s.

End Consumer.

(** ** Loading the model *)

Module ModelLoading.

Section WithFile.

(** The collaborators.  [whisper_init_from_file_with_params use_gpu] tells
    whether the engine returns a context for the model file, and [file] is
    the content of the model file, [None] when [fopen] fails. *)
Variable whisper_init_from_file_with_params : bool -> bool.
Variable file : option (list byte).

(** Lines 319-342: the loop over [gpuOptions], which returns at the first
    context obtained; the result is whether one was obtained, with the
    [use_gpu] of every attempt made, oldest first. *)
Fixpoint try_gpuOptions (gpuOptions : list bool) : bool * list bool :=
  match gpuOptions with
  | [] => (false, [])
  | useGpu :: rest =>
      if whisper_init_from_file_with_params useGpu then (true, [useGpu])
      else
        let '(loaded, tried) := try_gpuOptions rest in
        (loaded, useGpu :: tried)
  end.

(** [InitializeWhisperModel(modelPath)]: the returned flag, whether
    [_whisperContext] is non-null afterwards, and the attempts made.  The
    file must open and give the 16 bytes of the header before the engine is
    tried, with [gpuOptions = { true }]. *)
Definition InitializeWhisperModel (_whisperContext : bool) : bool * bool * list bool :=
  match file with
  | None => (false, _whisperContext, [])
  | Some content =>
      let bytesRead := Z.min 16 (size content) in
      if bytesRead <? 16 then (false, _whisperContext, [])
      else
        let '(loaded, tried) := try_gpuOptions [true] in
        if loaded then (true, true, tried) else (false, _whisperContext, tried)
  end.

(** [TryAlternativeInitMethods(modelPath)]: one attempt without the GPU. *)
Definition TryAlternativeInitMethods : bool * list bool :=
  (whisper_init_from_file_with_params false, [false]).

(** Lines 28 and 39-46 of the constructor: the context starts null, the
    model is initialized, and the alternative is tried when that failed.
    The result is whether [_whisperContext] is non-null in the end, with all
    attempts made. *)
Definition load_model : bool * list bool :=
  let '(ok, _whisperContext, tried) := InitializeWhisperModel false in
  if negb ok || negb _whisperContext then
    let '(ctx, tried') := TryAlternativeInitMethods in
    (ctx, tried ++ tried')
  else (_whisperContext, tried).

(** The constructor, with the model loaded as the source does. *)
Definition WhisperTranscriber_new (speech_audio_device : option bool)
  : WhisperTranscriber :=
  construct speech_audio_device (fst load_model).

End WithFile.

End ModelLoading.

(** ** The pipeline as a whole *)

Module Pipeline.

(** An amplitude that counts as voice in both states of the segmenter, and
    one that counts as voice in neither. *)
Definition loud (avgAmplitude : float) : Prop :=
  Segmenter.voicePresent_of false avgAmplitude = true
  /\ Segmenter.voicePresent_of true avgAmplitude = true.

Definition quiet (avgAmplitude : float) : Prop :=
  Segmenter.voicePresent_of false avgAmplitude = false
  /\ Segmenter.voicePresent_of true avgAmplitude = false.

(** The bytes handed to the ring buffer by a list of writes, in order, and
    the number of writes it refused. *)
Definition bytes_written (writes : list ring_write) : list byte :=
  List.concat (map written writes).

Definition refused (writes : list ring_write) : Z :=
  size (filter (fun w => negb (accepted w)) writes).

(** The events of a call other than the engine's, and whether a segment
    text is neither null nor empty. *)
Definition text_events (evs : list event) : list event :=
  filter (fun e => negb (is_engine_call e)) evs.

Definition has_text (text : option string) : bool :=
  match text with
  | Some t => negb (is_empty t)
  | None => false
  end.

(** The checks a block passes before the engine is called: the guard is
    clear, the context is there, the number of samples is within its bounds
    and every sample is valid. *)
Definition admitted (s : WhisperTranscriber) (pcmf32 : list float) : bool :=
  negb (_processingActive s) && _whisperContext s
  && (kSampleRate <=? size pcmf32) && (size pcmf32 <=? kTargetSamples)
  && validInput_of pcmf32.

(** The ring buffer, the overflow count and the record of the call after
    [data] was handed to [_audioBuffer.write], followed by [handleOverflow]
    when it did not fit. *)
Definition fits (s : WhisperTranscriber) (data : list byte) : bool :=
  size data <=? AudioRingBuffer.capacity (_audioBuffer s)
                - AudioRingBuffer.availableToRead (_audioBuffer s).

Definition ring_after (s : WhisperTranscriber) (data : list byte) : AudioRingBuffer.t :=
  if fits s data
  then AudioRingBuffer.mk (AudioRingBuffer.capacity (_audioBuffer s))
         (AudioRingBuffer.unread (_audioBuffer s) ++ data)
  else _audioBuffer (handleOverflow s).

Definition count_after (s : WhisperTranscriber) (data : list byte) : Z :=
  if fits s data then _overflowCount s else _overflowCount (handleOverflow s).

(** What the threads of the pipeline can do to the object, one step at a
    time: the producer hands a block to [ProcessAudioBuffer], [Start] is
    called, the consumer thread makes one call of [RunProcessingThread], a
    thread of the pool runs the pending task of a given position.  The pool
    has several threads (lines 53-54), so a task can be inside
    [TranscribeAudioNonBlocking], between the exchange of line 66 and the
    store of line 194, while the producer, the consumer and other tasks go
    on: [TaskBegin] is a task up to the point where it is inside the engine
    with the guard set, [TaskEnd] the return of the task that holds the
    guard, and [RunTask] a task that runs from its start to its return with
    nothing else in between. *)
Inductive op : Type :=
| Audio (avgAmplitude : float) (playoutBuffer : list byte)
| StartThread
| ConsumerRound
| RunTask (position : nat)
| TaskBegin (position : nat)
| TaskEnd.

Section WithEngine.

Variable whisper_full : list float -> Z.
Variable segment_texts : list float -> list (option string).
Variable strip_annotations : string -> string.

(** One step, with the events it causes.  The inner loop of
    [RunProcessingThread] gets fuel for two rounds, one more than it needs
    to empty the ring buffer.  A task that begins and reaches the engine
    leaves the guard set until [TaskEnd]; its events are recorded where it
    begins: every event needs the guard, so no other step can cause one
    before the task returns, and forwarding reads only the device, which no
    step changes.  A task that begins with the guard set, or whose block is
    rejected, has returned by the end of its step. *)
Definition step (s : WhisperTranscriber) (o : op) : WhisperTranscriber * list event :=
  match o with
  | Audio avgAmplitude playoutBuffer =>
      (fst (Segmenter.ProcessAudioBuffer s avgAmplitude playoutBuffer), [])
  | StartThread => (Consumer.Start s, [])
  | ConsumerRound =>
      match Consumer.RunProcessingThread 2 s with
      | Some (_, s1) => (s1, [])
      | None => (s, [])
      end
  | RunTask position =>
      match nth_error (_task_queue_pool s) position with
      | Some localAudioBuffer =>
          let pending :=
            firstn position (_task_queue_pool s)
            ++ skipn (S position) (_task_queue_pool s) in
          transcription_task whisper_full segment_texts strip_annotations
            (set_task_queue_pool s pending) localAudioBuffer
      | None => (s, [])
      end
  | TaskBegin position =>
      match nth_error (_task_queue_pool s) position with
      | Some localAudioBuffer =>
          let pending :=
            firstn position (_task_queue_pool s)
            ++ skipn (S position) (_task_queue_pool s) in
          let r :=
            transcription_task whisper_full segment_texts strip_annotations
              (set_task_queue_pool s pending) localAudioBuffer in
          (if existsb is_engine_call (snd r)
           then set_processingActive (fst r) true else fst r,
           snd r)
      | None => (s, [])
      end
  | TaskEnd => (set_processingActive s false, [])
  end.

(** A sequence of steps. *)
Fixpoint run (s : WhisperTranscriber) (ops : list op) : WhisperTranscriber * list event :=
  match ops with
  | [] => (s, [])
  | o :: rest =>
      let '(s1, evs1) := step s o in
      let '(s2, evs2) := run s1 rest in
      (s2, evs1 ++ evs2)
  end.

End WithEngine.

(** The number of tasks a sequence of steps asks the pool to run. *)
Definition is_task (o : op) : bool :=
  match o with
  | RunTask _ | TaskBegin _ => true
  | _ => false
  end.

Definition tasks_run (ops : list op) : Z := size (filter is_task ops).

(** What an event tells about the object it comes from: the engine is
    called with the model loaded, on a block within the bounds whose samples
    are all valid; a text goes to the device attached, to the language model
    when the device's flag is set and to speech when it is not, and is not
    empty. *)
Definition allowed (s : WhisperTranscriber) (e : event) : Prop :=
  match e with
  | WhisperFull pcmf32 =>
      _whisperContext s = true
      /\ kSampleRate <= size pcmf32 <= kTargetSamples
      /\ validInput_of pcmf32 = true
  | AskLlama text => _speech_audio_device s = Some true /\ is_empty text = false
  | SpeakText text => _speech_audio_device s = Some false /\ is_empty text = false
  end.

(** What every step keeps: whole samples in the accumulator, in the ring
    buffer and in every pending task, at least one second of audio in every
    pending task and in a ring buffer that is not empty, the ring buffer
    within its capacity, the capacity a multiple of the increment, the
    overflow count at ten at most, and inside a voice segment the count of
    silent bytes below the threshold. *)
Definition invariant (s : WhisperTranscriber) : Prop :=
  size (_accumulatedByteBuffer s) mod 2 = 0
  /\ size (AudioRingBuffer.unread (_audioBuffer s)) mod 2 = 0
  /\ Forall (fun block => kSampleRate * 2 <= size block /\ size block mod 2 = 0)
       (_task_queue_pool s)
  /\ AudioRingBuffer.availableToRead (_audioBuffer s)
     <= AudioRingBuffer.capacity (_audioBuffer s)
  /\ 0 < AudioRingBuffer.capacity (_audioBuffer s)
  /\ AudioRingBuffer.capacity (_audioBuffer s) mod kRingBufferSizeIncrement = 0
  /\ 0 <= _overflowCount s <= 10
  /\ 0 <= _silentSamplesCount s < size_max
  /\ (_inVoiceSegment s = true -> _silentSamplesCount s < kSilenceSamples)
  /\ (AudioRingBuffer.availableToRead (_audioBuffer s) = 0
      \/ kSampleRate * 2 <= AudioRingBuffer.availableToRead (_audioBuffer s)).

End Pipeline.

(** ** Inputs the properties are run on *)

Module Scenario.
Import Segmenter.

(** Blocks of constant samples: [n] samples of value 1, whose average
    amplitude is 1, and [n] samples of value 0, whose average amplitude is
    0. *)
Definition ones (n : Z) : list byte :=
  Pcm16.bytes_of_pairs (repeat (x01, x00) (Z.to_nat n)).

Definition zeros (n : Z) : list byte :=
  Pcm16.bytes_of_pairs (repeat (x00, x00) (Z.to_nat n)).

(** Runs of the producer from the constructed object: one voiced sample; a
    segment that ended with that sample as a short fragment, followed by one
    more silent sample; one second of voiced audio; and a voiced stretch one
    sample short of the target. *)
Definition after_one_sample : WhisperTranscriber :=
  fst (ProcessAudioBuffer (construct None true) 1%float (ones 1)).

Definition after_short_segment : WhisperTranscriber :=
  fst (feed (construct None true)
         [(1%float, ones 1); (0%float, zeros 8000); (0%float, zeros 1)]).

Definition after_one_second : WhisperTranscriber :=
  fst (ProcessAudioBuffer (construct None true) 1%float (ones 16000)).

Definition before_target : WhisperTranscriber :=
  fst (ProcessAudioBuffer (construct None true) 1%float (ones 191999)).

(** An engine that fails on every block, one that succeeds and returns a
    single text, and a block of one second of valid samples, to run the
    adapter on. *)
Definition failing_engine : list float -> Z := fun _ => 1.
Definition working_engine : list float -> Z := fun _ => 0.
Definition no_text : list float -> list (option string) := fun _ => [].
Definition hello_text : list float -> list (option string) :=
  fun _ => [Some "hello"%string].
Definition keep_text : string -> string := fun t => t.
Definition one_second : list float := repeat 0.5%float (Z.to_nat 16000).

(** The constructed object with the ring buffer full, as two flushes of the
    target size and one of half of it leave it while the consumer is not
    started; and a stream of [n] segments, each one second of voice followed
    by one second of silence. *)
Definition full_ring : WhisperTranscriber :=
  set_audioBuffer (construct None true)
    (AudioRingBuffer.mk kRingBufferSizeIncrement (zeros 480000)).

Definition segments (n : nat) : list (float * list byte) :=
  List.concat (repeat [(1%float, ones 16000); (0%float, zeros 16000)] n).

(** Runs of the producer over these: five segments into the full ring
    buffer after seven overflows; and three voiced blocks of 2, 192000 and 3
    samples after the voiced stretch one sample short of the target. *)
Definition seven_overflows : WhisperTranscriber :=
  Nat.iter 7 handleOverflow full_ring.

Definition after_five_segments : WhisperTranscriber * list ring_write :=
  feed seven_overflows (segments 5).

Definition voiced_stream : list (float * list byte) :=
  [(1%float, ones 2); (1%float, ones 192000); (1%float, ones 3)].

Definition after_voiced_stream : WhisperTranscriber * list ring_write :=
  feed before_target voiced_stream.

End Scenario.

(** * Properties *)

(** ** Bytes and samples *)

Module Pcm16Facts.
Import Pcm16.

Lemma all_bytes_complete (b : byte) : In b all_bytes.
Proof.
  assert (H : nth (N.to_nat (Byte.to_N b)) all_bytes x00 = b)
    by (destruct b; vm_compute; reflexivity).
  rewrite <- H. apply nth_In.
  pose proof (Byte.to_N_bounded b) as Hb.
  change (List.length all_bytes) with 256%nat. lia.
Qed.

(** A property of two bytes that a program decides holds of all pairs once
    it has been run on all of them. *)
Lemma byte_pairs_check (P : byte -> byte -> bool) :
  forallb (fun lo => forallb (P lo) all_bytes) all_bytes = true ->
  forall lo hi, P lo hi = true.
Proof.
  intros H lo hi.
  rewrite forallb_forall in H.
  specialize (H lo (all_bytes_complete lo)).
  rewrite forallb_forall in H.
  exact (H hi (all_bytes_complete hi)).
Qed.

Lemma byte_to_Z_range (b : byte) : 0 <= byte_to_Z b < 256.
Proof.
  unfold byte_to_Z. pose proof (Byte.to_N_bounded b). lia.
Qed.

Lemma Z_to_byte_of_byte (b : byte) (z : Z) :
  z mod 256 = byte_to_Z b -> Z_to_byte z = b.
Proof.
  intros H. unfold Z_to_byte. rewrite H. unfold byte_to_Z.
  rewrite N2Z.id, Byte.of_to_N. reflexivity.
Qed.

(** The two bytes do not overlap, so or-ing them is adding them. *)
Lemma lor_shiftl_8 (a b : Z) :
  0 <= a < 256 -> Z.lor a (Z.shiftl b 8) = a + 256 * b.
Proof.
  intros Ha.
  assert (Hland : Z.land a (Z.shiftl b 8) = 0).
  { apply Z.bits_inj'. intros n Hn. rewrite Z.land_spec, Z.bits_0.
    destruct (Z.lt_ge_cases n 8) as [Hlt | Hge].
    - rewrite Z.shiftl_spec_low by exact Hlt. apply andb_false_r.
    - assert (Hbit : Z.testbit a n = false).
      { destruct (Z.eq_dec a 0) as [-> | Hnz]; [apply Z.bits_0 |].
        apply Z.bits_above_log2; [lia |].
        apply Z.lt_le_trans with 8; [| exact Hge].
        apply Z.log2_lt_pow2; [lia |]. change (2 ^ 8) with 256. lia. }
      rewrite Hbit. reflexivity. }
  rewrite <- Z.lxor_lor by exact Hland.
  rewrite <- Z.add_nocarry_lxor by exact Hland.
  rewrite Z.shiftl_mul_pow2 by lia. change (2 ^ 8) with 256. lia.
Qed.

(** The bit operations of the source read the pair as a little-endian
    signed 16-bit number. *)
Lemma sample_of_bytes_le_signed16 (lo hi : byte) :
  sample_of_bytes lo hi = le_signed16 lo hi.
Proof.
  unfold sample_of_bytes, le_signed16, to_int16.
  pose proof (byte_to_Z_range lo) as Hlo. pose proof (byte_to_Z_range hi) as Hhi.
  rewrite lor_shiftl_8 by exact Hlo.
  rewrite Z.mod_small by lia. reflexivity.
Qed.

Lemma le_signed16_range (lo hi : byte) :
  -32768 <= le_signed16 lo hi < 32768.
Proof.
  unfold le_signed16.
  pose proof (byte_to_Z_range lo) as Hlo. pose proof (byte_to_Z_range hi) as Hhi.
  destruct (_ <? 32768) eqn:E; [apply Z.ltb_lt in E | apply Z.ltb_ge in E]; lia.
Qed.

(** Writing a sample back as two bytes gives the bytes it came from. *)
Lemma bytes_of_sample (lo hi : byte) :
  currentBuffer_of [sample_of_bytes lo hi] = [lo; hi].
Proof.
  rewrite sample_of_bytes_le_signed16. cbn [currentBuffer_of].
  pose proof (byte_to_Z_range lo) as Hlo. pose proof (byte_to_Z_range hi) as Hhi.
  assert (H255 : 255 = Z.ones 8) by reflexivity.
  rewrite H255, !Z.land_ones by lia. rewrite Z.shiftr_div_pow2 by lia.
  change (2 ^ 8) with 256.
  assert (Hs : le_signed16 lo hi = byte_to_Z lo + 256 * byte_to_Z hi
               \/ le_signed16 lo hi = byte_to_Z lo + 256 * byte_to_Z hi - 65536).
  { unfold le_signed16. destruct (_ <? 32768); [left | right]; reflexivity. }
  assert (Hl : le_signed16 lo hi mod 256 = byte_to_Z lo).
  { destruct Hs as [-> | ->].
    - replace (byte_to_Z lo + 256 * byte_to_Z hi)
        with (byte_to_Z lo + byte_to_Z hi * 256) by lia.
      rewrite Z.mod_add by lia. apply Z.mod_small. lia.
    - replace (byte_to_Z lo + 256 * byte_to_Z hi - 65536)
        with (byte_to_Z lo + (byte_to_Z hi - 256) * 256) by lia.
      rewrite Z.mod_add by lia. apply Z.mod_small. lia. }
  assert (Hh : (le_signed16 lo hi / 256) mod 256 = byte_to_Z hi).
  { destruct Hs as [-> | ->].
    - replace (byte_to_Z lo + 256 * byte_to_Z hi)
        with (byte_to_Z lo + byte_to_Z hi * 256) by lia.
      rewrite Z.div_add by lia. rewrite (Z.div_small (byte_to_Z lo)) by lia.
      apply Z.mod_small. lia.
    - replace (byte_to_Z lo + 256 * byte_to_Z hi - 65536)
        with (byte_to_Z lo + (byte_to_Z hi - 256) * 256) by lia.
      rewrite Z.div_add by lia. rewrite (Z.div_small (byte_to_Z lo)) by lia.
      replace (0 + (byte_to_Z hi - 256)) with (byte_to_Z hi + (-1) * 256) by lia.
      rewrite Z.mod_add by lia. apply Z.mod_small. lia. }
  rewrite (Z_to_byte_of_byte lo), (Z_to_byte_of_byte hi); [reflexivity | |].
  - rewrite Z.mod_mod by lia. exact Hh.
  - rewrite Z.mod_mod by lia. exact Hl.
Qed.

Lemma currentBuffer_roundtrip (pairs : list (byte * byte)) :
  currentBuffer_of (int16Buffer_of (bytes_of_pairs pairs)) = bytes_of_pairs pairs.
Proof.
  induction pairs as [| [lo hi] pairs IH]; [reflexivity |].
  cbn [bytes_of_pairs flat_map fst snd app int16Buffer_of currentBuffer_of].
  fold (bytes_of_pairs pairs). rewrite IH.
  pose proof (bytes_of_sample lo hi) as H. cbn [currentBuffer_of] in H.
  injection H as H1 H2. rewrite H1, H2. reflexivity.
Qed.

(** The accumulated block is as long as the incoming one, rounded up to a
    whole sample. *)
Lemma currentBuffer_size (buf : list byte) :
  size (currentBuffer_of (int16Buffer_of buf)) = 2 * ((size buf + 1) / 2).
Proof.
  unfold size.
  assert (H : forall n (b : list byte), (List.length b <= n)%nat ->
            Z.of_nat (List.length (currentBuffer_of (int16Buffer_of b)))
            = 2 * ((Z.of_nat (List.length b) + 1) / 2)).
  { induction n as [| n IH]; intros b Hb.
    - destruct b; [reflexivity | simpl in Hb; lia].
    - destruct b as [| lo [| hi rest]]; [reflexivity | reflexivity |].
      cbn [int16Buffer_of currentBuffer_of List.length].
      rewrite !Nat2Z.inj_succ. rewrite IH by (simpl in Hb; lia).
      replace (Z.succ (Z.succ (Z.of_nat (List.length rest))) + 1)
        with (Z.of_nat (List.length rest) + 1 + 1 * 2) by lia.
      rewrite Z.div_add by lia. lia. }
  apply (H (List.length buf)). lia.
Qed.

Lemma Qpower_2_nonneg (k : Z) : 0 <= k -> (Qpower 2 k == inject_Z (2 ^ k))%Q.
Proof.
  intros Hk. change 2%Q with (inject_Z 2). symmetry. apply Zpower_Qpower. exact Hk.
Qed.

Lemma scaled_mantissa_value (x e : Z) :
  e <= -15 ->
  (inject_Z (x * 2 ^ (- e - 15)) * Qpower 2 e == inject_Z x / 32768)%Q.
Proof.
  intros He.
  assert (Hk : 0 <= - e - 15) by lia.
  assert (Hnz : ~ (inject_Z (2 ^ (- e - 15)) == 0)%Q).
  { change 0%Q with (inject_Z 0). rewrite inject_Z_injective.
    pose proof (Z.pow_pos_nonneg 2 (- e - 15)). lia. }
  assert (Hpow : (Qpower 2 e == / (inject_Z (2 ^ (- e - 15)) * 32768))%Q).
  { replace e with (- (- e - 15 + 15)) at 1 by lia.
    rewrite Qpower_opp, Qpower_2_nonneg by lia.
    rewrite Z.pow_add_r by lia. rewrite inject_Z_mult. reflexivity. }
  rewrite Hpow, inject_Z_mult. field. exact Hnz.
Qed.

Lemma exact_quotient_value (z : Z) :
  exact_quotient z = true ->
  exists q, float_value (normalize z) = Some q /\ (q == inject_Z z / 32768)%Q.
Proof.
  unfold exact_quotient, float_value.
  destruct (Prim2SF (normalize z)) as [s | s | | s m e]; try discriminate.
  - intros H. apply Z.eqb_eq in H. subst z. exists 0%Q. split; reflexivity.
  - intros H. apply andb_true_iff in H. destruct H as [H Hm].
    apply andb_true_iff in H. destruct H as [Hs He].
    apply Bool.eqb_prop in Hs. apply Z.leb_le in He. apply Z.eqb_eq in Hm.
    eexists. split; [reflexivity |].
    rewrite Hm, Z.shiftl_mul_pow2 by lia.
    destruct s; symmetry in Hs.
    + apply Z.ltb_lt in Hs. rewrite <- inject_Z_opp.
      replace (- (Z.abs z * 2 ^ (- e - 15))) with (z * 2 ^ (- e - 15)) by lia.
      apply scaled_mantissa_value. exact He.
    + apply Z.ltb_ge in Hs. rewrite Z.abs_eq by exact Hs.
      apply scaled_mantissa_value. exact He.
Qed.

(** The exact value of a normalized sample. *)
Lemma normalize_value (lo hi : byte) :
  exists q, float_value (normalize (le_signed16 lo hi)) = Some q
            /\ (q == inject_Z (le_signed16 lo hi) / 32768)%Q.
Proof.
  apply exact_quotient_value.
  revert lo hi. apply byte_pairs_check. vm_compute. reflexivity.
Qed.

(** C9. Each task turns its byte block into samples two bytes at a time,
    reading each pair as a little-endian signed 16-bit number and dividing it
    by 32768, the quotient being exact; the pair [0x00, 0x80] becomes -1.0
    and the pair [0xFF, 0x7F] becomes 32767/32768, which lies between
    0.999969 and 0.99997. *)
Theorem pcm16_normalization :
  (forall pairs : list (byte * byte),
      pcmf32_of (bytes_of_pairs pairs)
      = map (fun p => normalize (le_signed16 (fst p) (snd p))) pairs)
  /\ (forall lo hi : byte,
        exists q, float_value (normalize (le_signed16 lo hi)) = Some q
                  /\ (q == inject_Z (le_signed16 lo hi) / 32768)%Q)
  /\ le_signed16 x00 x80 = -32768
  /\ pcmf32_of [x00; x80] = [(-1)%float]
  /\ le_signed16 xff x7f = 32767
  /\ pcmf32_of [xff; x7f] = [0.999969482421875%float]
  /\ (exists q, float_value 0.999969482421875%float = Some q
                /\ (q == 32767 # 32768)%Q
                /\ (0.999969 < q)%Q /\ (q < 0.99997)%Q).
Proof.
  split; [| split; [| split; [| split; [| split; [| split]]]]].
  - induction pairs as [| [lo hi] pairs IH]; [reflexivity |].
    cbn [bytes_of_pairs flat_map fst snd app pcmf32_of map].
    fold (bytes_of_pairs pairs). rewrite IH, sample_of_bytes_le_signed16.
    reflexivity.
  - exact normalize_value.
  - reflexivity.
  - vm_compute. reflexivity.
  - reflexivity.
  - vm_compute. reflexivity.
  - eexists. split; [vm_compute; reflexivity |].
    split; [| split]; vm_compute; reflexivity.
Qed.

End Pcm16Facts.

(** ** The segmenter and the accumulator *)

Module SegmenterFacts.
Import Segmenter Scenario.

Lemma size_app {A : Type} (l1 l2 : list A) : size (l1 ++ l2) = size l1 + size l2.
Proof. unfold size. rewrite length_app. lia. Qed.

Lemma size_nonneg {A : Type} (l : list A) : 0 <= size l.
Proof. unfold size. lia. Qed.

Lemma size_firstn {A : Type} (n : Z) (l : list A) :
  0 <= n <= size l -> size (firstn (Z.to_nat n) l) = n.
Proof. unfold size. intros H. rewrite length_firstn. lia. Qed.

Lemma size_skipn {A : Type} (n : Z) (l : list A) :
  0 <= n <= size l -> size (skipn (Z.to_nat n) l) = size l - n.
Proof. unfold size. intros H. rewrite length_skipn. lia. Qed.

(** What a write, accepted or refused, leaves alone. *)
Lemma write_or_overflow_frame (s : WhisperTranscriber) (n : Z) :
  let s' := fst (write_or_overflow s n) in
  _accumulatedByteBuffer s' = _accumulatedByteBuffer s
  /\ _inVoiceSegment s' = _inVoiceSegment s
  /\ _samplesSinceVoiceStart s' = _samplesSinceVoiceStart s
  /\ _silentSamplesCount s' = _silentSamplesCount s.
Proof.
  unfold write_or_overflow, handleOverflow.
  destruct (AudioRingBuffer.write _ _) as [[|] rb]; cbn.
  - repeat split.
  - destruct (_ >? 10); cbn; repeat split.
Qed.

(** The call a flush makes, and what the ring buffer holds afterwards. *)
Lemma write_or_overflow_call (s : WhisperTranscriber) (n : Z) :
  let data := firstn (Z.to_nat n) (_accumulatedByteBuffer s) in
  let fits := size data <=? AudioRingBuffer.capacity (_audioBuffer s)
                            - AudioRingBuffer.availableToRead (_audioBuffer s) in
  snd (write_or_overflow s n) = mkWrite data fits
  /\ AudioRingBuffer.unread (_audioBuffer (fst (write_or_overflow s n)))
     = if fits then AudioRingBuffer.unread (_audioBuffer s) ++ data
       else AudioRingBuffer.unread (_audioBuffer s).
Proof.
  unfold write_or_overflow, AudioRingBuffer.write, handleOverflow.
  destruct (_ <=? _); cbn; [split; reflexivity |].
  destruct (_ >? 10); cbn; split; reflexivity.
Qed.

Lemma keep_remainder_spec (s : WhisperTranscriber) (n : Z) :
  0 <= n <= size (_accumulatedByteBuffer s) ->
  let s' := keep_remainder s n in
  _accumulatedByteBuffer s' = skipn (Z.to_nat n) (_accumulatedByteBuffer s)
  /\ _samplesSinceVoiceStart s' = size (_accumulatedByteBuffer s) - n
  /\ _inVoiceSegment s' = _inVoiceSegment s
  /\ _silentSamplesCount s' = _silentSamplesCount s
  /\ _audioBuffer s' = _audioBuffer s
  /\ _overflowCount s' = _overflowCount s.
Proof.
  intros Hn. unfold keep_remainder.
  destruct (size (_accumulatedByteBuffer s) >? n) eqn:Hgt; cbn.
  - rewrite size_skipn by exact Hn. repeat split.
  - rewrite Z.gtb_ltb in Hgt. apply Z.ltb_ge in Hgt.
    assert (Heq : size (_accumulatedByteBuffer s) = n) by lia.
    assert (Hlen : List.length (_accumulatedByteBuffer s) = Z.to_nat n)
      by (unfold size in Heq; lia).
    rewrite <- Hlen, skipn_all. repeat split. lia.
Qed.

(** The flush while speaking, spelled out for an accumulator that has
    reached the target. *)
Lemma flush_continuous_full (s : WhisperTranscriber) :
  kTargetSamples <= size (_accumulatedByteBuffer s) ->
  let acc := _accumulatedByteBuffer s in
  let data := firstn (Z.to_nat kTargetSamples) acc in
  let fits := kTargetSamples <=? AudioRingBuffer.capacity (_audioBuffer s)
                                 - AudioRingBuffer.availableToRead (_audioBuffer s) in
  let s' := fst (flush_continuous s) in
  snd (flush_continuous s) = [mkWrite data fits]
  /\ size data = kTargetSamples
  /\ AudioRingBuffer.unread (_audioBuffer s')
     = (if fits then AudioRingBuffer.unread (_audioBuffer s) ++ data
        else AudioRingBuffer.unread (_audioBuffer s))
  /\ _accumulatedByteBuffer s' = skipn (Z.to_nat kTargetSamples) acc
  /\ size (_accumulatedByteBuffer s') = size acc - kTargetSamples
  /\ _samplesSinceVoiceStart s' = size acc - kTargetSamples
  /\ _inVoiceSegment s' = _inVoiceSegment s
  /\ _silentSamplesCount s' = _silentSamplesCount s.
Proof.
  intros Hfull. cbv zeta.
  assert (Hk : 0 <= kTargetSamples <= size (_accumulatedByteBuffer s))
    by (unfold kTargetSamples, kSampleRate in *; lia).
  pose proof (size_firstn kTargetSamples (_accumulatedByteBuffer s) Hk) as Hdata.
  unfold flush_continuous.
  apply Z.geb_le in Hfull. rewrite Hfull.
  pose proof (write_or_overflow_frame s kTargetSamples) as Hframe.
  pose proof (write_or_overflow_call s kTargetSamples) as Hcall.
  destruct (write_or_overflow s kTargetSamples) as [s1 w].
  cbn [fst snd] in *. cbv zeta in Hframe, Hcall.
  destruct Hframe as (Hacc & Hin & Hsince & Hsil).
  destruct Hcall as (Hw & Hring).
  rewrite Hdata in Hw, Hring.
  pose proof (keep_remainder_spec s1 kTargetSamples) as Hkeep.
  rewrite Hacc in Hkeep. specialize (Hkeep Hk). cbv zeta in Hkeep.
  destruct Hkeep as (Ha & Hb & Hc & Hd & He & Hf).
  rewrite Ha, Hb, Hc, Hd, He, Hw, Hring, Hin, Hsil.
  rewrite size_skipn by exact Hk.
  repeat split; try reflexivity; exact Hdata.
Qed.

(** The thresholds are the binary32 numbers the source computes: 0.1f,
    1.2f and 0.8f are the binary32 numbers nearest to 1/10, 6/5 and 4/5, and
    each threshold is a multiple of [2^-27 = 1/134217728], the binary32
    spacing between 1/16 and 1/8, within half that spacing of the exact product. *)
Lemma thresholds_are_rounded_products :
  exists r a b s e : Q,
    float_value relativeThreshold = Some r
    /\ float_value 0x1.333334p+0%float = Some a
    /\ float_value 0x1.99999ap-1%float = Some b
    /\ float_value voiceStartThreshold = Some s
    /\ float_value voiceEndThreshold = Some e
    /\ (Qabs (r - (1 # 10)) < (1 # 268435456))%Q
    /\ (Qabs (a - (6 # 5)) < (1 # 16777216))%Q
    /\ (Qabs (b - (4 # 5)) < (1 # 33554432))%Q
    /\ (s == (16106128 # 134217728))%Q
    /\ (e == (10737419 # 134217728))%Q
    /\ (Qabs (r * a - s) < (1 # 268435456))%Q
    /\ (Qabs (r * b - e) < (1 # 268435456))%Q.
Proof.
  do 5 eexists.
  repeat (split; [vm_compute; reflexivity |]).
  vm_compute. reflexivity.
Qed.

(** The decision on a few amplitudes: any positive amplitude counts as
    voice in both states, a zero or negative one in neither. *)
Lemma voicePresent_examples :
  voicePresent_of false 1%float = true
  /\ voicePresent_of true 1%float = true
  /\ voicePresent_of false 0x1p-20%float = true
  /\ voicePresent_of false 32767%float = true
  /\ voicePresent_of false 0%float = false
  /\ voicePresent_of true 0%float = false
  /\ voicePresent_of true (-0)%float = false
  /\ voicePresent_of true (-1)%float = false.
Proof. vm_compute. repeat split. Qed.

Lemma flush_continuous_short (s : WhisperTranscriber) :
  size (_accumulatedByteBuffer s) < kTargetSamples ->
  flush_continuous s = (s, []).
Proof.
  intros H. unfold flush_continuous.
  destruct (size (_accumulatedByteBuffer s) >=? kTargetSamples) eqn:E; [| reflexivity].
  apply Z.geb_le in E. lia.
Qed.

(** The state on entering the accumulation of a voiced block. *)
Lemma accumulate_enter_voice (s : WhisperTranscriber) (currentBuffer : list byte) :
  let s1 := accumulate (enter_voice s) currentBuffer in
  _accumulatedByteBuffer s1 = _accumulatedByteBuffer s ++ currentBuffer
  /\ _inVoiceSegment s1 = true
  /\ _silentSamplesCount s1 = 0
  /\ _audioBuffer s1 = _audioBuffer s
  /\ _overflowCount s1 = _overflowCount s
  /\ _samplesSinceVoiceStart s1
     = wrap64 ((if _inVoiceSegment s then _samplesSinceVoiceStart s else 0)
               + size currentBuffer).
Proof.
  unfold accumulate, enter_voice.
  destruct (_inVoiceSegment s) eqn:E; cbn; rewrite ?E; repeat split.
Qed.

(** C1. A block met in the Silence state whose average amplitude is not
    zero and exceeds the start threshold takes the voiced path: lines
    404-408 put the segmenter in the Voice state with
    [_samplesSinceVoiceStart] and [_silentSamplesCount] both zero, and the
    function returns in the Voice state with [_silentSamplesCount] zero and
    [_samplesSinceVoiceStart] counted from that zero, whatever it held
    before. *)
Theorem silence_to_voice (s : WhisperTranscriber) (avgAmplitude : float)
    (playoutBuffer : list byte) :
  _inVoiceSegment s = false ->
  PrimFloat.eqb avgAmplitude 0%float = false ->
  PrimFloat.ltb (PrimFloat.mul voiceStartThreshold avgAmplitude) avgAmplitude = true ->
  let currentBuffer := Pcm16.currentBuffer_of (Pcm16.int16Buffer_of playoutBuffer) in
  let entered := enter_voice s in
  let s' := fst (ProcessAudioBuffer s avgAmplitude playoutBuffer) in
  let held := size (_accumulatedByteBuffer s) + size currentBuffer in
  ProcessAudioBuffer s avgAmplitude playoutBuffer
  = flush_continuous (accumulate entered currentBuffer)
  /\ _inVoiceSegment entered = true
  /\ _samplesSinceVoiceStart entered = 0
  /\ _silentSamplesCount entered = 0
  /\ _inVoiceSegment s' = true
  /\ _silentSamplesCount s' = 0
  /\ _samplesSinceVoiceStart s'
     = (if held >=? kTargetSamples then held - kTargetSamples
        else wrap64 (size currentBuffer)).
Proof.
  intros Hsil Hnz Hgt. cbv zeta.
  assert (Hrun : ProcessAudioBuffer s avgAmplitude playoutBuffer
                 = flush_continuous
                     (accumulate (enter_voice s)
                        (Pcm16.currentBuffer_of (Pcm16.int16Buffer_of playoutBuffer)))).
  { unfold ProcessAudioBuffer, voicePresent_of. rewrite Hnz, Hsil. cbn [negb].
    rewrite Hgt. reflexivity. }
  split; [exact Hrun |].
  split; [unfold enter_voice; rewrite Hsil; reflexivity |].
  split; [unfold enter_voice; rewrite Hsil; reflexivity |].
  split; [unfold enter_voice; rewrite Hsil; reflexivity |].
  rewrite Hrun.
  pose proof (accumulate_enter_voice s
                (Pcm16.currentBuffer_of (Pcm16.int16Buffer_of playoutBuffer))) as Hacc.
  cbv zeta in Hacc. destruct Hacc as (Ha & Hv & Hs & _ & _ & Hc).
  rewrite Hsil in Hc. cbn [Z.add] in Hc.
  set (s1 := accumulate (enter_voice s) _) in *.
  rewrite <- size_app, <- Ha.
  destruct (size (_accumulatedByteBuffer s1) >=? kTargetSamples) eqn:E.
  - apply Z.geb_le in E.
    pose proof (flush_continuous_full s1 E) as Hf. cbv zeta in Hf.
    destruct Hf as (_ & _ & _ & _ & _ & Hsince & Hin & Hsilent).
    rewrite Hin, Hsilent, Hsince. repeat split; assumption.
  - assert (E' : size (_accumulatedByteBuffer s1) < kTargetSamples).
    { destruct (Z.lt_ge_cases (size (_accumulatedByteBuffer s1)) kTargetSamples) as [H | H];
        [exact H | apply Z.geb_le in H; congruence]. }
    rewrite (flush_continuous_short s1 E'). cbn [fst].
    repeat split; assumption.
Qed.

(** C5. A voiced block that brings the accumulator to the target size or
    beyond causes one write to the ring buffer, of exactly the first
    [kTargetSamples] accumulated bytes, which the ring buffer stores when it
    has room for them; the bytes past the target, exactly the accumulated
    length minus the target, stay as the accumulator for the next cycle, and
    the segment goes on. *)
Theorem continuous_speech_flush (s : WhisperTranscriber) (avgAmplitude : float)
    (playoutBuffer : list byte) :
  voicePresent_of (_inVoiceSegment s) avgAmplitude = true ->
  let currentBuffer := Pcm16.currentBuffer_of (Pcm16.int16Buffer_of playoutBuffer) in
  let acc := _accumulatedByteBuffer s ++ currentBuffer in
  kTargetSamples <= size acc ->
  let data := firstn (Z.to_nat kTargetSamples) acc in
  let fits := kTargetSamples <=? AudioRingBuffer.capacity (_audioBuffer s)
                                 - AudioRingBuffer.availableToRead (_audioBuffer s) in
  let s' := fst (ProcessAudioBuffer s avgAmplitude playoutBuffer) in
  snd (ProcessAudioBuffer s avgAmplitude playoutBuffer) = [mkWrite data fits]
  /\ size data = kTargetSamples
  /\ AudioRingBuffer.unread (_audioBuffer s')
     = (if fits then AudioRingBuffer.unread (_audioBuffer s) ++ data
        else AudioRingBuffer.unread (_audioBuffer s))
  /\ _accumulatedByteBuffer s' = skipn (Z.to_nat kTargetSamples) acc
  /\ size (_accumulatedByteBuffer s') = size acc - kTargetSamples
  /\ _samplesSinceVoiceStart s' = size acc - kTargetSamples
  /\ _inVoiceSegment s' = true.
Proof.
  intros Hvoice. cbv zeta. intros Hfull.
  unfold ProcessAudioBuffer. rewrite Hvoice.
  pose proof (accumulate_enter_voice s
                (Pcm16.currentBuffer_of (Pcm16.int16Buffer_of playoutBuffer))) as Hacc.
  cbv zeta in Hacc. destruct Hacc as (Ha & Hv & _ & Hrb & _ & _).
  set (s1 := accumulate (enter_voice s) _) in *.
  rewrite <- Ha in Hfull |- *. rewrite <- Hrb.
  pose proof (flush_continuous_full s1 Hfull) as Hf. cbv zeta in Hf.
  destruct Hf as (H1 & H2 & H3 & H4 & H5 & H6 & H7 & _).
  rewrite Hv in H7. repeat split; assumption.
Qed.

(** The flush at the end of speech, spelled out: with one second of audio
    or more a write of the oldest bytes, the target size at most; with less,
    nothing at all. *)
Lemma flush_end_of_speech_spec (s : WhisperTranscriber) :
  let acc := _accumulatedByteBuffer s in
  let n := Z.min (size acc) kTargetSamples in
  let data := firstn (Z.to_nat n) acc in
  let fits := n <=? AudioRingBuffer.capacity (_audioBuffer s)
                    - AudioRingBuffer.availableToRead (_audioBuffer s) in
  let s' := fst (flush_end_of_speech s) in
  (kSampleRate * 2 <= size acc ->
     snd (flush_end_of_speech s) = [mkWrite data fits]
     /\ size data = n
     /\ AudioRingBuffer.unread (_audioBuffer s')
        = (if fits then AudioRingBuffer.unread (_audioBuffer s) ++ data
           else AudioRingBuffer.unread (_audioBuffer s))
     /\ _accumulatedByteBuffer s' = skipn (Z.to_nat n) acc
     /\ _samplesSinceVoiceStart s' = size acc - n)
  /\ (size acc < kSampleRate * 2 -> flush_end_of_speech s = (s, []))
  /\ _inVoiceSegment s' = _inVoiceSegment s
  /\ _silentSamplesCount s' = _silentSamplesCount s.
Proof.
  cbv zeta.
  assert (Hk : 0 <= Z.min (size (_accumulatedByteBuffer s)) kTargetSamples
               <= size (_accumulatedByteBuffer s)).
  { pose proof (size_nonneg (_accumulatedByteBuffer s)).
    unfold kTargetSamples, kSampleRate. lia. }
  pose proof (size_firstn _ (_accumulatedByteBuffer s) Hk) as Hdata.
  pose proof (write_or_overflow_frame s
                (Z.min (size (_accumulatedByteBuffer s)) kTargetSamples)) as Hframe.
  pose proof (write_or_overflow_call s
                (Z.min (size (_accumulatedByteBuffer s)) kTargetSamples)) as Hcall.
  pose proof (keep_remainder_spec
                (fst (write_or_overflow s
                        (Z.min (size (_accumulatedByteBuffer s)) kTargetSamples)))
                (Z.min (size (_accumulatedByteBuffer s)) kTargetSamples)) as Hkeep.
  unfold flush_end_of_speech.
  destruct (write_or_overflow s _) as [s1 w].
  cbn [fst snd] in *. cbv zeta in Hframe, Hcall, Hkeep.
  destruct Hframe as (Hacc & Hin & Hsince & Hsil).
  destruct Hcall as (Hw & Hring).
  rewrite Hdata in Hw, Hring.
  rewrite Hacc in Hkeep. specialize (Hkeep Hk).
  destruct Hkeep as (Ha & Hb & Hc & Hd & He & Hf).
  destruct (Z.lt_ge_cases (size (_accumulatedByteBuffer s)) (kSampleRate * 2)) as [Hlt | Hge].
  - assert (E1 : (size (_accumulatedByteBuffer s) >=? kTargetSamples) = false).
    { destruct (size (_accumulatedByteBuffer s) >=? kTargetSamples) eqn:E; [| reflexivity].
      apply Z.geb_le in E. unfold kTargetSamples, kSampleRate in *. lia. }
    assert (E2 : (size (_accumulatedByteBuffer s) >=? kSampleRate * 2) = false).
    { destruct (size (_accumulatedByteBuffer s) >=? kSampleRate * 2) eqn:E; [| reflexivity].
      apply Z.geb_le in E. lia. }
    rewrite E1, E2. cbn [orb fst snd].
    split; [intros H; lia |]. repeat split.
  - assert (E2 : (size (_accumulatedByteBuffer s) >=? kSampleRate * 2) = true)
      by (apply Z.geb_le; exact Hge).
    rewrite E2, orb_true_r. cbn [fst snd].
    rewrite Ha, Hb, Hc, Hd, He, Hw, Hring.
    split; [intros _; repeat split; try reflexivity; assumption |].
    split; [intros H; lia |]. split; assumption.
Qed.

(** A block without voice: the count of silent bytes grows by the block,
    and a segment that is open ends exactly when the count has reached
    [kSilenceSamples]. *)
Lemma silent_block_spec (s : WhisperTranscriber) (currentBuffer : list byte) :
  let silent := wrap64 (_silentSamplesCount s + size currentBuffer) in
  let ended := _inVoiceSegment s && (silent >=? kSilenceSamples) in
  let s' := fst (silent_block s currentBuffer) in
  _inVoiceSegment s' = _inVoiceSegment s && negb (silent >=? kSilenceSamples)
  /\ _silentSamplesCount s' = (if ended then 0 else silent)
  /\ silent_block s currentBuffer
     = (if ended
        then
          let r := flush_end_of_speech
                     (set_inVoiceSegment
                        (set_silentSamplesCount s silent) false) in
          (set_silentSamplesCount (fst r) 0, snd r)
        else (set_silentSamplesCount s silent, [])).
Proof.
  cbv zeta. unfold silent_block. cbn [_inVoiceSegment _silentSamplesCount set_silentSamplesCount].
  destruct (_inVoiceSegment s) eqn:Ein;
    destruct (wrap64 (_silentSamplesCount s + size currentBuffer) >=? kSilenceSamples) eqn:Eth;
    cbn [andb negb fst snd]; try (cbn; rewrite ?Ein; repeat split; fail).
  pose proof (flush_end_of_speech_spec
                (set_inVoiceSegment
                   (set_silentSamplesCount s
                      (wrap64 (_silentSamplesCount s + size currentBuffer))) false)) as Hf.
  cbv zeta in Hf. destruct Hf as (_ & _ & Hin & _).
  destruct (flush_end_of_speech _) as [s3 ws]. cbn [fst snd] in *.
  cbn. split; [exact Hin |]. split; reflexivity.
Qed.

(** When the Voice state is left: on a block without voice that brings the
    count of silent bytes to [kSilenceSamples], and on no other. *)
Lemma voice_ends_iff (s : WhisperTranscriber) (avgAmplitude : float)
    (playoutBuffer : list byte) :
  _inVoiceSegment s = true ->
  let currentBuffer := Pcm16.currentBuffer_of (Pcm16.int16Buffer_of playoutBuffer) in
  let s' := fst (ProcessAudioBuffer s avgAmplitude playoutBuffer) in
  _inVoiceSegment s' = false
  <-> voicePresent_of true avgAmplitude = false
      /\ kSilenceSamples <= wrap64 (_silentSamplesCount s + size currentBuffer).
Proof.
  intros Hin. cbv zeta. unfold ProcessAudioBuffer. rewrite Hin.
  destruct (voicePresent_of true avgAmplitude) eqn:Ev.
  - pose proof (accumulate_enter_voice s
                  (Pcm16.currentBuffer_of (Pcm16.int16Buffer_of playoutBuffer))) as Hacc.
    cbv zeta in Hacc. destruct Hacc as (_ & Hv & _).
    set (s1 := accumulate (enter_voice s) _) in *.
    assert (Hkeep : _inVoiceSegment (fst (flush_continuous s1)) = true).
    { destruct (Z.lt_ge_cases (size (_accumulatedByteBuffer s1)) kTargetSamples) as [H | H].
      - rewrite (flush_continuous_short s1 H). exact Hv.
      - pose proof (flush_continuous_full s1 H) as Hf. cbv zeta in Hf.
        destruct Hf as (_ & _ & _ & _ & _ & _ & Hf & _). congruence. }
    rewrite Hkeep. split; [discriminate | intros [H _]; discriminate].
  - pose proof (silent_block_spec s
                  (Pcm16.currentBuffer_of (Pcm16.int16Buffer_of playoutBuffer))) as Hs.
    cbv zeta in Hs. destruct Hs as (Hs & _). rewrite Hs, Hin. cbn [andb].
    destruct (_ >=? kSilenceSamples) eqn:E; cbn [negb].
    + apply Z.geb_le in E. split; [intros _; split; [reflexivity | exact E] | reflexivity].
    + split; [discriminate |]. intros [_ H]. apply Z.geb_le in H. congruence.
Qed.

(** The bytes of a list of samples: two for each. *)
Lemma currentBuffer_of_size (int16Buffer : list Z) :
  size (Pcm16.currentBuffer_of int16Buffer) = 2 * size int16Buffer.
Proof.
  unfold size. induction int16Buffer as [| sample rest IH]; [reflexivity |].
  cbn [Pcm16.currentBuffer_of List.length]. rewrite !Nat2Z.inj_succ, IH. lia.
Qed.

(** C2, as the code has it. A block whose average amplitude is zero gets
    the decision "no voice" and is handled as every block without voice is,
    by the branch of line 432: it never opens a segment; in the Silence
    state nothing is accumulated or written; it is counted as silence, so
    that a block of one second of samples ends an open segment (the count
    and the block being far from the end of the range of [size_t]); and a
    segment that is still open afterwards has its count of silence below
    [kSilenceSamples]. *)
Theorem zero_amplitude_is_silence (s : WhisperTranscriber) (avgAmplitude : float)
    (playoutBuffer : list byte) :
  PrimFloat.eqb avgAmplitude 0%float = true ->
  let int16Buffer := Pcm16.int16Buffer_of playoutBuffer in
  let currentBuffer := Pcm16.currentBuffer_of int16Buffer in
  let r := ProcessAudioBuffer s avgAmplitude playoutBuffer in
  r = silent_block s currentBuffer
  /\ (_inVoiceSegment s = false ->
      _inVoiceSegment (fst r) = false
      /\ snd r = []
      /\ _accumulatedByteBuffer (fst r) = _accumulatedByteBuffer s
      /\ _audioBuffer (fst r) = _audioBuffer s)
  /\ (_inVoiceSegment s = true ->
      0 <= 2 * _silentSamplesCount s < size_max ->
      2 * size playoutBuffer + 2 < size_max ->
      kSampleRate <= size int16Buffer ->
      _inVoiceSegment (fst r) = false /\ _silentSamplesCount (fst r) = 0)
  /\ (_inVoiceSegment (fst r) = true ->
      _inVoiceSegment s = true /\ _silentSamplesCount (fst r) < kSilenceSamples).
Proof.
  intros Hz. cbv zeta.
  assert (Hr : ProcessAudioBuffer s avgAmplitude playoutBuffer
               = silent_block s (Pcm16.currentBuffer_of (Pcm16.int16Buffer_of playoutBuffer)))
    by (unfold ProcessAudioBuffer, voicePresent_of; rewrite Hz; reflexivity).
  rewrite Hr. split; [reflexivity |].
  pose proof (silent_block_spec s
                (Pcm16.currentBuffer_of (Pcm16.int16Buffer_of playoutBuffer))) as Hs.
  cbv zeta in Hs. destruct Hs as (Hin & Hcount & Heq).
  split; [| split].
  - intros Hsil. rewrite Heq, Hsil. cbn [andb fst snd].
    destruct s as [dev pool ctx rb run act acc oc inv sv sil].
    cbn in Hsil. subst inv. repeat split.
  - intros Hvoice Hpos Hmax Hsec.
    assert (Hth : (wrap64 (_silentSamplesCount s
                           + size (Pcm16.currentBuffer_of (Pcm16.int16Buffer_of playoutBuffer)))
                   >=? kSilenceSamples) = true).
    { apply Z.geb_le.
      pose proof (Pcm16Facts.currentBuffer_size playoutBuffer) as Hcur.
      rewrite currentBuffer_of_size in Hcur |- *.
      pose proof (size_nonneg (Pcm16.int16Buffer_of playoutBuffer)) as Hn.
      pose proof (size_nonneg playoutBuffer) as Hb.
      assert (Hle : 2 * size (Pcm16.int16Buffer_of playoutBuffer) <= size playoutBuffer + 1)
        by (rewrite Hcur; Z.div_mod_to_equations; lia).
      unfold wrap64. unfold size_max in *.
      rewrite Z.mod_small by lia. unfold kSilenceSamples, kSampleRate in *. lia. }
    rewrite Hin, Hcount, Hvoice, Hth. split; reflexivity.
  - intros Hstill. rewrite Hin in Hstill. apply andb_true_iff in Hstill.
    destruct Hstill as [Hvoice Hbelow]. split; [exact Hvoice |].
    rewrite Hcount, Hvoice. cbn [andb].
    destruct (_ >=? kSilenceSamples) eqn:E; [discriminate |].
    destruct (Z.lt_ge_cases
                (wrap64 (_silentSamplesCount s
                         + size (Pcm16.currentBuffer_of (Pcm16.int16Buffer_of playoutBuffer))))
                kSilenceSamples) as [H | H]; [exact H |].
    apply Z.geb_le in H. congruence.
Qed.

(** On a run: in the Voice state a block of one zero sample is handled by
    the branch of the blocks without voice and keeps the segment open, with
    the count of silence below the threshold. *)
Lemma zero_amplitude_is_silence_witness :
  let s := after_one_sample in
  let r := ProcessAudioBuffer s 0%float (zeros 1) in
  PrimFloat.eqb 0%float 0%float = true
  /\ r = silent_block s (Pcm16.currentBuffer_of (Pcm16.int16Buffer_of (zeros 1)))
  /\ _inVoiceSegment (fst r) = true
  /\ _silentSamplesCount (fst r) < kSilenceSamples.
Proof.
  cbv zeta. split; [reflexivity |].
  destruct (zero_amplitude_is_silence after_one_sample 0%float (zeros 1) eq_refl)
    as (Hr & _ & _ & Hstill).
  assert (Hin : _inVoiceSegment (fst (ProcessAudioBuffer after_one_sample 0%float (zeros 1)))
                = true) by (vm_compute; reflexivity).
  split; [exact Hr |]. split; [exact Hin | exact (proj2 (Hstill Hin))].
Defined.

(** C2 fails as stated: after one voiced block the segmenter is in the
    Voice state, and a block of one second of zero samples (16000 samples),
    whose average amplitude is zero, takes it to Silence. *)
Lemma zero_amplitude_ends_voice :
  let s := after_one_sample in
  PrimFloat.eqb 0%float 0%float = true
  /\ _inVoiceSegment s = true
  /\ size (Pcm16.int16Buffer_of (zeros 16000)) = 16000
  /\ _inVoiceSegment (fst (ProcessAudioBuffer s 0%float (zeros 16000))) = false.
Proof. vm_compute. repeat split. Qed.

(** C3, at the failing input. After a voiced block, fifty blocks of 160
    silent samples each (8000 samples, half a second at 16 kHz) end the
    segment: [_silentSamplesCount] grows by 320 per block, the byte length,
    and reaches 16000 with the fiftieth; one block of 8000 silent samples
    ends it alone. *)
Theorem half_second_of_silence_ends_segment :
  let s := after_one_sample in
  let quiet (n : nat) := repeat (0%float, zeros 160) n in
  _inVoiceSegment s = true
  /\ _silentSamplesCount s = 0
  /\ size (Pcm16.int16Buffer_of (zeros 160)) = 160
  /\ _inVoiceSegment (fst (feed s (quiet 49%nat))) = true
  /\ _silentSamplesCount (fst (feed s (quiet 49%nat))) = 15680
  /\ _inVoiceSegment (fst (feed s (quiet 50%nat))) = false
  /\ size (Pcm16.int16Buffer_of (zeros 8000)) = 8000
  /\ _inVoiceSegment (fst (ProcessAudioBuffer s 0%float (zeros 8000))) = false.
Proof. vm_compute. repeat split. Qed.

(** C4, as the code has it. When a segment ends with at least one second of
    audio accumulated (32000 bytes), one write is handed to the ring buffer:
    the oldest min(accumulated length, target size) bytes, stored when the
    ring buffer has room; the bytes past those stay accumulated.  When it
    ends with less, nothing is written and the fragment stays in the
    accumulator. *)
Theorem end_of_speech_flush (s : WhisperTranscriber) (avgAmplitude : float)
    (playoutBuffer : list byte) :
  _inVoiceSegment s = true ->
  voicePresent_of true avgAmplitude = false ->
  let currentBuffer := Pcm16.currentBuffer_of (Pcm16.int16Buffer_of playoutBuffer) in
  kSilenceSamples <= wrap64 (_silentSamplesCount s + size currentBuffer) ->
  let acc := _accumulatedByteBuffer s in
  let n := Z.min (size acc) kTargetSamples in
  let data := firstn (Z.to_nat n) acc in
  let fits := n <=? AudioRingBuffer.capacity (_audioBuffer s)
                    - AudioRingBuffer.availableToRead (_audioBuffer s) in
  let s' := fst (ProcessAudioBuffer s avgAmplitude playoutBuffer) in
  let writes := snd (ProcessAudioBuffer s avgAmplitude playoutBuffer) in
  _inVoiceSegment s' = false
  /\ (kSampleRate * 2 <= size acc ->
        writes = [mkWrite data fits]
        /\ size data = n
        /\ AudioRingBuffer.unread (_audioBuffer s')
           = (if fits then AudioRingBuffer.unread (_audioBuffer s) ++ data
              else AudioRingBuffer.unread (_audioBuffer s))
        /\ _accumulatedByteBuffer s' = skipn (Z.to_nat n) acc)
  /\ (size acc < kSampleRate * 2 ->
        writes = []
        /\ _audioBuffer s' = _audioBuffer s
        /\ _accumulatedByteBuffer s' = acc).
Proof.
  intros Hin Hquiet. cbv zeta. intros Hth.
  unfold ProcessAudioBuffer. rewrite Hin, Hquiet.
  pose proof (silent_block_spec s
                (Pcm16.currentBuffer_of (Pcm16.int16Buffer_of playoutBuffer))) as Hs.
  cbv zeta in Hs. destruct Hs as (Hv & _ & Hrun).
  apply Z.geb_le in Hth. rewrite Hth, Hin in Hv, Hrun. cbn [andb negb] in Hv, Hrun.
  rewrite Hrun. cbn [fst snd].
  set (s2 := set_inVoiceSegment _ false).
  pose proof (flush_end_of_speech_spec s2) as Hf. cbv zeta in Hf.
  change (_accumulatedByteBuffer s2) with (_accumulatedByteBuffer s) in Hf.
  change (_audioBuffer s2) with (_audioBuffer s) in Hf.
  destruct Hf as (Hlong & Hshort & Hin2 & _).
  split; [cbn; exact Hin2 |].
  split.
  - intros Hge. destruct (Hlong Hge) as (H1 & H2 & H3 & H4 & _).
    cbn [set_silentSamplesCount _audioBuffer _accumulatedByteBuffer].
    repeat split; assumption.
  - intros Hlt. rewrite (Hshort Hlt). cbn. repeat split.
Qed.

(** C4 fails as stated: a segment that ends with one sample (two bytes)
    accumulated writes nothing, and the two bytes are still in the
    accumulator afterwards, ahead of the bytes of the next voiced block. *)
Lemma short_fragment_is_kept :
  let s := after_one_sample in
  let ended := ProcessAudioBuffer s 0%float (zeros 8000) in
  let next := ProcessAudioBuffer (fst ended) 2%float [x02; x00] in
  _inVoiceSegment s = true
  /\ _accumulatedByteBuffer s = [x01; x00]
  /\ _inVoiceSegment (fst ended) = false
  /\ snd ended = []
  /\ _accumulatedByteBuffer (fst ended) = [x01; x00]
  /\ _accumulatedByteBuffer (fst next) = [x01; x00; x02; x00].
Proof. vm_compute. repeat split. Qed.

(** On a run: a voiced block of two samples met in the Silence state, with
    both counters at 2 from the segment before, opens a segment and leaves
    [_samplesSinceVoiceStart] at 4 and [_silentSamplesCount] at 0. *)
Lemma silence_to_voice_witness :
  let s := after_short_segment in
  let s' := fst (ProcessAudioBuffer s 1%float (ones 2)) in
  (_inVoiceSegment s = false
   /\ _samplesSinceVoiceStart s = 2
   /\ _silentSamplesCount s = 2)
  /\ PrimFloat.eqb 1%float 0%float = false
  /\ PrimFloat.ltb (PrimFloat.mul voiceStartThreshold 1%float) 1%float = true
  /\ _inVoiceSegment s' = true
  /\ _silentSamplesCount s' = 0
  /\ _samplesSinceVoiceStart s' = 4.
Proof.
  cbv zeta.
  assert (H1 : _inVoiceSegment after_short_segment = false) by (vm_compute; reflexivity).
  split; [split; [exact H1 | split; vm_compute; reflexivity] |].
  split; [reflexivity |]. split; [reflexivity |].
  destruct (silence_to_voice after_short_segment 1%float (ones 2)
              H1 eq_refl eq_refl) as (_ & _ & _ & _ & Hv & Hs & Hc).
  split; [exact Hv |]. split; [exact Hs |].
  rewrite Hc. vm_compute. reflexivity.
Defined.

(** On a run: two samples arriving with 383998 bytes accumulated cause a
    write of 384000 bytes, which the empty ring buffer stores, and leave the
    last sample accumulated. *)
Lemma continuous_speech_flush_witness :
  let s := before_target in
  let r := ProcessAudioBuffer s 1%float (ones 2) in
  voicePresent_of (_inVoiceSegment s) 1%float = true
  /\ kTargetSamples
     <= size (_accumulatedByteBuffer s
              ++ Pcm16.currentBuffer_of (Pcm16.int16Buffer_of (ones 2)))
  /\ map (fun w => (size (written w), accepted w)) (snd r) = [(384000, true)]
  /\ size (AudioRingBuffer.unread (_audioBuffer (fst r))) = 384000
  /\ _accumulatedByteBuffer (fst r) = [x01; x00]
  /\ _samplesSinceVoiceStart (fst r) = 2
  /\ _inVoiceSegment (fst r) = true.
Proof.
  cbv zeta.
  assert (H1 : voicePresent_of (_inVoiceSegment before_target) 1%float = true)
    by (vm_compute; reflexivity).
  assert (H2 : kTargetSamples
               <= size (_accumulatedByteBuffer before_target
                        ++ Pcm16.currentBuffer_of (Pcm16.int16Buffer_of (ones 2))))
    by (vm_compute; discriminate).
  split; [exact H1 |]. split; [exact H2 |].
  destruct (continuous_speech_flush before_target 1%float (ones 2) H1 H2)
    as (Hw & Hd & Hring & Hacc & _ & Hsince & Hin).
  split; [rewrite Hw; vm_compute; reflexivity |].
  split; [rewrite Hring; vm_compute; reflexivity |].
  split; [rewrite Hacc; vm_compute; reflexivity |].
  split; [rewrite Hsince; vm_compute; reflexivity | exact Hin].
Defined.

(** On a run: one second of voiced audio followed by 8000 silent samples
    is written to the ring buffer whole, 32000 bytes, and the accumulator is
    empty afterwards. *)
Lemma end_of_speech_flush_witness :
  let s := after_one_second in
  let quiet := zeros 8000 in
  let r := ProcessAudioBuffer s 0%float quiet in
  _inVoiceSegment s = true
  /\ voicePresent_of true 0%float = false
  /\ kSilenceSamples
     <= wrap64 (_silentSamplesCount s
                + size (Pcm16.currentBuffer_of (Pcm16.int16Buffer_of quiet)))
  /\ size (_accumulatedByteBuffer s) = 32000
  /\ _inVoiceSegment (fst r) = false
  /\ map (fun w => (size (written w), accepted w)) (snd r) = [(32000, true)]
  /\ size (AudioRingBuffer.unread (_audioBuffer (fst r))) = 32000
  /\ _accumulatedByteBuffer (fst r) = [].
Proof.
  cbv zeta.
  assert (H1 : _inVoiceSegment after_one_second = true) by (vm_compute; reflexivity).
  assert (H3 : kSilenceSamples
               <= wrap64 (_silentSamplesCount after_one_second
                          + size (Pcm16.currentBuffer_of
                                    (Pcm16.int16Buffer_of (zeros 8000)))))
    by (vm_compute; discriminate).
  assert (H4 : size (_accumulatedByteBuffer after_one_second) = 32000)
    by (vm_compute; reflexivity).
  split; [exact H1 |]. split; [reflexivity |]. split; [exact H3 |]. split; [exact H4 |].
  destruct (end_of_speech_flush after_one_second 0%float (zeros 8000)
              H1 eq_refl H3) as (Hin & Hlong & _).
  split; [exact Hin |].
  destruct Hlong as (Hw & _ & Hring & Hacc);
    [rewrite H4; vm_compute; discriminate |].
  split; [rewrite Hw; vm_compute; reflexivity |].
  split; [rewrite Hring; vm_compute; reflexivity |].
  rewrite Hacc. vm_compute. reflexivity.
Defined.

End SegmenterFacts.

(** ** The overflow policy *)

Module OverflowFacts.
Import Segmenter.

Lemma handleOverflow_spec (s : WhisperTranscriber) :
  let c := wrap64 (_overflowCount s + 1) in
  _audioBuffer (handleOverflow s)
  = (if c >? 10
     then AudioRingBuffer.increaseWith (_audioBuffer s) kRingBufferSizeIncrement
     else _audioBuffer s)
  /\ _overflowCount (handleOverflow s) = (if c >? 10 then 0 else c).
Proof.
  cbv zeta. unfold handleOverflow. cbn [_overflowCount set_overflowCount].
  destruct (_ >? 10); cbn; split; reflexivity.
Qed.

(** Below the threshold a call only counts. *)
Lemma handleOverflow_counts (s : WhisperTranscriber) (k : nat) :
  _overflowCount s = 0 ->
  (k <= 10)%nat ->
  AudioRingBuffer.capacity (_audioBuffer (Nat.iter k handleOverflow s))
  = AudioRingBuffer.capacity (_audioBuffer s)
  /\ AudioRingBuffer.unread (_audioBuffer (Nat.iter k handleOverflow s))
     = AudioRingBuffer.unread (_audioBuffer s)
  /\ _overflowCount (Nat.iter k handleOverflow s) = Z.of_nat k.
Proof.
  intros H0. induction k as [| k IH]; intros Hk.
  - cbn. repeat split. exact H0.
  - destruct IH as (Hcap & Hun & Hcnt); [lia |].
    rewrite !Nat.iter_succ.
    destruct (handleOverflow_spec (Nat.iter k handleOverflow s)) as [Hb Hc].
    rewrite Hb, Hc, Hcnt.
    assert (Hw : wrap64 (Z.of_nat k + 1) = Z.of_nat k + 1).
    { unfold wrap64, size_max. apply Z.mod_small. lia. }
    rewrite Hw.
    assert (E : (Z.of_nat k + 1 >? 10) = false).
    { rewrite Z.gtb_ltb. apply Z.ltb_ge. lia. }
    rewrite E. repeat split; try assumption. lia.
Qed.

(** At a count of ten the next call grows the ring buffer. *)
Lemma handleOverflow_at_ten (s : WhisperTranscriber) :
  _overflowCount s = 10 ->
  _audioBuffer (handleOverflow s)
  = AudioRingBuffer.increaseWith (_audioBuffer s) kRingBufferSizeIncrement
  /\ _overflowCount (handleOverflow s) = 0.
Proof.
  intros H. destruct (handleOverflow_spec s) as [Hb Hc].
  rewrite H in Hb, Hc. split; assumption.
Qed.

Lemma handleOverflow_eleventh (s : WhisperTranscriber) :
  _overflowCount s = 0 ->
  AudioRingBuffer.capacity (_audioBuffer (Nat.iter 11 handleOverflow s))
  = AudioRingBuffer.capacity (_audioBuffer s) + kRingBufferSizeIncrement
  /\ AudioRingBuffer.unread (_audioBuffer (Nat.iter 11 handleOverflow s))
     = AudioRingBuffer.unread (_audioBuffer s)
  /\ _overflowCount (Nat.iter 11 handleOverflow s) = 0.
Proof.
  intros H0. rewrite (Nat.iter_succ 10).
  destruct (handleOverflow_counts s 10 H0 (le_n 10)) as (Hcap & Hun & Hcnt).
  revert Hcap Hun Hcnt. generalize (Nat.iter 10 handleOverflow s).
  intros s10 Hcap Hun Hcnt.
  destruct (handleOverflow_at_ten s10 Hcnt) as [Hb Hc].
  rewrite Hb, Hc.
  cbn [AudioRingBuffer.increaseWith AudioRingBuffer.capacity AudioRingBuffer.unread].
  rewrite Hcap, Hun. repeat split.
Qed.

(** The effect only depends on the ring buffer and the count it starts
    from. *)
Lemma ring_effect_from (s0 s s' : WhisperTranscriber) (writes : list ring_write) :
  _audioBuffer s = _audioBuffer s0 ->
  _overflowCount s = _overflowCount s0 ->
  ring_effect s s' writes -> ring_effect s0 s' writes.
Proof.
  intros Hb Hc. unfold ring_effect.
  destruct (handleOverflow_spec s) as [Hb1 Hc1].
  destruct (handleOverflow_spec s0) as [Hb0 Hc0].
  rewrite Hb1, Hc1, Hb0, Hc0, Hb, Hc. tauto.
Qed.

Lemma keep_remainder_frame (s : WhisperTranscriber) (n : Z) :
  _audioBuffer (keep_remainder s n) = _audioBuffer s
  /\ _overflowCount (keep_remainder s n) = _overflowCount s.
Proof. unfold keep_remainder. destruct (_ >? n); split; reflexivity. Qed.

Lemma write_or_overflow_ring (s : WhisperTranscriber) (n : Z) :
  ring_effect s (fst (write_or_overflow s n)) [snd (write_or_overflow s n)].
Proof.
  unfold ring_effect, write_or_overflow.
  destruct (AudioRingBuffer.write (_audioBuffer s)
              (firstn (Z.to_nat n) (_accumulatedByteBuffer s))) as [[|] rb] eqn:E;
    cbn [fst snd].
  - right; left. eexists. split; [reflexivity |]. cbn. rewrite E. repeat split.
  - right; right. eexists. split; [reflexivity |]. repeat split.
Qed.

Lemma keep_remainder_ring (s s1 : WhisperTranscriber) (n : Z) (ws : list ring_write) :
  ring_effect s s1 ws -> ring_effect s (keep_remainder s1 n) ws.
Proof.
  unfold ring_effect. destruct (keep_remainder_frame s1 n) as [Hb Hc].
  rewrite Hb, Hc. tauto.
Qed.

Lemma ring_effect_none (s : WhisperTranscriber) : ring_effect s s [].
Proof. left. repeat split. Qed.

Lemma flush_continuous_ring (s : WhisperTranscriber) :
  ring_effect s (fst (flush_continuous s)) (snd (flush_continuous s)).
Proof.
  unfold flush_continuous. destruct (_ >=? kTargetSamples).
  - pose proof (write_or_overflow_ring s kTargetSamples) as H.
    destruct (write_or_overflow s kTargetSamples) as [s1 w]. cbn [fst snd] in *.
    apply keep_remainder_ring. exact H.
  - apply ring_effect_none.
Qed.

Lemma flush_end_of_speech_ring (s : WhisperTranscriber) :
  ring_effect s (fst (flush_end_of_speech s)) (snd (flush_end_of_speech s)).
Proof.
  unfold flush_end_of_speech. destruct (_ || _).
  - pose proof (write_or_overflow_ring s
                  (Z.min (size (_accumulatedByteBuffer s)) kTargetSamples)) as H.
    destruct (write_or_overflow s _) as [s1 w]. cbn [fst snd] in *.
    apply keep_remainder_ring. exact H.
  - apply ring_effect_none.
Qed.

Lemma ProcessAudioBuffer_ring (s : WhisperTranscriber) (avgAmplitude : float)
    (playoutBuffer : list byte) :
  ring_effect s (fst (ProcessAudioBuffer s avgAmplitude playoutBuffer))
    (snd (ProcessAudioBuffer s avgAmplitude playoutBuffer)).
Proof.
  unfold ProcessAudioBuffer. destruct (voicePresent_of _ _).
  - apply (ring_effect_from s
             (accumulate (enter_voice s)
                (Pcm16.currentBuffer_of (Pcm16.int16Buffer_of playoutBuffer)))).
    + unfold accumulate, enter_voice. destruct (_inVoiceSegment s); reflexivity.
    + unfold accumulate, enter_voice. destruct (_inVoiceSegment s); reflexivity.
    + apply flush_continuous_ring.
  - unfold silent_block. destruct (_ && _).
    + match goal with
      | |- context [flush_end_of_speech ?t] =>
          pose proof (ring_effect_from s t _ _ eq_refl eq_refl
                        (flush_end_of_speech_ring t)) as H;
          destruct (flush_end_of_speech t) as [s3 ws]
      end.
      cbn [fst snd] in *. exact H.
    + cbn [fst snd]. left. repeat split.
Qed.

End OverflowFacts.

(** ** The transcription adapter *)

Module AdapterFacts.
Import Scenario.

Section WithEngine.

Variable whisper_full : list float -> Z.
Variable segment_texts : list float -> list (option string).
Variable strip_annotations : string -> string.

Local Abbreviation Transcribe :=
  (TranscribeAudioNonBlocking whisper_full segment_texts strip_annotations).

(** The validation loop fails exactly on the blocks that hold an invalid
    sample. *)
Lemma validInput_of_false (pcmf32 : list float) :
  validInput_of pcmf32 = false
  <-> exists sample, In sample pcmf32 /\ invalid_sample sample = true.
Proof.
  induction pcmf32 as [| x rest IH]; cbn [validInput_of].
  - split; [discriminate | intros (sample & [] & _)].
  - destruct (invalid_sample x) eqn:E.
    + split; [| reflexivity]. intros _. exists x. split; [left; reflexivity | exact E].
    + rewrite IH. split.
      * intros (sample & Hin & Hbad). exists sample. split; [right; exact Hin | exact Hbad].
      * intros (sample & [Heq | Hin] & Hbad).
        -- subst sample. congruence.
        -- exists sample. split; assumption.
Qed.

(** A call touches nothing but the guard. *)
Lemma Transcribe_frame (s : WhisperTranscriber) (pcmf32 : list float) :
  exists guard, snd (fst (Transcribe s pcmf32)) = set_processingActive s guard.
Proof.
  unfold TranscribeAudioNonBlocking.
  destruct (_processingActive s) eqn:Eg.
  - exists true. destruct s; cbn in *. subst. reflexivity.
  - cbn [_whisperContext set_processingActive].
    repeat match goal with
      | |- context [if ?c then _ else _] => destruct c
      end;
      cbn [fst snd]; solve [exists false; reflexivity | exists true; reflexivity].
Qed.

(** The engine runs on a block that passes every check, and the guard is
    clear again afterwards whatever the engine answers. *)
Lemma Transcribe_valid (s : WhisperTranscriber) (pcmf32 : list float) :
  _processingActive s = false ->
  _whisperContext s = true ->
  kSampleRate <= size pcmf32 <= kTargetSamples ->
  validInput_of pcmf32 = true ->
  exists forwarded,
    Transcribe s pcmf32
    = (whisper_full pcmf32 =? 0, set_processingActive s false,
       WhisperFull pcmf32 :: forwarded)
    /\ existsb is_engine_call forwarded = false.
Proof.
  intros Hg Hctx [Hlo Hhi] Hvalid. unfold TranscribeAudioNonBlocking.
  rewrite Hg. cbn [_whisperContext set_processingActive]. rewrite Hctx, Hvalid.
  cbn [negb].
  assert (E0 : (size pcmf32 =? 0) = false)
    by (apply Z.eqb_neq; unfold kSampleRate in Hlo; lia).
  assert (E1 : (size pcmf32 <? kSampleRate) = false) by (apply Z.ltb_ge; exact Hlo).
  assert (E2 : (size pcmf32 >? kTargetSamples) = false)
    by (rewrite Z.gtb_ltb; apply Z.ltb_ge; exact Hhi).
  rewrite E0, E1, E2. cbn [orb].
  eexists. split; [reflexivity |].
  destruct (whisper_full pcmf32 =? 0); [| reflexivity].
  unfold forward.
  destruct (negb (is_empty _)); [| reflexivity].
  destruct (_speech_audio_device _) as [[|] |]; try reflexivity;
    destruct (negb (is_empty _)); reflexivity.
Qed.

(** C7. A call that finds the guard set returns false at once: the object
    is as it was and nothing happened, so the engine was not invoked; a task
    that runs meanwhile ends the same way.  A call that finds the guard
    clear takes it, and the guard is clear again when the call returns, with
    any block and any answer of the engine. *)
Theorem single_flight_guard (s : WhisperTranscriber) (pcmf32 : list float) :
  (_processingActive s = true ->
     Transcribe s pcmf32 = (false, s, [])
     /\ forall localAudioBuffer : list byte,
          transcription_task whisper_full segment_texts strip_annotations
            s localAudioBuffer = (s, []))
  /\ (_processingActive s = false ->
        _processingActive (snd (fst (Transcribe s pcmf32))) = false).
Proof.
  split; intros Hg.
  - assert (Hbusy : forall block, Transcribe s block = (false, s, []))
      by (intros block; unfold TranscribeAudioNonBlocking; rewrite Hg; reflexivity).
    split; [apply Hbusy |].
    intros localAudioBuffer. unfold transcription_task.
    destruct (_ && _); [| reflexivity].
    destruct (negb _); [reflexivity |].
    rewrite Hbusy. reflexivity.
  - unfold TranscribeAudioNonBlocking. rewrite Hg.
    cbn [_whisperContext set_processingActive].
    destruct (_whisperContext s); cbn [negb]; [| reflexivity].
    repeat match goal with
      | |- context [if ?c then _ else _] => destruct c
      end; reflexivity.
Qed.

(** C8. A block with fewer than 16000 or more than 384000 samples, or with
    a sample that is NaN or larger than 1 in absolute value, is rejected:
    the call returns false, nothing happens (the engine is not invoked), and
    a guard that was clear is clear afterwards. *)
Theorem rejects_malformed_block (s : WhisperTranscriber) (pcmf32 : list float) :
  size pcmf32 < 16000 \/ 384000 < size pcmf32
  \/ (exists sample, In sample pcmf32
                     /\ (PrimFloat.is_nan sample = true
                         \/ PrimFloat.ltb 1%float (PrimFloat.abs sample) = true)) ->
  exists s', Transcribe s pcmf32 = (false, s', [])
             /\ (_processingActive s = false -> _processingActive s' = false).
Proof.
  intros Hbad. unfold TranscribeAudioNonBlocking.
  destruct (_processingActive s) eqn:Hg.
  { exists s. split; [reflexivity | discriminate]. }
  cbn [_whisperContext set_processingActive].
  destruct (_whisperContext s); cbn [negb];
    [| eexists; split; [reflexivity | reflexivity]].
  destruct (size pcmf32 =? 0); [eexists; split; reflexivity |].
  destruct ((size pcmf32 <? kSampleRate) || (size pcmf32 >? kTargetSamples)) eqn:Esz;
    [eexists; split; reflexivity |].
  apply orb_false_iff in Esz. destruct Esz as [Elo Ehi].
  apply Z.ltb_ge in Elo. rewrite Z.gtb_ltb in Ehi. apply Z.ltb_ge in Ehi.
  unfold kTargetSamples, kSampleRate in Elo, Ehi.
  destruct Hbad as [H | [H | (sample & Hin & Hs)]]; [lia | lia |].
  assert (Hv : validInput_of pcmf32 = false).
  { apply validInput_of_false. exists sample. split; [exact Hin |].
    unfold invalid_sample. unfold PrimFloat.is_nan in Hs.
    apply orb_true_iff. exact Hs. }
  rewrite Hv. cbn [negb]. eexists; split; reflexivity.
Qed.

End WithEngine.

(** A task touches nothing but the guard either. *)
Lemma transcription_task_frame (whisper_full : list float -> Z)
    (segment_texts : list float -> list (option string))
    (strip_annotations : string -> string)
    (s : WhisperTranscriber) (localAudioBuffer : list byte) :
  exists guard,
    fst (transcription_task whisper_full segment_texts strip_annotations s localAudioBuffer)
    = set_processingActive s guard.
Proof.
  unfold transcription_task.
  assert (Hid : s = set_processingActive s (_processingActive s)) by (destruct s; reflexivity).
  destruct (_ && _); [| exists (_processingActive s); exact Hid].
  destruct (negb _); [exists (_processingActive s); exact Hid |].
  pose proof (Transcribe_frame whisper_full segment_texts strip_annotations s
                (Pcm16.pcmf32_of localAudioBuffer)) as [guard H].
  destruct (TranscribeAudioNonBlocking _ _ _ _ _) as [[r s1] evs].
  exists guard. exact H.
Qed.

(** On a run: a call and a task on a busy adapter change nothing and reach
    no engine; calls on an idle one leave the guard clear, whether the engine
    fails or succeeds. *)
Lemma single_flight_guard_witness :
  let busy := set_processingActive (construct (Some false) true) true in
  let idle := construct (Some false) true in
  (_processingActive busy = true
   /\ TranscribeAudioNonBlocking working_engine hello_text keep_text busy one_second
      = (false, busy, [])
   /\ transcription_task working_engine hello_text keep_text busy (ones 16000)
      = (busy, []))
  /\ (_processingActive idle = false
      /\ _processingActive
           (snd (fst (TranscribeAudioNonBlocking failing_engine no_text keep_text
                        idle one_second))) = false
      /\ _processingActive
           (snd (fst (TranscribeAudioNonBlocking working_engine hello_text keep_text
                        idle one_second))) = false).
Proof.
  cbv zeta. split.
  - split; [reflexivity |].
    destruct (proj1 (single_flight_guard working_engine hello_text keep_text
                       (set_processingActive (construct (Some false) true) true)
                       one_second) eq_refl) as [Hcall Htask].
    split; [exact Hcall | apply Htask].
  - split; [reflexivity |]. split.
    + apply (proj2 (single_flight_guard failing_engine no_text keep_text
                      (construct (Some false) true) one_second)).
      reflexivity.
    + apply (proj2 (single_flight_guard working_engine hello_text keep_text
                      (construct (Some false) true) one_second)).
      reflexivity.
Defined.

(** On a run: one second of samples whose last one is NaN is rejected. *)
Lemma rejects_malformed_block_witness :
  let idle := construct (Some false) true in
  let pcmf32 := repeat 0.5%float (Z.to_nat 15999) ++ [PrimFloat.nan] in
  size pcmf32 = 16000
  /\ PrimFloat.is_nan PrimFloat.nan = true
  /\ exists s', TranscribeAudioNonBlocking working_engine hello_text keep_text idle pcmf32
                = (false, s', [])
                /\ (_processingActive idle = false -> _processingActive s' = false).
Proof.
  cbv zeta. split; [vm_compute; reflexivity |]. split; [reflexivity |].
  apply (rejects_malformed_block working_engine hello_text keep_text).
  right. right. exists PrimFloat.nan. split.
  - apply in_or_app. right. left. reflexivity.
  - left. reflexivity.
Defined.

End AdapterFacts.

(** ** The consumer thread *)

Module ConsumerFacts.
Import Consumer.

(** With the flag cleared the loop of [RunProcessingThread] does not run. *)
Lemma processing_loop_stopped (fuel : nat) (s : WhisperTranscriber) :
  _running s = false -> processing_loop fuel s = Some s.
Proof. intros H. destruct fuel; cbn; rewrite H; reflexivity. Qed.

(** One round empties the ring buffer, so the loop ends by itself. *)
Lemma processing_loop_terminates (fuel : nat) (s : WhisperTranscriber) :
  exists s', processing_loop (S fuel) s = Some s'.
Proof.
  cbn [processing_loop].
  destruct (_running s && _) eqn:E; [| eexists; reflexivity].
  unfold AudioRingBuffer.read.
  destruct (AudioRingBuffer.availableToRead (_audioBuffer s) =? 0) eqn:E0.
  - apply andb_true_iff in E. destruct E as [_ E].
    apply Z.eqb_eq in E0. rewrite E0 in E. discriminate.
  - cbn [set_audioBuffer set_task_queue_pool].
    unfold AudioRingBuffer.availableToRead at 1 2. unfold size.
    rewrite Nat2Z.id, skipn_all.
    destruct fuel; cbn; rewrite andb_false_r; eexists; reflexivity.
Qed.

(** The loop reads from the ring buffer and never resizes it. *)
Lemma processing_loop_capacity (fuel : nat) (s s' : WhisperTranscriber) :
  processing_loop fuel s = Some s' ->
  AudioRingBuffer.capacity (_audioBuffer s') = AudioRingBuffer.capacity (_audioBuffer s).
Proof.
  revert s. induction fuel as [| fuel IH]; intros s; cbn [processing_loop];
    destruct (_running s && _); try discriminate;
    try (intros H; injection H as <-; reflexivity).
  unfold AudioRingBuffer.read.
  destruct (AudioRingBuffer.availableToRead (_audioBuffer s) =? 0);
    intros H; apply IH in H; rewrite H; reflexivity.
Qed.

(** Every call of [RunProcessingThread] that returns, returns true. *)
Lemma RunProcessingThread_true (fuel : nat) (s s' : WhisperTranscriber) (b : bool) :
  RunProcessingThread fuel s = Some (b, s') -> b = true.
Proof.
  unfold RunProcessingThread. destruct (processing_loop fuel s); [| discriminate].
  intros H. injection H as <- _. reflexivity.
Qed.

(** C10, on the code. The thread body never exits: each call of
    [RunProcessingThread] returns, and returns true, so the loop
    [while (RunProcessingThread()) {}] goes round again, also once
    [_running] is false, when each call returns at once; [Stop], which
    clears the flag and joins the thread, does not return. *)
Theorem consumer_thread_never_exits :
  (forall (fuel : nat) (s : WhisperTranscriber),
      exists s', RunProcessingThread (S fuel) s = Some (true, s'))
  /\ (forall (fuel : nat) (s : WhisperTranscriber),
        RunProcessingThread fuel (set_running s false)
        = Some (true, set_running s false))
  /\ (forall (rounds fuel : nat) (s : WhisperTranscriber),
        exists s', thread_body rounds fuel s = StillLooping s')
  /\ (forall (rounds fuel : nat) (s : WhisperTranscriber),
        Stop rounds fuel (set_running s true) = None).
Proof.
  assert (Hloop : forall rounds fuel s, exists s', thread_body rounds fuel s = StillLooping s').
  { induction rounds as [| rounds IH]; intros fuel s; cbn [thread_body].
    - eexists; reflexivity.
    - destruct (RunProcessingThread fuel s) as [[b s1] |] eqn:E; [| eexists; reflexivity].
      apply RunProcessingThread_true in E. subst b. apply IH. }
  split; [| split; [| split]].
  - intros fuel s. unfold RunProcessingThread.
    destruct (processing_loop_terminates fuel s) as [s' H]. rewrite H.
    eexists; reflexivity.
  - intros fuel s. unfold RunProcessingThread.
    rewrite processing_loop_stopped by reflexivity. reflexivity.
  - exact Hloop.
  - intros rounds fuel s. unfold Stop. cbn [_running set_running].
    destruct (Hloop rounds fuel
                (set_running (set_running s true) false)) as [s' H].
    rewrite H. reflexivity.
Qed.

End ConsumerFacts.

(** * Further properties *)

(** ** Blocks, samples and bytes *)

Module Pcm16More.
Import Pcm16 Pcm16Facts.

(** Induction over a block two bytes at a time. *)
Lemma block_ind (P : list byte -> Prop) :
  P [] ->
  (forall lo, P [lo]) ->
  (forall lo hi rest, P rest -> P (lo :: hi :: rest)) ->
  forall buf, P buf.
Proof.
  intros H0 H1 H2.
  assert (H : forall buf, P buf /\ forall b, P (b :: buf)).
  { induction buf as [| x buf [IH1 IH2]].
    - split; [exact H0 | exact H1].
    - split; [apply IH2 |]. intros b. apply H2. exact IH1. }
  intros buf. apply H.
Qed.

Lemma byte_to_Z_of_Z (z : Z) : byte_to_Z (Z_to_byte z) = z mod 256.
Proof.
  unfold byte_to_Z, Z_to_byte.
  assert (Hr : 0 <= z mod 256 < 256) by (apply Z.mod_pos_bound; lia).
  pose proof (Byte.to_of_N_option_map (Z.to_N (z mod 256))) as H.
  assert (Hle : N.leb (Z.to_N (z mod 256)) 255 = true) by (apply N.leb_le; lia).
  rewrite Hle in H.
  destruct (Byte.of_N (Z.to_N (z mod 256))) as [b |]; [| discriminate].
  cbn in H. injection H as H. rewrite H. lia.
Qed.

(** A sample in range is read back from the two bytes written for it. *)
Lemma sample_of_its_bytes (sample : Z) :
  -32768 <= sample < 32768 ->
  sample_of_bytes (Z_to_byte (Z.land sample 255))
    (Z_to_byte (Z.land (Z.shiftr sample 8) 255)) = sample.
Proof.
  intros Hs. rewrite sample_of_bytes_le_signed16. unfold le_signed16.
  rewrite !byte_to_Z_of_Z.
  assert (H255 : 255 = Z.ones 8) by reflexivity.
  rewrite H255, !Z.land_ones by lia. rewrite Z.shiftr_div_pow2 by lia.
  change (2 ^ 8) with 256. rewrite !Z.mod_mod by lia.
  destruct (_ <? 32768) eqn:E;
    [apply Z.ltb_lt in E | apply Z.ltb_ge in E];
    Z.div_mod_to_equations; lia.
Qed.

(** The two conversion loops of [ProcessAudioBuffer], one after the other,
    in the model, where the byte read past an odd-sized block is zero. *)
Lemma currentBuffer_of_int16Buffer_of (buf : list byte) :
  currentBuffer_of (int16Buffer_of buf)
  = if Nat.even (List.length buf) then buf else buf ++ [x00].
Proof.
  induction buf as [| lo | lo hi rest IH] using block_ind.
  - reflexivity.
  - pose proof (bytes_of_sample lo x00) as H. cbn [int16Buffer_of]. rewrite H.
    reflexivity.
  - cbn [int16Buffer_of currentBuffer_of].
    pose proof (bytes_of_sample lo hi) as H. cbn [currentBuffer_of] in H.
    injection H as H1 H2. rewrite H1, H2, IH.
    change (Nat.even (List.length (lo :: hi :: rest)))
      with (Nat.even (List.length rest)).
    destruct (Nat.even (List.length rest)); reflexivity.
Qed.

(** X1. Turning a block into samples and the samples back into bytes keeps
    the bytes of the block, in order: a block of even size comes back
    unchanged, and a block of odd size comes back followed by one byte
    more, the one the first loop read past its end. *)
Theorem block_bytes_roundtrip (buf : list byte) :
  firstn (List.length buf) (currentBuffer_of (int16Buffer_of buf)) = buf
  /\ size (currentBuffer_of (int16Buffer_of buf)) = 2 * ((size buf + 1) / 2)
  /\ (if Nat.even (List.length buf)
      then currentBuffer_of (int16Buffer_of buf) = buf
      else size (currentBuffer_of (int16Buffer_of buf)) = size buf + 1).
Proof.
  rewrite currentBuffer_of_int16Buffer_of.
  assert (Hsize : size (if Nat.even (List.length buf) then buf else buf ++ [x00])
                  = 2 * ((size buf + 1) / 2)).
  { rewrite <- currentBuffer_of_int16Buffer_of. apply currentBuffer_size. }
  split; [| split; [exact Hsize |]].
  - destruct (Nat.even (List.length buf)); [apply firstn_all |].
    rewrite firstn_app, firstn_all, Nat.sub_diag. apply app_nil_r.
  - destruct (Nat.even (List.length buf)); [reflexivity |].
    unfold size. rewrite length_app, Nat2Z.inj_add. reflexivity.
Qed.

(** X2. Samples within the 16-bit range survive being written as bytes and
    read back. *)
Theorem samples_roundtrip (samples : list Z) :
  Forall (fun sample => -32768 <= sample < 32768) samples ->
  int16Buffer_of (currentBuffer_of samples) = samples.
Proof.
  induction 1 as [| sample rest Hs _ IH]; [reflexivity |].
  cbn [currentBuffer_of int16Buffer_of].
  rewrite sample_of_its_bytes by exact Hs. rewrite IH. reflexivity.
Qed.

(** On the extreme samples and their neighbours. *)
Lemma samples_roundtrip_witness :
  Forall (fun sample => -32768 <= sample < 32768) [-32768; -1; 0; 1; 255; 256; 32767]
  /\ int16Buffer_of (currentBuffer_of [-32768; -1; 0; 1; 255; 256; 32767])
     = [-32768; -1; 0; 1; 255; 256; 32767].
Proof.
  assert (H : Forall (fun sample => -32768 <= sample < 32768)
                [-32768; -1; 0; 1; 255; 256; 32767])
    by (repeat constructor; lia).
  split; [exact H | exact (samples_roundtrip _ H)].
Defined.

(** A normalized sample is never rejected by the adapter and lies between
    -1 and 1. *)
Lemma normalized_sample_valid (lo hi : byte) :
  invalid_sample (normalize (sample_of_bytes lo hi)) = false
  /\ PrimFloat.leb (-1)%float (normalize (sample_of_bytes lo hi)) = true
  /\ PrimFloat.ltb (normalize (sample_of_bytes lo hi)) 1%float = true.
Proof.
  assert (H : (negb (invalid_sample (normalize (sample_of_bytes lo hi)))
               && PrimFloat.leb (-1)%float (normalize (sample_of_bytes lo hi))
               && PrimFloat.ltb (normalize (sample_of_bytes lo hi)) 1%float) = true).
  { revert lo hi. apply byte_pairs_check. vm_compute. reflexivity. }
  apply andb_true_iff in H. destruct H as [H H3].
  apply andb_true_iff in H. destruct H as [H1 H2].
  apply negb_true_iff in H1. repeat split; assumption.
Qed.

Lemma pcmf32_of_size (localAudioBuffer : list byte) :
  size (pcmf32_of localAudioBuffer) = (size localAudioBuffer + 1) / 2.
Proof.
  unfold size.
  induction localAudioBuffer as [| lo | lo hi rest IH] using block_ind;
    [reflexivity | reflexivity |].
  cbn [pcmf32_of List.length]. rewrite !Nat2Z.inj_succ, IH.
  replace (Z.succ (Z.succ (Z.of_nat (List.length rest))) + 1)
    with (Z.of_nat (List.length rest) + 1 + 1 * 2) by lia.
  rewrite Z.div_add by lia. lia.
Qed.

Lemma pcmf32_of_valid (localAudioBuffer : list byte) :
  validInput_of (pcmf32_of localAudioBuffer) = true.
Proof.
  induction localAudioBuffer as [| lo | lo hi rest IH] using block_ind.
  - reflexivity.
  - destruct (normalized_sample_valid lo x00) as (H1 & _).
    cbn [pcmf32_of validInput_of]. rewrite H1. reflexivity.
  - destruct (normalized_sample_valid lo hi) as (H1 & _).
    cbn [pcmf32_of validInput_of]. rewrite H1. exact IH.
Qed.

(** X3. Whatever the block, the samples a task converts it to are one per
    two bytes, all at least -1 and below 1, and pass the adapter's
    validation loop. *)
Theorem converted_block_is_valid (localAudioBuffer : list byte) :
  size (pcmf32_of localAudioBuffer) = (size localAudioBuffer + 1) / 2
  /\ Forall (fun sample => PrimFloat.leb (-1)%float sample = true
                           /\ PrimFloat.ltb sample 1%float = true)
       (pcmf32_of localAudioBuffer)
  /\ validInput_of (pcmf32_of localAudioBuffer) = true.
Proof.
  split; [apply pcmf32_of_size |]. split; [| apply pcmf32_of_valid].
  induction localAudioBuffer as [| lo | lo hi rest IH] using block_ind.
  - constructor.
  - destruct (normalized_sample_valid lo x00) as (_ & H2 & H3).
    cbn [pcmf32_of]. constructor; [split; assumption | constructor].
  - destruct (normalized_sample_valid lo hi) as (_ & H2 & H3).
    cbn [pcmf32_of]. constructor; [split; assumption | exact IH].
Qed.

(** X4. For every amplitude that is a 16-bit sample value the two thresholds
    decide alike: the block counts as voice exactly when the amplitude is
    positive, in the Silence state and in the Voice state. *)
Theorem thresholds_agree_on_samples (lo hi : byte) :
  let amplitude := le_signed16 lo hi in
  Segmenter.voicePresent_of false (float_of_int16 amplitude) = (0 <? amplitude)
  /\ Segmenter.voicePresent_of true (float_of_int16 amplitude) = (0 <? amplitude).
Proof.
  cbv zeta.
  assert (H : (Bool.eqb (Segmenter.voicePresent_of false (float_of_int16 (le_signed16 lo hi)))
                        (0 <? le_signed16 lo hi)
               && Bool.eqb (Segmenter.voicePresent_of true (float_of_int16 (le_signed16 lo hi)))
                           (0 <? le_signed16 lo hi)) = true).
  { revert lo hi. apply byte_pairs_check. vm_compute. reflexivity. }
  apply andb_true_iff in H. destruct H as [H1 H2].
  apply Bool.eqb_prop in H1. apply Bool.eqb_prop in H2. split; assumption.
Qed.

End Pcm16More.

(** ** The segmenter in closed form *)

Module SegmenterMore.
Import Segmenter SegmenterFacts Pipeline.

Lemma write_or_overflow_eq (s : WhisperTranscriber) (n : Z) :
  let data := firstn (Z.to_nat n) (_accumulatedByteBuffer s) in
  write_or_overflow s n
  = if fits s data
    then (set_audioBuffer s
            (AudioRingBuffer.mk (AudioRingBuffer.capacity (_audioBuffer s))
               (AudioRingBuffer.unread (_audioBuffer s) ++ data)),
          mkWrite data true)
    else (handleOverflow s, mkWrite data false).
Proof.
  cbv zeta. unfold write_or_overflow, AudioRingBuffer.write, fits.
  destruct (_ <=? _); reflexivity.
Qed.

Lemma keep_remainder_eq (s : WhisperTranscriber) (n : Z) :
  0 <= n <= size (_accumulatedByteBuffer s) ->
  keep_remainder s n
  = set_samplesSinceVoiceStart
      (set_accumulatedByteBuffer s (skipn (Z.to_nat n) (_accumulatedByteBuffer s)))
      (size (_accumulatedByteBuffer s) - n).
Proof.
  intros Hn. unfold keep_remainder.
  destruct (size (_accumulatedByteBuffer s) >? n) eqn:Hgt.
  - cbv zeta. rewrite size_skipn by exact Hn. reflexivity.
  - rewrite Z.gtb_ltb in Hgt. apply Z.ltb_ge in Hgt.
    assert (Heq : size (_accumulatedByteBuffer s) = n) by lia.
    assert (Hlen : List.length (_accumulatedByteBuffer s) = Z.to_nat n)
      by (unfold size in Heq; lia).
    rewrite <- Hlen, skipn_all, Heq, Z.sub_diag. reflexivity.
Qed.

(** A flush of the first [n] accumulated bytes, whatever the ring buffer
    answers. *)
Lemma flush_eq (s : WhisperTranscriber) (n : Z) :
  0 <= n <= size (_accumulatedByteBuffer s) ->
  let data := firstn (Z.to_nat n) (_accumulatedByteBuffer s) in
  let r := write_or_overflow s n in
  (keep_remainder (fst r) n, [snd r])
  = (mkTranscriber (_speech_audio_device s) (_task_queue_pool s) (_whisperContext s)
       (ring_after s data) (_running s) (_processingActive s)
       (skipn (Z.to_nat n) (_accumulatedByteBuffer s)) (count_after s data)
       (_inVoiceSegment s) (size (_accumulatedByteBuffer s) - n)
       (_silentSamplesCount s),
     [mkWrite data (fits s data)]).
Proof.
  intros Hn. cbv zeta. rewrite write_or_overflow_eq. cbv zeta.
  unfold ring_after, count_after.
  destruct (fits s _); cbn [fst snd].
  - rewrite keep_remainder_eq by exact Hn. reflexivity.
  - rewrite keep_remainder_eq.
    + unfold handleOverflow. cbn [_overflowCount set_overflowCount].
      destruct (_ >? 10); reflexivity.
    + unfold handleOverflow. cbn [_overflowCount set_overflowCount].
      destruct (_ >? 10); exact Hn.
Qed.

(** A block that counts as voice. *)
Lemma voiced_block_eq (s : WhisperTranscriber) (avgAmplitude : float)
    (playoutBuffer : list byte) :
  voicePresent_of (_inVoiceSegment s) avgAmplitude = true ->
  let currentBuffer := Pcm16.currentBuffer_of (Pcm16.int16Buffer_of playoutBuffer) in
  let acc := _accumulatedByteBuffer s ++ currentBuffer in
  let data := firstn (Z.to_nat kTargetSamples) acc in
  ProcessAudioBuffer s avgAmplitude playoutBuffer
  = if size acc >=? kTargetSamples then
      (mkTranscriber (_speech_audio_device s) (_task_queue_pool s) (_whisperContext s)
         (ring_after s data) (_running s) (_processingActive s)
         (skipn (Z.to_nat kTargetSamples) acc) (count_after s data)
         true (size acc - kTargetSamples) 0,
       [mkWrite data (fits s data)])
    else
      (mkTranscriber (_speech_audio_device s) (_task_queue_pool s) (_whisperContext s)
         (_audioBuffer s) (_running s) (_processingActive s)
         acc (_overflowCount s) true
         (wrap64 ((if _inVoiceSegment s then _samplesSinceVoiceStart s else 0)
                  + size currentBuffer)) 0,
       []).
Proof.
  intros Hvoice. cbv zeta. unfold ProcessAudioBuffer. rewrite Hvoice.
  unfold flush_continuous.
  set (cur := Pcm16.currentBuffer_of (Pcm16.int16Buffer_of playoutBuffer)).
  set (s1 := accumulate (enter_voice s) cur).
  assert (Hacc : _accumulatedByteBuffer s1 = _accumulatedByteBuffer s ++ cur)
    by (unfold s1, accumulate, enter_voice; destruct (_inVoiceSegment s); reflexivity).
  rewrite Hacc.
  destruct (size (_accumulatedByteBuffer s ++ cur) >=? kTargetSamples) eqn:E.
  - apply Z.geb_le in E.
    assert (Hn : 0 <= kTargetSamples <= size (_accumulatedByteBuffer s1))
      by (rewrite Hacc; unfold kTargetSamples, kSampleRate in *; lia).
    pose proof (flush_eq s1 kTargetSamples Hn) as H. cbv zeta in H.
    destruct (write_or_overflow s1 kTargetSamples) as [s2 w]. cbn [fst snd] in H.
    rewrite H, Hacc.
    unfold s1, accumulate, enter_voice, ring_after, count_after, fits, handleOverflow.
    destruct s as [dev pool ctx rb run pa acc oc inv since sil].
    destruct inv; cbn; destruct (_ <=? _); try reflexivity;
      destruct (_ >? 10); reflexivity.
  - unfold s1, accumulate, enter_voice.
    destruct s as [dev pool ctx rb run pa acc oc inv since sil].
    destruct inv; reflexivity.
Qed.

(** A block that does not count as voice. *)
Lemma silent_block_eq (s : WhisperTranscriber) (avgAmplitude : float)
    (playoutBuffer : list byte) :
  voicePresent_of (_inVoiceSegment s) avgAmplitude = false ->
  let currentBuffer := Pcm16.currentBuffer_of (Pcm16.int16Buffer_of playoutBuffer) in
  let silent := wrap64 (_silentSamplesCount s + size currentBuffer) in
  let acc := _accumulatedByteBuffer s in
  let n := Z.min (size acc) kTargetSamples in
  let data := firstn (Z.to_nat n) acc in
  ProcessAudioBuffer s avgAmplitude playoutBuffer
  = if _inVoiceSegment s && (silent >=? kSilenceSamples) then
      if size acc >=? kSampleRate * 2 then
        (mkTranscriber (_speech_audio_device s) (_task_queue_pool s) (_whisperContext s)
           (ring_after s data) (_running s) (_processingActive s)
           (skipn (Z.to_nat n) acc) (count_after s data)
           false (size acc - n) 0,
         [mkWrite data (fits s data)])
      else
        (mkTranscriber (_speech_audio_device s) (_task_queue_pool s) (_whisperContext s)
           (_audioBuffer s) (_running s) (_processingActive s)
           acc (_overflowCount s) false (_samplesSinceVoiceStart s) 0,
         [])
    else
      (mkTranscriber (_speech_audio_device s) (_task_queue_pool s) (_whisperContext s)
         (_audioBuffer s) (_running s) (_processingActive s)
         acc (_overflowCount s) (_inVoiceSegment s) (_samplesSinceVoiceStart s) silent,
       []).
Proof.
  intros Hquiet. cbv zeta. unfold ProcessAudioBuffer. rewrite Hquiet.
  unfold silent_block. cbn [_inVoiceSegment _silentSamplesCount set_silentSamplesCount].
  set (cur := Pcm16.currentBuffer_of (Pcm16.int16Buffer_of playoutBuffer)).
  destruct (_inVoiceSegment s && _) eqn:Eend.
  - set (s2 := set_inVoiceSegment _ false).
    unfold flush_end_of_speech.
    change (_accumulatedByteBuffer s2) with (_accumulatedByteBuffer s).
    assert (Hcond : ((size (_accumulatedByteBuffer s) >=? kTargetSamples)
                     || (size (_accumulatedByteBuffer s) >=? kSampleRate * 2))
                    = (size (_accumulatedByteBuffer s) >=? kSampleRate * 2)).
    { destruct (size (_accumulatedByteBuffer s) >=? kSampleRate * 2) eqn:E2;
        [apply orb_true_r |].
      destruct (size (_accumulatedByteBuffer s) >=? kTargetSamples) eqn:E1;
        [| reflexivity].
      apply Z.geb_le in E1.
      assert (H : kSampleRate * 2 <= size (_accumulatedByteBuffer s))
        by (unfold kTargetSamples, kSampleRate in *; lia).
      apply Z.geb_le in H. congruence. }
    rewrite Hcond.
    destruct (size (_accumulatedByteBuffer s) >=? kSampleRate * 2) eqn:E.
    + assert (Hn : 0 <= Z.min (size (_accumulatedByteBuffer s)) kTargetSamples
                   <= size (_accumulatedByteBuffer s2)).
      { change (_accumulatedByteBuffer s2) with (_accumulatedByteBuffer s).
        pose proof (size_nonneg (_accumulatedByteBuffer s)).
        unfold kTargetSamples, kSampleRate. lia. }
      pose proof (flush_eq s2 _ Hn) as H. cbv zeta in H.
      destruct (write_or_overflow s2 _) as [s3 w]. cbn [fst snd] in H.
      injection H as H1 H2. rewrite H1, H2.
      unfold s2, ring_after, count_after, fits, handleOverflow.
      destruct s as [dev pool ctx rb run pa acc oc inv since sil].
      cbn; destruct (_ <=? _); try reflexivity;
        destruct (_ >? 10); reflexivity.
    + destruct s as [dev pool ctx rb run pa acc oc inv since sil]. reflexivity.
  - destruct s as [dev pool ctx rb run pa acc oc inv since sil]. reflexivity.
Qed.

Lemma firstn_size {A : Type} (l : list A) : firstn (Z.to_nat (size l)) l = l.
Proof. unfold size. rewrite Nat2Z.id. apply firstn_all. Qed.

Lemma skipn_size {A : Type} (l : list A) : skipn (Z.to_nat (size l)) l = [].
Proof. unfold size. rewrite Nat2Z.id. apply skipn_all. Qed.

Lemma bytes_written_app (ws1 ws2 : list ring_write) :
  bytes_written (ws1 ++ ws2) = bytes_written ws1 ++ bytes_written ws2.
Proof. unfold bytes_written. rewrite map_app, concat_app. reflexivity. Qed.

Lemma ring_after_unread (s : WhisperTranscriber) (data : list byte) :
  AudioRingBuffer.unread (ring_after s data)
  = if fits s data then AudioRingBuffer.unread (_audioBuffer s) ++ data
    else AudioRingBuffer.unread (_audioBuffer s).
Proof.
  unfold ring_after. destruct (fits s data); [reflexivity |].
  destruct (OverflowFacts.handleOverflow_spec s) as [H _]. rewrite H.
  destruct (_ >? 10); reflexivity.
Qed.

(** X5. No block loses or reorders accumulated bytes: the bytes a block
    makes the segmenter hand to the ring buffer, followed by what it leaves
    accumulated, are what was accumulated before, followed by the block's
    own bytes when the block counts as voice; a block that does not count
    as voice is never accumulated, inside a segment or outside. *)
Theorem accumulated_bytes_are_conserved (s : WhisperTranscriber)
    (avgAmplitude : float) (playoutBuffer : list byte) :
  let r := ProcessAudioBuffer s avgAmplitude playoutBuffer in
  let currentBuffer := Pcm16.currentBuffer_of (Pcm16.int16Buffer_of playoutBuffer) in
  bytes_written (snd r) ++ _accumulatedByteBuffer (fst r)
  = _accumulatedByteBuffer s
    ++ (if voicePresent_of (_inVoiceSegment s) avgAmplitude then currentBuffer else []).
Proof.
  cbv zeta. destruct (voicePresent_of (_inVoiceSegment s) avgAmplitude) eqn:Ev.
  - rewrite (voiced_block_eq s avgAmplitude playoutBuffer Ev). cbv zeta.
    destruct (_ >=? kTargetSamples); cbn [fst snd _accumulatedByteBuffer];
      unfold bytes_written; cbn [map List.concat written].
    + rewrite app_nil_r. apply firstn_skipn.
    + reflexivity.
  - rewrite (silent_block_eq s avgAmplitude playoutBuffer Ev). cbv zeta.
    rewrite app_nil_r.
    destruct (_ && _); [destruct (_ >=? kSampleRate * 2) |];
      cbn [fst snd _accumulatedByteBuffer]; unfold bytes_written;
      cbn [map List.concat written]; try reflexivity.
    rewrite app_nil_r. apply firstn_skipn.
Qed.

(** X6. A block causes one write to the ring buffer at most, and a write
    always carries between one second of audio (32000 bytes) and the
    target size (384000 bytes). *)
Theorem writes_are_bounded (s : WhisperTranscriber) (avgAmplitude : float)
    (playoutBuffer : list byte) :
  let writes := snd (ProcessAudioBuffer s avgAmplitude playoutBuffer) in
  (List.length writes <= 1)%nat
  /\ Forall (fun w => 32000 <= size (written w) <= 384000) writes.
Proof.
  cbv zeta. destruct (voicePresent_of (_inVoiceSegment s) avgAmplitude) eqn:Ev.
  - rewrite (voiced_block_eq s avgAmplitude playoutBuffer Ev). cbv zeta.
    destruct (_ >=? kTargetSamples) eqn:E; cbn [fst snd List.length];
      [| split; [lia | apply Forall_nil]].
    apply Z.geb_le in E. split; [lia |].
    constructor; [| constructor]. cbn [written].
    rewrite size_firstn; unfold kTargetSamples, kSampleRate in *; lia.
  - rewrite (silent_block_eq s avgAmplitude playoutBuffer Ev). cbv zeta.
    destruct (_ && _); [destruct (_ >=? kSampleRate * 2) eqn:E |];
      cbn [fst snd List.length]; try solve [split; [lia | apply Forall_nil]].
    apply Z.geb_le in E. split; [lia |].
    constructor; [| constructor]. cbn [written].
    pose proof (size_nonneg (_accumulatedByteBuffer s)).
    rewrite size_firstn; unfold kTargetSamples, kSampleRate in *; lia.
Qed.

(** One voiced block, for the stream below. *)
Lemma voiced_step (s : WhisperTranscriber) (avgAmplitude : float)
    (playoutBuffer : list byte) :
  voicePresent_of (_inVoiceSegment s) avgAmplitude = true ->
  let r := ProcessAudioBuffer s avgAmplitude playoutBuffer in
  bytes_written (snd r) ++ _accumulatedByteBuffer (fst r)
  = _accumulatedByteBuffer s
    ++ Pcm16.currentBuffer_of (Pcm16.int16Buffer_of playoutBuffer)
  /\ Forall (fun w => size (written w) = kTargetSamples) (snd r)
  /\ _inVoiceSegment (fst r) = true.
Proof.
  intros Ev. cbv zeta.
  rewrite (voiced_block_eq s avgAmplitude playoutBuffer Ev). cbv zeta.
  destruct (_ >=? kTargetSamples) eqn:E;
    cbn [fst snd _accumulatedByteBuffer _inVoiceSegment]; unfold bytes_written;
    cbn [map List.concat written].
  - apply Z.geb_le in E. rewrite app_nil_r, firstn_skipn.
    repeat split. apply Forall_cons; [| apply Forall_nil]. cbn [written].
    apply size_firstn. unfold kTargetSamples, kSampleRate in *. lia.
  - repeat split. apply Forall_nil.
Qed.

(** X7. While every block counts as voice, the byte stream is kept whole
    and in order: the bytes handed to the ring buffer so far, followed by
    the accumulator, are the accumulator at the start followed by the bytes
    of all the blocks; every write carries exactly the target size, and the
    segmenter is in the Voice state after the first block. *)
Theorem continuous_speech_stream (s : WhisperTranscriber)
    (blocks : list (float * list byte)) :
  Forall (fun block => loud (fst block)) blocks ->
  let r := feed s blocks in
  bytes_written (snd r) ++ _accumulatedByteBuffer (fst r)
  = _accumulatedByteBuffer s
    ++ List.concat
         (map (fun block => Pcm16.currentBuffer_of (Pcm16.int16Buffer_of (snd block)))
            blocks)
  /\ Forall (fun w => size (written w) = kTargetSamples) (snd r)
  /\ (blocks <> [] -> _inVoiceSegment (fst r) = true).
Proof.
  intros Hloud. cbv zeta. revert s.
  induction Hloud as [| [avgAmplitude playoutBuffer] rest [Hs Hv] Hrest IH]; intros s.
  - cbn [feed fst snd map List.concat]. rewrite app_nil_r.
    repeat split; [apply Forall_nil | congruence].
  - cbn [feed fst snd map List.concat] in *.
    assert (Ev : voicePresent_of (_inVoiceSegment s) avgAmplitude = true)
      by (destruct (_inVoiceSegment s); assumption).
    pose proof (voiced_step s avgAmplitude playoutBuffer Ev) as H1.
    cbv zeta in H1.
    destruct (ProcessAudioBuffer s avgAmplitude playoutBuffer) as [s1 ws1].
    specialize (IH s1).
    assert (Hnil : rest = [] -> feed s1 rest = (s1, [])) by (intros ->; reflexivity).
    destruct (feed s1 rest) as [s2 ws2]. cbn [fst snd] in *.
    destruct IH as (IHb & IHw & IHv). destruct H1 as (H1b & H1w & H1v).
    split; [| split].
    + rewrite bytes_written_app, <- app_assoc, IHb, app_assoc, H1b, <- app_assoc.
      reflexivity.
    + apply Forall_app. split; assumption.
    + intros _. destruct rest as [| x rest']; [| apply IHv; discriminate].
      specialize (Hnil eq_refl). injection Hnil as -> _. exact H1v.
Qed.

Lemma triple_eq {A B C : Type} (a a' : A) (b b' : B) (c c' : C) :
  (a, b, c) = (a', b', c') -> a = a' /\ b = b' /\ c = c'.
Proof. intros H. injection H as Ha Hb Hc. repeat split; assumption. Qed.

(** On a run: from the Voice state with one sample less than the target
    accumulated, three voiced blocks of 2, 192000 and 3 samples.  The first
    and the second each bring the accumulator to the target and cause a
    write of exactly 384000 bytes; 8 bytes stay accumulated. *)
Lemma continuous_speech_stream_witness :
  let s := Scenario.before_target in
  let blocks := Scenario.voiced_stream in
  let r := feed s blocks in
  Forall (fun block => loud (fst block)) blocks
  /\ (bytes_written (snd r) ++ _accumulatedByteBuffer (fst r)
      = _accumulatedByteBuffer s
        ++ List.concat
             (map (fun block => Pcm16.currentBuffer_of (Pcm16.int16Buffer_of (snd block)))
                blocks)
      /\ Forall (fun w => size (written w) = kTargetSamples) (snd r)
      /\ (blocks <> [] -> _inVoiceSegment (fst r) = true))
  /\ (size (_accumulatedByteBuffer Scenario.before_target),
      map (fun w => size (written w)) (snd Scenario.after_voiced_stream),
      size (_accumulatedByteBuffer (fst Scenario.after_voiced_stream)))
     = (383998, [384000; 384000], 8).
Proof.
  cbv zeta.
  assert (H : Forall (fun block : float * list byte => loud (fst block))
                Scenario.voiced_stream)
    by (repeat constructor).
  split; [exact H |].
  split; [exact (continuous_speech_stream Scenario.before_target _ H) |].
  vm_compute. reflexivity.
Defined.

(** The ring buffer after a write depends on the ring buffer and the
    overflow count only. *)
Lemma ring_after_ext (s s' : WhisperTranscriber) (data : list byte) :
  _audioBuffer s' = _audioBuffer s ->
  _overflowCount s' = _overflowCount s ->
  ring_after s' data = ring_after s data /\ count_after s' data = count_after s data
  /\ fits s' data = fits s data.
Proof.
  intros Hrb Hoc. unfold ring_after, count_after, fits, handleOverflow.
  cbn [set_overflowCount _overflowCount].
  rewrite Hrb, Hoc.
  destruct (_ <=? _); [repeat split |].
  destruct (wrap64 (_overflowCount s + 1) >? 10);
    cbn [set_overflowCount set_audioBuffer _audioBuffer _overflowCount];
    rewrite ?Hrb; repeat split.
Qed.

Lemma bytes_of_pairs_size (pairs : list (byte * byte)) :
  size (Pcm16.bytes_of_pairs pairs) = 2 * size pairs.
Proof.
  unfold size. induction pairs as [| p rest IH]; [reflexivity |].
  cbn [Pcm16.bytes_of_pairs flat_map app List.length].
  fold (Pcm16.bytes_of_pairs rest). rewrite !Nat2Z.inj_succ, IH. lia.
Qed.

(** A segment in closed form: a voiced block of whole samples between one
    second and the target, taken in the Silence state with nothing
    accumulated, then a block without voice of 16000 bytes or more. *)
Lemma segment_feed_eq (s : WhisperTranscriber) (voiceAmplitude silenceAmplitude : float)
    (pairs : list (byte * byte)) (silence : list byte) :
  _inVoiceSegment s = false ->
  _accumulatedByteBuffer s = [] ->
  voicePresent_of false voiceAmplitude = true ->
  voicePresent_of true silenceAmplitude = false ->
  let voice := Pcm16.bytes_of_pairs pairs in
  32000 <= size voice < 384000 ->
  16000 <= size silence < size_max - 1 ->
  feed s [(voiceAmplitude, voice); (silenceAmplitude, silence)]
  = (mkTranscriber (_speech_audio_device s) (_task_queue_pool s) (_whisperContext s)
       (ring_after s voice) (_running s) (_processingActive s)
       [] (count_after s voice) false 0 0,
     [mkWrite voice (fits s voice)]).
Proof.
  intros Hin Hacc Hv Hq. cbv zeta. intros Hvoice Hsil.
  cbn [feed].
  assert (Ev : voicePresent_of (_inVoiceSegment s) voiceAmplitude = true)
    by (rewrite Hin; exact Hv).
  rewrite (voiced_block_eq s voiceAmplitude _ Ev). cbv zeta.
  rewrite Pcm16Facts.currentBuffer_roundtrip, Hacc, app_nil_l.
  assert (E : (size (Pcm16.bytes_of_pairs pairs) >=? kTargetSamples) = false).
  { destruct (_ >=? kTargetSamples) eqn:E; [| reflexivity].
    apply Z.geb_le in E. unfold kTargetSamples, kSampleRate in E. lia. }
  rewrite E.
  set (s1 := mkTranscriber _ _ _ _ _ _ _ _ _ _ _).
  assert (Eq : voicePresent_of (_inVoiceSegment s1) silenceAmplitude = false) by exact Hq.
  rewrite (silent_block_eq s1 silenceAmplitude silence Eq). cbv zeta.
  cbn [_inVoiceSegment _silentSamplesCount _accumulatedByteBuffer s1 andb].
  pose proof (Pcm16Facts.currentBuffer_size silence) as Hcur.
  assert (Hsz : size silence <= size (Pcm16.currentBuffer_of (Pcm16.int16Buffer_of silence))
                <= size silence + 1)
    by (rewrite Hcur; Z.div_mod_to_equations; lia).
  assert (Ew : (wrap64 (0 + size (Pcm16.currentBuffer_of (Pcm16.int16Buffer_of silence)))
                >=? kSilenceSamples) = true).
  { apply Z.geb_le. unfold wrap64. rewrite Z.mod_small; unfold kSilenceSamples; lia. }
  rewrite Ew.
  assert (Ef : (size (Pcm16.bytes_of_pairs pairs) >=? kSampleRate * 2) = true)
    by (apply Z.geb_le; unfold kSampleRate; lia).
  rewrite Ef.
  assert (Hmin : Z.min (size (Pcm16.bytes_of_pairs pairs)) kTargetSamples
                 = size (Pcm16.bytes_of_pairs pairs))
    by (unfold kTargetSamples, kSampleRate; lia).
  rewrite Hmin, firstn_size, skipn_size, Z.sub_diag.
  destruct (ring_after_ext s s1 (Pcm16.bytes_of_pairs pairs) eq_refl eq_refl)
    as (-> & -> & ->).
  reflexivity.
Qed.

(** X8. A whole segment goes through unchanged: from the Silence state with
    nothing accumulated, a voiced block of whole samples, at least one
    second long and shorter than the target, followed by a block without
    voice of at least 16000 bytes, causes exactly one write, which carries
    exactly the bytes of the voiced block; the ring buffer stores them when
    it has room, nothing stays accumulated and the segmenter is back in the
    Silence state. *)
Theorem segment_roundtrip (s : WhisperTranscriber) (voiceAmplitude silenceAmplitude : float)
    (pairs : list (byte * byte)) (silence : list byte) :
  _inVoiceSegment s = false ->
  _accumulatedByteBuffer s = [] ->
  voicePresent_of false voiceAmplitude = true ->
  voicePresent_of true silenceAmplitude = false ->
  let voice := Pcm16.bytes_of_pairs pairs in
  32000 <= size voice < 384000 ->
  16000 <= size silence < size_max - 1 ->
  let r := feed s [(voiceAmplitude, voice); (silenceAmplitude, silence)] in
  snd r = [mkWrite voice (fits s voice)]
  /\ AudioRingBuffer.unread (_audioBuffer (fst r))
     = (if fits s voice then AudioRingBuffer.unread (_audioBuffer s) ++ voice
        else AudioRingBuffer.unread (_audioBuffer s))
  /\ _accumulatedByteBuffer (fst r) = []
  /\ _inVoiceSegment (fst r) = false
  /\ _silentSamplesCount (fst r) = 0.
Proof.
  intros Hin Hacc Hv Hq. cbv zeta. intros Hvoice Hsil.
  rewrite (segment_feed_eq s voiceAmplitude silenceAmplitude pairs silence
             Hin Hacc Hv Hq Hvoice Hsil).
  cbn [fst snd _audioBuffer _accumulatedByteBuffer _inVoiceSegment _silentSamplesCount].
  split; [reflexivity |]. split; [| repeat split].
  rewrite ring_after_unread. reflexivity.
Qed.

(** On a run: one second of samples of value 1 at amplitude 1, then 8000
    silent samples, from the constructed object. *)
Lemma segment_roundtrip_witness :
  let s := construct None true in
  let voice := Scenario.ones 16000 in
  let r := feed s [(1%float, voice); (0%float, Scenario.zeros 8000)] in
  snd r = [mkWrite voice (fits s voice)]
  /\ AudioRingBuffer.unread (_audioBuffer (fst r))
     = (if fits s voice then AudioRingBuffer.unread (_audioBuffer s) ++ voice
        else AudioRingBuffer.unread (_audioBuffer s))
  /\ _accumulatedByteBuffer (fst r) = []
  /\ _inVoiceSegment (fst r) = false
  /\ _silentSamplesCount (fst r) = 0.
Proof.
  apply (segment_roundtrip (construct None true) 1%float 0%float
           (repeat (x01, x00) (Z.to_nat 16000)) (Scenario.zeros 8000)).
  - reflexivity.
  - reflexivity.
  - vm_compute. reflexivity.
  - vm_compute. reflexivity.
  - vm_compute. split; [discriminate | reflexivity].
  - vm_compute. split; [discriminate | reflexivity].
Defined.

End SegmenterMore.

(** ** Overflows and growth over time *)

Module OverflowMore.
Import Segmenter OverflowFacts Pipeline.

Lemma handleOverflow_step (s : WhisperTranscriber) :
  0 <= _overflowCount s <= 10 ->
  _overflowCount (handleOverflow s) = (_overflowCount s + 1) mod 11
  /\ AudioRingBuffer.capacity (_audioBuffer (handleOverflow s))
     = AudioRingBuffer.capacity (_audioBuffer s)
       + (_overflowCount s + 1) / 11 * kRingBufferSizeIncrement
  /\ AudioRingBuffer.unread (_audioBuffer (handleOverflow s))
     = AudioRingBuffer.unread (_audioBuffer s).
Proof.
  intros Hc. destruct (handleOverflow_spec s) as [Hb Hn]. rewrite Hb, Hn.
  assert (Hw : wrap64 (_overflowCount s + 1) = _overflowCount s + 1)
    by (unfold wrap64, size_max; apply Z.mod_small; lia).
  rewrite Hw.
  destruct (_overflowCount s + 1 >? 10) eqn:E; rewrite Z.gtb_ltb in E;
    [apply Z.ltb_lt in E | apply Z.ltb_ge in E];
    cbn [AudioRingBuffer.increaseWith AudioRingBuffer.capacity AudioRingBuffer.unread].
  - assert (H10 : _overflowCount s + 1 = 11) by lia. rewrite H10.
    change (11 mod 11) with 0. change (11 / 11) with 1. repeat split; lia.
  - rewrite Z.mod_small, Z.div_small by lia. repeat split; lia.
Qed.

(** Counting modulo eleven composes. *)
Lemma count_compose (c a b : Z) :
  0 <= c -> 0 <= a -> 0 <= b ->
  ((c + a) mod 11 + b) mod 11 = (c + (a + b)) mod 11
  /\ (c + a) / 11 + ((c + a) mod 11 + b) / 11 = (c + (a + b)) / 11.
Proof. intros Hc Ha Hb. split; Z.div_mod_to_equations; lia. Qed.

Lemma count_in_range (k : Z) : 0 <= k mod 11 <= 10.
Proof. pose proof (Z.mod_pos_bound k 11). lia. Qed.

(** X9. Overflows add up across growths: after any number of overflows the
    count is the total modulo eleven and the capacity has grown by one
    increment for every eleven of them, the first growth coming sooner when
    the count did not start at zero; the unread bytes are untouched. *)
Theorem overflows_add_up (s : WhisperTranscriber) (n : nat) :
  0 <= _overflowCount s <= 10 ->
  let s' := Nat.iter n handleOverflow s in
  let total := _overflowCount s + Z.of_nat n in
  _overflowCount s' = total mod 11
  /\ AudioRingBuffer.capacity (_audioBuffer s')
     = AudioRingBuffer.capacity (_audioBuffer s) + total / 11 * kRingBufferSizeIncrement
  /\ AudioRingBuffer.unread (_audioBuffer s')
     = AudioRingBuffer.unread (_audioBuffer s).
Proof.
  intros Hc. cbv zeta. induction n as [| n IH].
  - cbn [Nat.iter nat_rect]. rewrite Z.add_0_r, Z.mod_small, Z.div_small by lia.
    repeat split. lia.
  - rewrite Nat.iter_succ. destruct IH as (IHc & IHcap & IHun).
    revert IHc IHcap IHun. generalize (Nat.iter n handleOverflow s). intros sn IHc IHcap IHun.
    assert (Hr : 0 <= _overflowCount sn <= 10) by (rewrite IHc; apply count_in_range).
    destruct (handleOverflow_step sn Hr) as (H1 & H2 & H3).
    rewrite H1, H2, H3, IHc, IHcap, IHun.
    destruct (count_compose (_overflowCount s) (Z.of_nat n) 1) as [Hm Hd]; try lia.
    replace (_overflowCount s + Z.of_nat (S n))
      with (_overflowCount s + (Z.of_nat n + 1)) by lia.
    rewrite Hm, <- Hd. repeat split. lia.
Qed.

Lemma overflows_add_up_witness :
  let s := Nat.iter 7 handleOverflow (construct None true) in
  0 <= _overflowCount s <= 10
  /\ _overflowCount (Nat.iter 30 handleOverflow s) = 4
  /\ AudioRingBuffer.capacity (_audioBuffer (Nat.iter 30 handleOverflow s))
     = 960000 + 3 * 960000.
Proof.
  cbv zeta.
  assert (H : 0 <= _overflowCount (Nat.iter 7 handleOverflow (construct None true)) <= 10)
    by (vm_compute; split; discriminate).
  split; [exact H |].
  destruct (overflows_add_up _ 30 H) as (Hc & Hcap & _).
  split; [rewrite Hc | rewrite Hcap]; vm_compute; reflexivity.
Defined.

Lemma refused_app (ws1 ws2 : list ring_write) :
  refused (ws1 ++ ws2) = refused ws1 + refused ws2.
Proof. unfold refused, size. rewrite filter_app, length_app. lia. Qed.

Lemma refused_nonneg (ws : list ring_write) : 0 <= refused ws.
Proof. unfold refused, size. lia. Qed.

(** One block, for the account below. *)
Lemma block_account (s : WhisperTranscriber) (avgAmplitude : float)
    (playoutBuffer : list byte) :
  0 <= _overflowCount s <= 10 ->
  let r := ProcessAudioBuffer s avgAmplitude playoutBuffer in
  _overflowCount (fst r) = (_overflowCount s + refused (snd r)) mod 11
  /\ AudioRingBuffer.capacity (_audioBuffer (fst r))
     = AudioRingBuffer.capacity (_audioBuffer s)
       + (_overflowCount s + refused (snd r)) / 11 * kRingBufferSizeIncrement.
Proof.
  intros Hc. cbv zeta.
  destruct (ProcessAudioBuffer_ring s avgAmplitude playoutBuffer)
    as [(Hw & Hb & Hn) | [(w & Hw & Ha & Hb & Hn) | (w & Hw & Ha & Hb & Hn)]];
    rewrite Hw, Hb, Hn; unfold refused; cbn [filter]; rewrite ?Ha; cbn [negb].
  - change (size (@nil ring_write)) with 0.
    rewrite Z.add_0_r, Z.mod_small, Z.div_small by lia. split; lia.
  - change (size (@nil ring_write)) with 0.
    rewrite Z.add_0_r, Z.mod_small, Z.div_small by lia.
    unfold AudioRingBuffer.write. destruct (_ <=? _); cbn; split; lia.
  - change (size [w]) with 1.
    destruct (handleOverflow_step s Hc) as (H1 & H2 & _). split; assumption.
Qed.

(** The account of a stream: with the refused writes and the count at the
    start added up, the count at the end is that total modulo eleven and
    the capacity has grown by one increment for every eleven. *)
Lemma feed_account (blocks : list (float * list byte)) (s : WhisperTranscriber) :
  0 <= _overflowCount s <= 10 ->
  let r := feed s blocks in
  let total := _overflowCount s + refused (snd r) in
  _overflowCount (fst r) = total mod 11
  /\ AudioRingBuffer.capacity (_audioBuffer (fst r))
     = AudioRingBuffer.capacity (_audioBuffer s) + total / 11 * kRingBufferSizeIncrement.
Proof.
  cbv zeta. revert s.
  induction blocks as [| [avgAmplitude playoutBuffer] rest IH]; intros s Hc.
  - cbn [feed fst snd]. change (refused []) with 0.
    rewrite Z.add_0_r, Z.mod_small, Z.div_small by lia. split; lia.
  - cbn [feed].
    pose proof (block_account s avgAmplitude playoutBuffer Hc) as H1. cbv zeta in H1.
    destruct (ProcessAudioBuffer s avgAmplitude playoutBuffer) as [s1 ws1].
    cbn [fst snd] in H1. destruct H1 as [H1c H1cap].
    assert (Hr : 0 <= _overflowCount s1 <= 10) by (rewrite H1c; apply count_in_range).
    specialize (IH s1 Hr). destruct (feed s1 rest) as [s2 ws2]. cbn [fst snd] in *.
    destruct IH as [IHc IHcap].
    pose proof (refused_nonneg ws1). pose proof (refused_nonneg ws2).
    destruct (count_compose (_overflowCount s) (refused ws1) (refused ws2))
      as [Hm Hd]; try lia.
    rewrite refused_app, IHc, IHcap, H1c, H1cap, Hm, <- Hd. split; lia.
Qed.

(** X10. The overflow count does not ask for consecutive overflows: over
    any stream of blocks fed to an object whose count is between 0 and 10,
    with the refused writes and the count at the start added up, the count
    at the end is that total modulo eleven and the capacity has grown by one
    increment for every eleven, whatever happened in between; so the
    capacity never shrinks, and does not change while no write is
    refused. *)
Theorem growth_accounting (s : WhisperTranscriber) (blocks : list (float * list byte)) :
  0 <= _overflowCount s <= 10 ->
  let r := feed s blocks in
  let total := _overflowCount s + refused (snd r) in
  _overflowCount (fst r) = total mod 11
  /\ AudioRingBuffer.capacity (_audioBuffer (fst r))
     = AudioRingBuffer.capacity (_audioBuffer s) + total / 11 * kRingBufferSizeIncrement
  /\ AudioRingBuffer.capacity (_audioBuffer s)
     <= AudioRingBuffer.capacity (_audioBuffer (fst r))
  /\ (refused (snd r) = 0 ->
      AudioRingBuffer.capacity (_audioBuffer (fst r))
      = AudioRingBuffer.capacity (_audioBuffer s)).
Proof.
  intros Hc. cbv zeta.
  destruct (feed_account blocks s Hc) as [H1 H2]. cbv zeta in H1, H2.
  rewrite H1, H2.
  pose proof (refused_nonneg (snd (feed s blocks))) as Hr.
  assert (Hq : 0 <= (_overflowCount s + refused (snd (feed s blocks))) / 11)
    by (apply Z.div_pos; lia).
  repeat split.
  - unfold kRingBufferSizeIncrement, kSampleRate, kTargetDurationSeconds. nia.
  - intros H0. rewrite H0, Z.add_0_r, Z.div_small by lia. lia.
Qed.

(** On a run: the ring buffer is full and seven overflows have been
    counted; of five segments the first four are refused, the fourth brings
    the total to eleven, the capacity grows and the count is zero again, and
    the fifth is stored. *)
Lemma growth_accounting_witness :
  let s := Scenario.seven_overflows in
  let r := feed s (Scenario.segments 5) in
  let total := _overflowCount s + refused (snd r) in
  0 <= _overflowCount s <= 10
  /\ (_overflowCount (fst r) = total mod 11
      /\ AudioRingBuffer.capacity (_audioBuffer (fst r))
         = AudioRingBuffer.capacity (_audioBuffer s) + total / 11 * kRingBufferSizeIncrement
      /\ AudioRingBuffer.capacity (_audioBuffer s)
         <= AudioRingBuffer.capacity (_audioBuffer (fst r))
      /\ (refused (snd r) = 0 ->
          AudioRingBuffer.capacity (_audioBuffer (fst r))
          = AudioRingBuffer.capacity (_audioBuffer s)))
  /\ (_overflowCount Scenario.seven_overflows,
      AudioRingBuffer.capacity (_audioBuffer Scenario.seven_overflows),
      (map accepted (snd Scenario.after_five_segments),
       refused (snd Scenario.after_five_segments),
       _overflowCount (fst Scenario.after_five_segments),
       AudioRingBuffer.capacity (_audioBuffer (fst Scenario.after_five_segments))))
     = (7, 960000, ([false; false; false; false; true], 4, 0, 1920000)).
Proof.
  cbv zeta.
  assert (H : 0 <= _overflowCount Scenario.seven_overflows <= 10)
    by (vm_compute; split; discriminate).
  split; [exact H |].
  split; [exact (growth_accounting _ (Scenario.segments 5) H) |].
  vm_compute. reflexivity.
Defined.

End OverflowMore.

(** ** Growth of the ring buffer *)

Module GrowthFacts.
Import Segmenter OverflowFacts Pipeline.

(** C6. Starting from an overflow count of zero, the first ten calls of
    [handleOverflow] only count and leave the capacity alone, and the
    eleventh adds [kRingBufferSizeIncrement] (960000 bytes) to the capacity
    and sets the count back to zero.  [ProcessAudioBuffer] makes that call
    for every write the ring buffer refuses, and only then: a block leaves
    the ring buffer and the count alone, or has one write stored with the
    count as it was, or has one write refused and then leaves the ring
    buffer and the count as [handleOverflow] does.  So over a stream of
    blocks the capacity is unchanged and the count is the number of refused
    writes while there are ten at most, and with the eleventh the capacity
    is one increment larger and the count zero.  Nothing else enlarges the
    ring buffer: a block changes the capacity only through a refused write
    followed by [handleOverflow], the consumer loop and the transcription
    tasks leave the capacity as it is, and so do the ring buffer's own
    [write] and [read]. *)
Theorem growth_after_eleven_overflows (s : WhisperTranscriber) :
  _overflowCount s = 0 ->
  (forall k : nat, (k <= 10)%nat ->
      AudioRingBuffer.capacity (_audioBuffer (Nat.iter k handleOverflow s))
      = AudioRingBuffer.capacity (_audioBuffer s)
      /\ _overflowCount (Nat.iter k handleOverflow s) = Z.of_nat k)
  /\ AudioRingBuffer.capacity (_audioBuffer (Nat.iter 11 handleOverflow s))
     = AudioRingBuffer.capacity (_audioBuffer s) + kRingBufferSizeIncrement
  /\ kRingBufferSizeIncrement = 960000
  /\ AudioRingBuffer.unread (_audioBuffer (Nat.iter 11 handleOverflow s))
     = AudioRingBuffer.unread (_audioBuffer s)
  /\ _overflowCount (Nat.iter 11 handleOverflow s) = 0
  /\ (forall (t : WhisperTranscriber) (avgAmplitude : float) (playoutBuffer : list byte),
        ring_effect t (fst (ProcessAudioBuffer t avgAmplitude playoutBuffer))
          (snd (ProcessAudioBuffer t avgAmplitude playoutBuffer)))
  /\ (forall blocks : list (float * list byte),
        let r := feed s blocks in
        (refused (snd r) <= 10 ->
           AudioRingBuffer.capacity (_audioBuffer (fst r))
           = AudioRingBuffer.capacity (_audioBuffer s)
           /\ _overflowCount (fst r) = refused (snd r))
        /\ (refused (snd r) = 11 ->
             AudioRingBuffer.capacity (_audioBuffer (fst r))
             = AudioRingBuffer.capacity (_audioBuffer s) + kRingBufferSizeIncrement
             /\ _overflowCount (fst r) = 0))
  /\ (forall (t : WhisperTranscriber) (avgAmplitude : float) (playoutBuffer : list byte),
        let t' := fst (ProcessAudioBuffer t avgAmplitude playoutBuffer) in
        AudioRingBuffer.capacity (_audioBuffer t')
        <> AudioRingBuffer.capacity (_audioBuffer t) ->
        (exists w, snd (ProcessAudioBuffer t avgAmplitude playoutBuffer) = [w]
                   /\ accepted w = false)
        /\ _audioBuffer t' = _audioBuffer (handleOverflow t))
  /\ (forall (fuel : nat) (t t' : WhisperTranscriber),
        Consumer.processing_loop fuel t = Some t' ->
        AudioRingBuffer.capacity (_audioBuffer t')
        = AudioRingBuffer.capacity (_audioBuffer t))
  /\ (forall (whisper_full : list float -> Z)
             (segment_texts : list float -> list (option string))
             (strip_annotations : string -> string)
             (t : WhisperTranscriber) (localAudioBuffer : list byte),
        _audioBuffer
          (fst (transcription_task whisper_full segment_texts strip_annotations
                  t localAudioBuffer))
        = _audioBuffer t)
  /\ (forall (rb : AudioRingBuffer.t) (data : list byte) (maxLen : Z),
        AudioRingBuffer.capacity (snd (AudioRingBuffer.write rb data))
        = AudioRingBuffer.capacity rb
        /\ AudioRingBuffer.capacity (snd (AudioRingBuffer.read rb maxLen))
           = AudioRingBuffer.capacity rb).
Proof.
  intros H0.
  destruct (handleOverflow_eleventh s H0) as (Hcap & Hun & Hcnt).
  split; [| split; [exact Hcap | split; [reflexivity | split; [exact Hun |
    split; [exact Hcnt | split; [| split; [| split; [| split; [| split]]]]]]]]].
  - intros k Hk. destruct (handleOverflow_counts s k H0 Hk) as (H1 & _ & H3).
    split; assumption.
  - exact ProcessAudioBuffer_ring.
  - intros blocks. cbv zeta.
    assert (Hc : 0 <= _overflowCount s <= 10) by lia.
    destruct (OverflowMore.feed_account blocks s Hc) as [H1 H2]. cbv zeta in H1, H2.
    rewrite H0, Z.add_0_l in H1, H2.
    pose proof (OverflowMore.refused_nonneg (snd (feed s blocks))) as Hn.
    split.
    + intros Hle. rewrite H1, H2, Z.mod_small, Z.div_small by lia. split; lia.
    + intros Heq. rewrite H1, H2, Heq.
      change (11 / 11) with 1. change (11 mod 11) with 0. split; lia.
  - cbv zeta. intros t avgAmplitude playoutBuffer Hne.
    destruct (ProcessAudioBuffer_ring t avgAmplitude playoutBuffer)
      as [(_ & Hb' & _) | [(w & _ & _ & Hb' & _) | (w & Hw & Hacc & Hb' & _)]].
    + rewrite Hb' in Hne. contradiction.
    + rewrite Hb' in Hne. exfalso. apply Hne.
      unfold AudioRingBuffer.write. destruct (_ <=? _); reflexivity.
    + split; [exists w; split; assumption | exact Hb'].
  - exact ConsumerFacts.processing_loop_capacity.
  - intros whisper_full segment_texts strip_annotations t localAudioBuffer.
    destruct (AdapterFacts.transcription_task_frame whisper_full segment_texts
                strip_annotations t localAudioBuffer) as [guard H].
    rewrite H. reflexivity.
  - intros rb data maxLen. unfold AudioRingBuffer.write, AudioRingBuffer.read.
    destruct (_ <=? _); destruct (_ =? 0); split; reflexivity.
Qed.

(** On a run: the ring buffer of the constructed object is full and no
    overflow has been counted.  Ten segments have their ten writes refused
    and leave the capacity at 960000 with the count at 10; eleven segments
    have eleven writes refused and leave the capacity at 1920000 with the
    count at 0. *)
Lemma growth_after_eleven_overflows_witness :
  let s := Scenario.full_ring in
  let ten := feed s (Scenario.segments 10) in
  let eleven := feed s (Scenario.segments 11) in
  _overflowCount s = 0
  /\ AudioRingBuffer.capacity (_audioBuffer s) = 960000
  /\ AudioRingBuffer.availableToRead (_audioBuffer s) = 960000
  /\ refused (snd ten) = 10
  /\ AudioRingBuffer.capacity (_audioBuffer (fst ten)) = 960000
  /\ _overflowCount (fst ten) = 10
  /\ refused (snd eleven) = 11
  /\ AudioRingBuffer.capacity (_audioBuffer (fst eleven)) = 1920000
  /\ _overflowCount (fst eleven) = 0.
Proof.
  cbv zeta.
  destruct (growth_after_eleven_overflows Scenario.full_ring eq_refl)
    as (_ & _ & _ & _ & _ & _ & Hstream & _).
  assert (Hfull : AudioRingBuffer.availableToRead (_audioBuffer Scenario.full_ring) = 960000)
    by (vm_compute; reflexivity).
  assert (Hten : refused (snd (feed Scenario.full_ring (Scenario.segments 10))) = 10)
    by (vm_compute; reflexivity).
  assert (Heleven : refused (snd (feed Scenario.full_ring (Scenario.segments 11))) = 11)
    by (vm_compute; reflexivity).
  destruct (Hstream (Scenario.segments 10)) as [H10 _].
  destruct (Hstream (Scenario.segments 11)) as [_ H11].
  cbv zeta in H10, H11.
  assert (Hle : refused (snd (feed Scenario.full_ring (Scenario.segments 10))) <= 10)
    by (rewrite Hten; discriminate).
  destruct (H10 Hle) as [H10cap H10cnt]. destruct (H11 Heleven) as [H11cap H11cnt].
  split; [reflexivity |]. split; [reflexivity |]. split; [exact Hfull |].
  split; [exact Hten |]. split; [rewrite H10cap; reflexivity |].
  split; [rewrite H10cnt; exact Hten |].
  split; [exact Heleven |]. split; [rewrite H11cap; reflexivity | exact H11cnt].
Defined.

End GrowthFacts.

(** ** The adapter in closed form *)

Module AdapterMore.
Import Pipeline.

Section WithEngine.

Variable whisper_full : list float -> Z.
Variable segment_texts : list float -> list (option string).
Variable strip_annotations : string -> string.

Local Abbreviation Transcribe :=
  (TranscribeAudioNonBlocking whisper_full segment_texts strip_annotations).
Local Abbreviation Task :=
  (transcription_task whisper_full segment_texts strip_annotations).
Local Abbreviation Forward := (forward strip_annotations).

Lemma set_processingActive_same (s : WhisperTranscriber) :
  set_processingActive s (_processingActive s) = s.
Proof. destruct s; reflexivity. Qed.

Lemma forward_no_engine (s : WhisperTranscriber) (t : string) :
  existsb is_engine_call (Forward s t) = false.
Proof.
  unfold forward. destruct (negb (is_empty t)); [| reflexivity].
  destruct (_speech_audio_device s) as [[|] |]; try reflexivity;
    destruct (negb (is_empty _)); reflexivity.
Qed.

(** A call in closed form: a block that is admitted reaches the engine and
    the call returns whether the engine succeeded; any other block returns
    false with no event; the object is as before either way. *)
Lemma Transcribe_eq (s : WhisperTranscriber) (pcmf32 : list float) :
  Transcribe s pcmf32
  = if admitted s pcmf32 then
      (whisper_full pcmf32 =? 0, s,
       WhisperFull pcmf32
       :: (if whisper_full pcmf32 =? 0
           then Forward s (fullTranscription_of (segment_texts pcmf32))
           else []))
    else (false, s, []).
Proof.
  unfold TranscribeAudioNonBlocking, admitted, forward.
  destruct s as [dev pool ctx rb run pa acc oc inv since sil].
  cbn [_processingActive _whisperContext _speech_audio_device set_processingActive].
  destruct pa; [reflexivity |]. destruct ctx; cbn [negb andb]; [| reflexivity].
  destruct (size pcmf32 =? 0) eqn:E0.
  { apply Z.eqb_eq in E0.
    assert (E1 : (kSampleRate <=? size pcmf32) = false)
      by (apply Z.leb_gt; unfold kSampleRate; lia).
    rewrite E1. reflexivity. }
  destruct (size pcmf32 <? kSampleRate) eqn:E1.
  { apply Z.ltb_lt in E1.
    assert (E1' : (kSampleRate <=? size pcmf32) = false) by (apply Z.leb_gt; exact E1).
    rewrite E1'. reflexivity. }
  apply Z.ltb_ge in E1.
  assert (E1' : (kSampleRate <=? size pcmf32) = true) by (apply Z.leb_le; exact E1).
  rewrite E1'. cbn [orb andb].
  destruct (size pcmf32 >? kTargetSamples) eqn:E2; rewrite Z.gtb_ltb in E2.
  { apply Z.ltb_lt in E2.
    assert (E2' : (size pcmf32 <=? kTargetSamples) = false) by (apply Z.leb_gt; exact E2).
    rewrite E2'. reflexivity. }
  apply Z.ltb_ge in E2.
  assert (E2' : (size pcmf32 <=? kTargetSamples) = true) by (apply Z.leb_le; exact E2).
  rewrite E2'. cbn [andb].
  destruct (validInput_of pcmf32); reflexivity.
Qed.

(** Forwarding in closed form: one event when the text has content and a
    device is attached, none otherwise. *)
Lemma fullTranscription_empty (texts : list (option string)) :
  is_empty (fullTranscription_of texts) = negb (existsb has_text texts).
Proof.
  induction texts as [| [t |] rest IH]; cbn [fullTranscription_of existsb has_text].
  - reflexivity.
  - destruct t as [| c t']; cbn [String.length is_empty negb orb].
    + exact IH.
    + reflexivity.
  - exact IH.
Qed.

(** A task in closed form. *)
Lemma Task_eq (s : WhisperTranscriber) (localAudioBuffer : list byte) :
  Task s localAudioBuffer
  = if _whisperContext s && negb (size localAudioBuffer =? 0)
       && (size localAudioBuffer mod 2 =? 0)
       && admitted s (Pcm16.pcmf32_of localAudioBuffer)
    then
      (s, WhisperFull (Pcm16.pcmf32_of localAudioBuffer)
          :: (if whisper_full (Pcm16.pcmf32_of localAudioBuffer) =? 0
              then Forward s (fullTranscription_of
                                (segment_texts (Pcm16.pcmf32_of localAudioBuffer)))
              else []))
    else (s, []).
Proof.
  unfold transcription_task.
  destruct (_whisperContext s && negb (size localAudioBuffer =? 0)); [| reflexivity].
  destruct (size localAudioBuffer mod 2 =? 0); cbn [negb andb]; [| reflexivity].
  rewrite Transcribe_eq. destruct (admitted s _); reflexivity.
Qed.

(** X11. Taken alone, a call of the adapter or a task leaves the object
    exactly as it found it, the guard included, whatever the block and
    whatever the engine answers. *)
Theorem adapter_leaves_object_unchanged (s : WhisperTranscriber)
    (pcmf32 : list float) (localAudioBuffer : list byte) :
  snd (fst (Transcribe s pcmf32)) = s
  /\ fst (Task s localAudioBuffer) = s.
Proof.
  rewrite Transcribe_eq, Task_eq.
  split; [destruct (admitted s pcmf32) | destruct (_ && _)]; reflexivity.
Qed.

(** X12. The engine is called exactly on the blocks that pass every check
    (guard clear, context loaded, between 16000 and 384000 samples, every
    sample valid), then once, first of all and on the block as given; the
    call returns true exactly when such a block made the engine answer
    zero. *)
Theorem engine_is_called_iff_admitted (s : WhisperTranscriber) (pcmf32 : list float) :
  let evs := snd (Transcribe s pcmf32) in
  existsb is_engine_call evs = admitted s pcmf32
  /\ filter is_engine_call evs = (if admitted s pcmf32 then [WhisperFull pcmf32] else [])
  /\ (exists rest, evs = if admitted s pcmf32 then WhisperFull pcmf32 :: rest else [])
  /\ fst (fst (Transcribe s pcmf32)) = admitted s pcmf32 && (whisper_full pcmf32 =? 0).
Proof.
  cbv zeta. rewrite Transcribe_eq.
  destruct (admitted s pcmf32); cbn [fst snd existsb filter is_engine_call orb andb].
  - assert (Hf : forall t, filter is_engine_call (Forward s t) = []).
    { intros t. pose proof (forward_no_engine s t) as H.
      induction (Forward s t) as [| e l IH]; [reflexivity |].
      cbn [existsb filter] in *. apply orb_false_iff in H. destruct H as [H1 H2].
      rewrite H1. apply IH. exact H2. }
    split; [reflexivity |]. split; [| split; [eexists; reflexivity | reflexivity]].
    destruct (whisper_full pcmf32 =? 0); [rewrite Hf |]; reflexivity.
  - split; [reflexivity |]. split; [reflexivity |].
    split; [exists []; reflexivity | reflexivity].
Qed.

(** X13. A text is forwarded exactly when the call returns true, some
    segment has a text that is neither null nor empty, the text cleaned of
    its annotations is not empty and a device is attached; then exactly one
    text is forwarded, the cleaned one, to [askLlama] when the device is in
    that mode and to [speakText] otherwise. *)
Theorem text_is_forwarded_iff (s : WhisperTranscriber) (pcmf32 : list float) :
  let text := strip_annotations (fullTranscription_of (segment_texts pcmf32)) in
  text_events (snd (Transcribe s pcmf32))
  = if fst (fst (Transcribe s pcmf32))
       && existsb has_text (segment_texts pcmf32)
       && negb (is_empty text)
    then
      match _speech_audio_device s with
      | Some llaming => [if llaming then AskLlama text else SpeakText text]
      | None => []
      end
    else [].
Proof.
  cbv zeta. rewrite Transcribe_eq.
  destruct (admitted s pcmf32); cbn [fst snd text_events filter is_engine_call negb andb];
    [| reflexivity].
  destruct (whisper_full pcmf32 =? 0); cbn [andb filter]; [| reflexivity].
  unfold forward. rewrite fullTranscription_empty, negb_involutive.
  destruct (existsb has_text (segment_texts pcmf32)); cbn [andb]; [| reflexivity].
  destruct (_speech_audio_device s) as [[|] |];
    destruct (negb (is_empty _)); reflexivity.
Qed.

(** X14. A task calls the engine exactly when the adapter is idle, the
    model is loaded and the block is of even size between 32000 and 768000
    bytes; the engine then gets one sample for every two bytes.  The
    validation of the samples never stops a task. *)
Theorem task_reaches_engine_iff (s : WhisperTranscriber) (localAudioBuffer : list byte) :
  let evs := snd (Task s localAudioBuffer) in
  let reached :=
    negb (_processingActive s) && _whisperContext s
    && (size localAudioBuffer mod 2 =? 0)
    && (32000 <=? size localAudioBuffer) && (size localAudioBuffer <=? 768000) in
  existsb is_engine_call evs = reached
  /\ filter is_engine_call evs
     = (if reached then [WhisperFull (Pcm16.pcmf32_of localAudioBuffer)] else [])
  /\ (reached = true ->
      size (Pcm16.pcmf32_of localAudioBuffer) * 2 = size localAudioBuffer).
Proof.
  cbv zeta. rewrite Task_eq. unfold admitted.
  rewrite Pcm16More.pcmf32_of_valid, Pcm16More.pcmf32_of_size, andb_true_r.
  destruct (_processingActive s); cbn [negb andb];
    [rewrite !andb_false_r; repeat split; discriminate |].
  destruct (_whisperContext s); cbn [andb]; [| repeat split; discriminate].
  destruct (size localAudioBuffer mod 2 =? 0) eqn:Eeven; cbn [andb];
    [| rewrite andb_false_r; repeat split; discriminate].
  apply Z.eqb_eq in Eeven.
  assert (Hhalf : (size localAudioBuffer + 1) / 2 * 2 = size localAudioBuffer)
    by (Z.div_mod_to_equations; lia).
  assert (E1 : (kSampleRate <=? (size localAudioBuffer + 1) / 2)
               = (32000 <=? size localAudioBuffer)).
  { unfold kSampleRate. destruct (32000 <=? size localAudioBuffer) eqn:E;
      [apply Z.leb_le in E; apply Z.leb_le | apply Z.leb_gt in E; apply Z.leb_gt]; lia. }
  assert (E2 : ((size localAudioBuffer + 1) / 2 <=? kTargetSamples)
               = (size localAudioBuffer <=? 768000)).
  { unfold kTargetSamples, kSampleRate. destruct (size localAudioBuffer <=? 768000) eqn:E;
      [apply Z.leb_le in E; apply Z.leb_le | apply Z.leb_gt in E; apply Z.leb_gt]; lia. }
  rewrite E1, E2.
  destruct (32000 <=? size localAudioBuffer) eqn:Elo; cbn [andb];
    [| rewrite andb_false_r; repeat split; discriminate].
  apply Z.leb_le in Elo.
  assert (E0 : (size localAudioBuffer =? 0) = false) by (apply Z.eqb_neq; lia).
  rewrite E0. cbn [negb andb].
  destruct (size localAudioBuffer <=? 768000); cbn [snd existsb filter is_engine_call orb];
    [| repeat split; discriminate].
  assert (Hf : forall t, filter is_engine_call (Forward s t) = []
                         /\ existsb is_engine_call (Forward s t) = false).
  { intros t. pose proof (forward_no_engine s t) as H. split; [| exact H].
    induction (Forward s t) as [| e l IH]; [reflexivity |].
    cbn [existsb filter] in *. apply orb_false_iff in H. destruct H as [H1 H2].
    rewrite H1. apply IH. exact H2. }
  split; [reflexivity |]. split; [| intros _; exact Hhalf].
  destruct (whisper_full _ =? 0); [rewrite (proj1 (Hf _)) |]; reflexivity.
Qed.

End WithEngine.

End AdapterMore.

(** ** The consumer and the pipeline *)

Module PipelineFacts.
Import Segmenter Pipeline SegmenterMore.

(** A call of [RunProcessingThread] in closed form: with the flag set and
    bytes to read, the unread bytes become one pending task and the ring
    buffer is empty; otherwise nothing changes. *)
Lemma RunProcessingThread_eq (fuel : nat) (s : WhisperTranscriber) :
  Consumer.RunProcessingThread (S fuel) s
  = Some (true,
          if _running s && (AudioRingBuffer.availableToRead (_audioBuffer s) >? 0)
          then
            set_task_queue_pool
              (set_audioBuffer s
                 (AudioRingBuffer.mk (AudioRingBuffer.capacity (_audioBuffer s)) []))
              (_task_queue_pool s ++ [AudioRingBuffer.unread (_audioBuffer s)])
          else s).
Proof.
  unfold Consumer.RunProcessingThread. cbn [Consumer.processing_loop].
  destruct (_running s && _) eqn:E.
  - unfold AudioRingBuffer.read.
    apply andb_true_iff in E. destruct E as [Hrun Havail].
    rewrite Z.gtb_ltb in Havail. apply Z.ltb_lt in Havail.
    assert (E0 : (AudioRingBuffer.availableToRead (_audioBuffer s) =? 0) = false)
      by (apply Z.eqb_neq; lia).
    rewrite E0. unfold AudioRingBuffer.availableToRead.
    rewrite firstn_size, skipn_size.
    destruct s as [dev pool ctx rb run act acc oc inv sv sil];
      cbn [set_audioBuffer set_task_queue_pool _audioBuffer _task_queue_pool].
    destruct fuel; cbn [Consumer.processing_loop _running _audioBuffer];
      unfold AudioRingBuffer.availableToRead; cbn [AudioRingBuffer.unread];
      change (size (@nil byte) >? 0) with false; rewrite andb_false_r; reflexivity.
  - destruct fuel; reflexivity.
Qed.

(** X15. One call of [RunProcessingThread] returns true; with the running
    flag set and bytes in the ring buffer it takes all of them in one read,
    hands them in their order to the pool as one new task behind the
    pending ones, and leaves the ring buffer empty with its capacity; with
    the flag clear or nothing to read it changes nothing, so what is in the
    ring buffer when the flag is cleared stays there. *)
Theorem consumer_round_drains (fuel : nat) (s : WhisperTranscriber) :
  exists s',
    Consumer.RunProcessingThread (S fuel) s = Some (true, s')
    /\ (if _running s && (AudioRingBuffer.availableToRead (_audioBuffer s) >? 0)
        then
          _task_queue_pool s'
          = _task_queue_pool s ++ [AudioRingBuffer.unread (_audioBuffer s)]
          /\ AudioRingBuffer.unread (_audioBuffer s') = []
          /\ AudioRingBuffer.capacity (_audioBuffer s')
             = AudioRingBuffer.capacity (_audioBuffer s)
          /\ _accumulatedByteBuffer s' = _accumulatedByteBuffer s
          /\ _inVoiceSegment s' = _inVoiceSegment s
        else s' = s).
Proof.
  eexists. split; [apply RunProcessingThread_eq |].
  destruct (_running s && _); [repeat split | reflexivity].
Qed.

(** X16. The rounds of the consumer thread queue the content of the ring
    buffer once: the first call of [RunProcessingThread] gives the state
    that every later call returns unchanged, so that, left alone, the thread
    is in that state after any number of rounds, with no empty task and no
    task queued twice. *)
Theorem thread_rounds_queue_once (fuel : nat) (s : WhisperTranscriber) :
  exists s1,
    Consumer.RunProcessingThread (S fuel) s = Some (true, s1)
    /\ Consumer.RunProcessingThread (S fuel) s1 = Some (true, s1)
    /\ forall rounds, Consumer.thread_body (S rounds) (S fuel) s = Consumer.StillLooping s1.
Proof.
  eexists. split; [apply RunProcessingThread_eq |].
  set (s1 := if _running s && _ then _ else s).
  assert (Hidem : Consumer.RunProcessingThread (S fuel) s1 = Some (true, s1)).
  { rewrite RunProcessingThread_eq.
    assert (E : _running s1 && (AudioRingBuffer.availableToRead (_audioBuffer s1) >? 0)
                = false); [| rewrite E; reflexivity].
    unfold s1. destruct (_running s && _) eqn:E; [| exact E].
    destruct s as [dev pool ctx rb run act acc oc inv sv sil].
    cbn [set_task_queue_pool set_audioBuffer _running _audioBuffer].
    apply andb_false_r. }
  split; [exact Hidem |].
  intros rounds. cbn [Consumer.thread_body]. rewrite RunProcessingThread_eq. fold s1.
  induction rounds as [| rounds IH]; [reflexivity |].
  cbn [Consumer.thread_body]. rewrite Hidem. exact IH.
Qed.

(** What a write of at least one second of whole samples does to the ring
    buffer and the overflow count. *)
Lemma ring_after_facts (s : WhisperTranscriber) (data : list byte) :
  invariant s ->
  size data mod 2 = 0 ->
  kSampleRate * 2 <= size data ->
  size (AudioRingBuffer.unread (ring_after s data)) mod 2 = 0
  /\ AudioRingBuffer.availableToRead (ring_after s data)
     <= AudioRingBuffer.capacity (ring_after s data)
  /\ 0 < AudioRingBuffer.capacity (ring_after s data)
  /\ AudioRingBuffer.capacity (ring_after s data) mod kRingBufferSizeIncrement = 0
  /\ 0 <= count_after s data <= 10
  /\ (AudioRingBuffer.availableToRead (ring_after s data) = 0
      \/ kSampleRate * 2 <= AudioRingBuffer.availableToRead (ring_after s data)).
Proof.
  intros (_ & Hun & _ & Hav & Hpos & Hmul & Hc & _ & _ & Hmin) Hd Hlo.
  unfold ring_after, count_after, fits.
  destruct (_ <=? _) eqn:E.
  - apply Z.leb_le in E.
    unfold AudioRingBuffer.availableToRead in *.
    cbn [AudioRingBuffer.unread AudioRingBuffer.capacity].
    rewrite SegmenterFacts.size_app.
    pose proof (SegmenterFacts.size_nonneg (AudioRingBuffer.unread (_audioBuffer s))).
    repeat split; try assumption; try lia.
    rewrite Z.add_mod, Hun, Hd by lia. reflexivity.
  - destruct (OverflowMore.handleOverflow_step s Hc) as (H1 & H2 & H3).
    unfold AudioRingBuffer.availableToRead in *. rewrite H1, H2, H3.
    assert (Hq : 0 <= (_overflowCount s + 1) / 11) by (apply Z.div_pos; lia).
    assert (Hi : 0 < kRingBufferSizeIncrement) by reflexivity.
    pose proof (OverflowMore.count_in_range (_overflowCount s + 1)).
    repeat split; try assumption; try nia.
    rewrite Z.mod_add by lia. exact Hmul.
Qed.

Lemma size_even_skipn (l : list byte) (n : Z) :
  size l mod 2 = 0 -> n mod 2 = 0 -> 0 <= n <= size l ->
  size (skipn (Z.to_nat n) l) mod 2 = 0.
Proof.
  intros Hl Hn Hr. rewrite SegmenterFacts.size_skipn by exact Hr.
  Z.div_mod_to_equations. lia.
Qed.

Lemma currentBuffer_even (playoutBuffer : list byte) :
  size (Pcm16.currentBuffer_of (Pcm16.int16Buffer_of playoutBuffer)) mod 2 = 0.
Proof.
  rewrite Pcm16Facts.currentBuffer_size, Z.mul_comm. apply Z.mod_mul. lia.
Qed.

Lemma wrap64_range (z : Z) : 0 <= wrap64 z < size_max.
Proof. unfold wrap64. apply Z.mod_pos_bound. reflexivity. Qed.

(** A block keeps the invariant. *)
Lemma ProcessAudioBuffer_invariant (s : WhisperTranscriber) (avgAmplitude : float)
    (playoutBuffer : list byte) :
  invariant s ->
  invariant (fst (ProcessAudioBuffer s avgAmplitude playoutBuffer)).
Proof.
  intros Hinv.
  pose proof Hinv as
    (Hacc & Hun & Hpool & Hav & Hpos & Hmul & Hc & Hsil & Hvoice & Hmin).
  pose proof (currentBuffer_even playoutBuffer) as Hcur.
  set (cur := Pcm16.currentBuffer_of (Pcm16.int16Buffer_of playoutBuffer)) in *.
  assert (Hsz0 : 0 <= size (_accumulatedByteBuffer s))
    by apply SegmenterFacts.size_nonneg.
  assert (Hsz1 : 0 <= size cur) by apply SegmenterFacts.size_nonneg.
  destruct (voicePresent_of (_inVoiceSegment s) avgAmplitude) eqn:Ev.
  - rewrite (voiced_block_eq s avgAmplitude playoutBuffer Ev). cbv zeta. fold cur.
    assert (Hacc1 : size (_accumulatedByteBuffer s ++ cur) mod 2 = 0).
    { rewrite SegmenterFacts.size_app, Z.add_mod, Hacc, Hcur by lia. reflexivity. }
    destruct (_ >=? kTargetSamples) eqn:E; cbn [fst]; unfold invariant;
      cbn [_accumulatedByteBuffer _audioBuffer _task_queue_pool _overflowCount
           _silentSamplesCount _inVoiceSegment _processingActive].
    + apply Z.geb_le in E.
      assert (Hr : 0 <= kTargetSamples <= size (_accumulatedByteBuffer s ++ cur))
        by (unfold kTargetSamples, kSampleRate in *; lia).
      destruct (ring_after_facts s
                  (firstn (Z.to_nat kTargetSamples) (_accumulatedByteBuffer s ++ cur))
                  Hinv) as (R1 & R2 & R3 & R4 & R5 & R6).
      { rewrite SegmenterFacts.size_firstn by exact Hr. reflexivity. }
      { rewrite SegmenterFacts.size_firstn by exact Hr.
        unfold kTargetSamples, kSampleRate. lia. }
      split; [apply size_even_skipn; [exact Hacc1 | reflexivity | exact Hr] |].
      repeat split; try assumption; try (unfold size_max; lia);
        solve [intros _; reflexivity].
    + repeat split; try assumption; try (unfold size_max; lia);
        solve [intros _; reflexivity].
  - rewrite (silent_block_eq s avgAmplitude playoutBuffer Ev). cbv zeta. fold cur.
    pose proof (wrap64_range (_silentSamplesCount s + size cur)) as Hw.
    destruct (_inVoiceSegment s && _) eqn:Eend;
      [destruct (_ >=? kSampleRate * 2) eqn:E |]; cbn [fst]; unfold invariant;
      cbn [_accumulatedByteBuffer _audioBuffer _task_queue_pool _overflowCount
           _silentSamplesCount _inVoiceSegment _processingActive].
    + apply Z.geb_le in E.
      assert (Hr : 0 <= Z.min (size (_accumulatedByteBuffer s)) kTargetSamples
                   <= size (_accumulatedByteBuffer s))
        by (unfold kTargetSamples, kSampleRate; lia).
      assert (Hn : Z.min (size (_accumulatedByteBuffer s)) kTargetSamples mod 2 = 0).
      { destruct (Z.min_spec (size (_accumulatedByteBuffer s)) kTargetSamples)
          as [[_ ->] | [_ ->]]; [exact Hacc | reflexivity]. }
      destruct (ring_after_facts s
                  (firstn (Z.to_nat (Z.min (size (_accumulatedByteBuffer s)) kTargetSamples))
                     (_accumulatedByteBuffer s)) Hinv) as (R1 & R2 & R3 & R4 & R5 & R6).
      { rewrite SegmenterFacts.size_firstn by exact Hr. exact Hn. }
      { rewrite SegmenterFacts.size_firstn by exact Hr.
        unfold kTargetSamples, kSampleRate in *. lia. }
      split; [apply size_even_skipn; assumption |].
      repeat split; try assumption; try (unfold size_max; lia); discriminate.
    + repeat split; try assumption; try (unfold size_max; lia); discriminate.
    + repeat split; try assumption; try lia; [].
      intros Hin. rewrite Hin in Eend. cbn [andb] in Eend.
      destruct (Z.lt_ge_cases (wrap64 (_silentSamplesCount s + size cur)) kSilenceSamples)
        as [H | H]; [exact H |].
      apply Z.geb_le in H. congruence.
Qed.

(** Replacing the pending tasks by well-formed ones keeps the invariant,
    and so does a change of the running flag. *)
Lemma invariant_pool (s : WhisperTranscriber) (pool : list (list byte)) :
  invariant s ->
  Forall (fun block => kSampleRate * 2 <= size block /\ size block mod 2 = 0) pool ->
  invariant (set_task_queue_pool s pool).
Proof.
  intros (H1 & H2 & _ & H4) Hpool.
  destruct s as [dev pool0 ctx rb run act acc oc inv sv sil].
  unfold invariant. cbn in *. tauto.
Qed.

Lemma invariant_running (s : WhisperTranscriber) (running : bool) :
  invariant s -> invariant (set_running s running).
Proof. destruct s as [dev pool0 ctx rb run act acc oc inv sv sil]. exact (fun H => H). Qed.

Lemma invariant_guard (s : WhisperTranscriber) (guard : bool) :
  invariant s -> invariant (set_processingActive s guard).
Proof. destruct s as [dev pool0 ctx rb run act acc oc inv sv sil]. exact (fun H => H). Qed.

Lemma pending_without (pool : list (list byte)) (position : nat) (block : list byte)
    (P : list byte -> Prop) :
  nth_error pool position = Some block ->
  Forall P pool ->
  P block /\ Forall P (firstn position pool ++ skipn (S position) pool).
Proof.
  intros Hnth Hall.
  destruct (nth_error_split pool position Hnth) as (l1 & l2 & -> & <-).
  apply Forall_app in Hall. destruct Hall as [Hl1 Hl2].
  apply Forall_cons_iff in Hl2. destruct Hl2 as [Hb Hl2].
  split; [exact Hb |].
  rewrite firstn_app, firstn_all, Nat.sub_diag, firstn_O, app_nil_r.
  replace (S (List.length l1)) with (List.length l1 + 1)%nat by lia.
  rewrite skipn_app, skipn_all2 by lia.
  replace (List.length l1 + 1 - List.length l1)%nat with 1%nat by lia.
  apply Forall_app. split; [exact Hl1 | exact Hl2].
Qed.

Section WithEngine.

Variable whisper_full : list float -> Z.
Variable segment_texts : list float -> list (option string).
Variable strip_annotations : string -> string.

Local Abbreviation Step := (step whisper_full segment_texts strip_annotations).
Local Abbreviation Run := (run whisper_full segment_texts strip_annotations).
Local Abbreviation Task :=
  (transcription_task whisper_full segment_texts strip_annotations).

Lemma Task_state (s : WhisperTranscriber) (localAudioBuffer : list byte) :
  fst (Task s localAudioBuffer) = s.
Proof. rewrite AdapterMore.Task_eq. destruct (_ && _); reflexivity. Qed.

(** A task that begins: it is taken off the pending ones, its events are
    those of the task, and the guard is set afterwards when it was set
    before or the task is inside the engine. *)
Lemma step_task_begin (s : WhisperTranscriber) (position : nat) (block : list byte) :
  nth_error (_task_queue_pool s) position = Some block ->
  let s1 := set_task_queue_pool s
              (firstn position (_task_queue_pool s)
               ++ skipn (S position) (_task_queue_pool s)) in
  Step s (TaskBegin position)
  = (set_processingActive s1
       (_processingActive s || existsb is_engine_call (snd (Task s1 block))),
     snd (Task s1 block)).
Proof.
  intros Hnth. cbv zeta. cbn [step]. rewrite Hnth. cbv zeta. rewrite Task_state.
  destruct (existsb is_engine_call _).
  - rewrite orb_true_r. reflexivity.
  - rewrite orb_false_r.
    destruct s as [dev pool0 ctx rb run act acc oc inv sv sil]. reflexivity.
Qed.

(** Every step keeps the invariant. *)
Lemma step_invariant (s : WhisperTranscriber) (o : op) :
  invariant s -> invariant (fst (Step s o)).
Proof.
  intros Hinv.
  destruct o as [avgAmplitude playoutBuffer | | | position | position |]; cbn [step].
  - apply ProcessAudioBuffer_invariant. exact Hinv.
  - cbn [fst]. unfold Consumer.Start.
    destruct (negb (_running s)); [apply invariant_running |]; exact Hinv.
  - rewrite RunProcessingThread_eq. cbn [fst].
    destruct (_running s && _) eqn:E; [| exact Hinv].
    apply andb_true_iff in E. destruct E as [_ E].
    rewrite Z.gtb_ltb in E. apply Z.ltb_lt in E.
    pose proof Hinv as (H1 & H2 & H3 & H4 & H5 & H6 & H7 & H8 & H9 & H10).
    unfold AudioRingBuffer.availableToRead in E.
    destruct s as [dev pool0 ctx rb run act acc oc inv sv sil].
    unfold invariant, AudioRingBuffer.availableToRead in *.
    cbn [set_task_queue_pool set_audioBuffer _accumulatedByteBuffer _audioBuffer
         _task_queue_pool _overflowCount _silentSamplesCount _inVoiceSegment
         _processingActive AudioRingBuffer.unread AudioRingBuffer.capacity] in *.
    split; [exact H1 |]. split; [reflexivity |].
    split; [apply Forall_app; split; [exact H3 | constructor; [split; [lia | exact H2] | constructor]] |].
    split; [change (size (@nil byte)) with 0; lia |].
    split; [exact H5 |]. split; [exact H6 |]. split; [exact H7 |].
    split; [exact H8 |]. split; [exact H9 | left; reflexivity].
  - destruct (nth_error (_task_queue_pool s) position) as [block |] eqn:Hnth;
      [| exact Hinv].
    cbv zeta. rewrite Task_state.
    apply invariant_pool; [exact Hinv |].
    destruct Hinv as (_ & _ & H3 & _).
    exact (proj2 (pending_without _ _ _ _ Hnth H3)).
  - destruct (nth_error (_task_queue_pool s) position) as [block |] eqn:Hnth;
      [| exact Hinv].
    cbv zeta. rewrite Task_state.
    assert (Hpending : invariant
                         (set_task_queue_pool s
                            (firstn position (_task_queue_pool s)
                             ++ skipn (S position) (_task_queue_pool s)))).
    { apply invariant_pool; [exact Hinv |].
      destruct Hinv as (_ & _ & H3 & _).
      exact (proj2 (pending_without _ _ _ _ Hnth H3)). }
    cbn [fst]. destruct (existsb _ _); [apply invariant_guard |]; exact Hpending.
  - cbn [fst]. apply invariant_guard. exact Hinv.
Qed.

Lemma run_invariant (ops : list op) (s : WhisperTranscriber) :
  invariant s -> invariant (fst (Run s ops)).
Proof.
  revert s. induction ops as [| o rest IH]; intros s Hinv; [exact Hinv |].
  cbn [run]. pose proof (step_invariant s o Hinv) as H1.
  destruct (Step s o) as [s1 evs1]. specialize (IH s1 H1).
  destruct (Run s1 rest) as [s2 evs2]. exact IH.
Qed.

Lemma construct_invariant (speech_audio_device : option bool) (whisperContext : bool) :
  invariant (construct speech_audio_device whisperContext).
Proof.
  unfold invariant, construct.
  cbn [_accumulatedByteBuffer _audioBuffer _task_queue_pool _overflowCount
       _silentSamplesCount _inVoiceSegment _processingActive
       AudioRingBuffer.create AudioRingBuffer.unread AudioRingBuffer.capacity
       AudioRingBuffer.availableToRead].
  repeat split;
    first [reflexivity | discriminate | left; reflexivity | solve [constructor]].
Qed.

(** The events of a step: only a task has any. *)
Lemma step_events (s : WhisperTranscriber) (o : op) :
  snd (Step s o)
  = match o with
    | RunTask position =>
        match nth_error (_task_queue_pool s) position with
        | Some block =>
            snd (Task (set_task_queue_pool s
                         (firstn position (_task_queue_pool s)
                          ++ skipn (S position) (_task_queue_pool s))) block)
        | None => []
        end
    | TaskBegin position =>
        match nth_error (_task_queue_pool s) position with
        | Some block =>
            snd (Task (set_task_queue_pool s
                         (firstn position (_task_queue_pool s)
                          ++ skipn (S position) (_task_queue_pool s))) block)
        | None => []
        end
    | _ => []
    end.
Proof.
  destruct o as [avgAmplitude playoutBuffer | | | position | position |];
    cbn [step snd]; try reflexivity.
  - rewrite RunProcessingThread_eq. reflexivity.
  - destruct (nth_error _ position); reflexivity.
  - destruct (nth_error _ position); reflexivity.
Qed.

(** No step changes the model or the device. *)
Lemma step_frame (s : WhisperTranscriber) (o : op) :
  _whisperContext (fst (Step s o)) = _whisperContext s
  /\ _speech_audio_device (fst (Step s o)) = _speech_audio_device s.
Proof.
  destruct o as [avgAmplitude playoutBuffer | | | position | position |]; cbn [step fst].
  - destruct (voicePresent_of (_inVoiceSegment s) avgAmplitude) eqn:Ev.
    + rewrite (voiced_block_eq s avgAmplitude playoutBuffer Ev). cbv zeta.
      destruct (_ >=? kTargetSamples); repeat split.
    + rewrite (silent_block_eq s avgAmplitude playoutBuffer Ev). cbv zeta.
      destruct (_inVoiceSegment s && _); [destruct (_ >=? kSampleRate * 2) |];
        repeat split.
  - unfold Consumer.Start. destruct s as [dev pool0 ctx rb run act acc oc inv sv sil].
    destruct (negb _); repeat split.
  - rewrite RunProcessingThread_eq. cbn [fst].
    destruct s as [dev pool0 ctx rb run act acc oc inv sv sil].
    destruct (_ && _); repeat split.
  - destruct (nth_error _ position); [| repeat split].
    cbv zeta. rewrite Task_state.
    destruct s as [dev pool0 ctx rb run act acc oc inv sv sil]. repeat split.
  - destruct (nth_error _ position); [| repeat split].
    cbv zeta. rewrite Task_state.
    destruct s as [dev pool0 ctx rb run act acc oc inv sv sil].
    destruct (existsb _ _); repeat split.
  - destruct s as [dev pool0 ctx rb run act acc oc inv sv sil]. repeat split.
Qed.

Lemma run_cons (s : WhisperTranscriber) (o : op) (rest : list op) :
  Run s (o :: rest)
  = (fst (Run (fst (Step s o)) rest), snd (Step s o) ++ snd (Run (fst (Step s o)) rest)).
Proof.
  cbn [run]. destruct (Step s o) as [s1 evs1]. cbn [fst snd].
  destruct (Run s1 rest) as [s2 evs2]. reflexivity.
Qed.

Lemma run_frame (ops : list op) (s : WhisperTranscriber) :
  _whisperContext (fst (Run s ops)) = _whisperContext s
  /\ _speech_audio_device (fst (Run s ops)) = _speech_audio_device s.
Proof.
  revert s. induction ops as [| o rest IH]; intros s; [repeat split |].
  rewrite run_cons. cbn [fst].
  destruct (IH (fst (Step s o))) as (-> & ->). apply step_frame.
Qed.

(** Forwarding causes text events only, one at most, and only with a
    device attached. *)
Lemma forward_events (s : WhisperTranscriber) (t : string) :
  filter is_engine_call (forward strip_annotations s t) = []
  /\ size (text_events (forward strip_annotations s t)) <= 1
  /\ Forall (allowed s) (forward strip_annotations s t).
Proof.
  assert (Hnone : filter is_engine_call [] = []
                  /\ size (text_events []) <= 1 /\ Forall (allowed s) [])
    by (split; [reflexivity | split; [discriminate | constructor]]).
  unfold forward. destruct (negb (is_empty t)); [| exact Hnone].
  cbv zeta.
  destruct (_speech_audio_device s) as [llaming |] eqn:Hdev; [| exact Hnone].
  destruct (is_empty (strip_annotations t)) eqn:He; cbn [negb]; [exact Hnone |].
  destruct llaming;
    (split; [reflexivity | split; [discriminate |]]);
    (constructor; [split; [exact Hdev | exact He] | constructor]).
Qed.

(** The events of a task: none, or one call of the engine on an admitted
    block followed by what forwarding causes. *)
Lemma task_events (s : WhisperTranscriber) (localAudioBuffer : list byte) :
  let evs := snd (Task s localAudioBuffer) in
  Forall (allowed s) evs
  /\ size (text_events evs) <= size (filter is_engine_call evs) <= 1.
Proof.
  cbv zeta. rewrite AdapterMore.Task_eq.
  destruct (_ && _) eqn:E; cbn [snd];
    [| split; [constructor | split; discriminate]].
  apply andb_true_iff in E. destruct E as [_ Hadm].
  unfold admitted in Hadm.
  apply andb_true_iff in Hadm. destruct Hadm as [Hadm Hvalid].
  apply andb_true_iff in Hadm. destruct Hadm as [Hadm Hhi].
  apply andb_true_iff in Hadm. destruct Hadm as [Hadm Hlo].
  apply andb_true_iff in Hadm. destruct Hadm as [_ Hctx].
  apply Z.leb_le in Hlo, Hhi.
  set (pcm := Pcm16.pcmf32_of localAudioBuffer) in *.
  destruct (forward_events s (fullTranscription_of (segment_texts pcm)))
    as (Hf1 & Hf2 & Hf3).
  assert (Hcall : allowed s (WhisperFull pcm))
    by (cbn [allowed]; repeat split; assumption).
  unfold text_events in *.
  destruct (whisper_full pcm =? 0); cbn [filter is_engine_call negb].
  - rewrite Hf1. split; [constructor; assumption |].
    change (size [WhisperFull pcm]) with 1. lia.
  - split; [constructor; [assumption | constructor] |].
    split; discriminate.
Qed.

(** The same for a step. *)
Lemma step_events_allowed (s : WhisperTranscriber) (o : op) :
  let evs := snd (Step s o) in
  Forall (allowed s) evs
  /\ size (text_events evs) <= size (filter is_engine_call evs)
  /\ size (filter is_engine_call evs) <= tasks_run [o].
Proof.
  cbv zeta. rewrite step_events.
  destruct o as [avgAmplitude playoutBuffer | | | position | position |];
    try (split; [constructor | split; discriminate]).
  all: destruct (nth_error _ position) as [block |];
    [| split; [constructor | split; discriminate]].
  all: set (s1 := set_task_queue_pool s _).
  all: destruct (task_events s1 block) as (H1 & H2 & H3); cbv zeta in *.
  all: split; [| split; [exact H2 | exact H3]].
  all: assert (Hsame : forall e, allowed s1 e -> allowed s e)
    by (intros e; destruct s; exact (fun H => H)).
  all: eapply Forall_impl; [exact Hsame | exact H1].
Qed.

Lemma allowed_frame (s s' : WhisperTranscriber) (e : event) :
  _whisperContext s' = _whisperContext s ->
  _speech_audio_device s' = _speech_audio_device s ->
  allowed s' e -> allowed s e.
Proof.
  intros Hctx Hdev. destruct e; cbn [allowed]; rewrite ?Hctx, ?Hdev; exact (fun H => H).
Qed.

Lemma size_filter_app {A : Type} (f : A -> bool) (l1 l2 : list A) :
  size (filter f (l1 ++ l2)) = size (filter f l1) + size (filter f l2).
Proof. rewrite filter_app. apply SegmenterFacts.size_app. Qed.

(** X17. Whatever the producer, [Start], the consumer thread and the pool
    do, in any order and any number of times, the object stays well formed
    from the constructor on: the accumulator, the ring buffer and every
    pending task hold whole samples, a pending task and a ring buffer that
    is not empty hold at least one second of audio, the ring buffer is
    within its capacity, which is a positive multiple of the increment, the
    overflow count is ten at most, and the silence count is below its
    threshold inside a voice segment.  This holds also while a task is
    inside the engine with the guard set. *)
Theorem reachable_states_are_well_formed (speech_audio_device : option bool)
    (model_loaded : bool) (ops : list op) :
  invariant (fst (Run (construct speech_audio_device model_loaded) ops)).
Proof. apply run_invariant, construct_invariant. Qed.

(** X18. Over any sequence of steps from any state, every call of the
    engine is made with the model loaded, on a block of 16000 to 384000
    samples that are all valid; every text goes to the device attached, to
    the language model when the device's flag is set and to speech when it
    is not, and is not empty; there is one engine call at most for every
    task run and one text at most for every engine call. *)
Theorem events_of_a_run (s : WhisperTranscriber) (ops : list op) :
  let evs := snd (Run s ops) in
  Forall (allowed s) evs
  /\ size (text_events evs) <= size (filter is_engine_call evs)
  /\ size (filter is_engine_call evs) <= tasks_run ops.
Proof.
  cbv zeta. revert s. induction ops as [| o rest IH]; intros s.
  - split; [constructor | split; discriminate].
  - rewrite run_cons. cbn [snd].
    destruct (step_events_allowed s o) as (H1 & H2 & H3). cbv zeta in *.
    destruct (IH (fst (Step s o))) as (I1 & I2 & I3).
    destruct (step_frame s o) as (Hctx & Hdev).
    split; [apply Forall_app; split; [exact H1 |] |].
    + eapply Forall_impl; [| exact I1].
      intros e. apply allowed_frame; assumption.
    + unfold text_events in *. rewrite !size_filter_app.
      change (tasks_run (o :: rest)) with (size (filter is_task ([o] ++ rest))).
      rewrite size_filter_app. unfold tasks_run in *. lia.
Qed.

Lemma pending_size (pool : list (list byte)) (position : nat) (block : list byte) :
  nth_error pool position = Some block ->
  size (firstn position pool ++ skipn (S position) pool) = size pool - 1.
Proof.
  intros Hnth.
  destruct (nth_error_split pool position Hnth) as (l1 & l2 & -> & <-).
  rewrite firstn_app, firstn_all, Nat.sub_diag, firstn_O, app_nil_r.
  replace (S (List.length l1)) with (List.length l1 + 1)%nat by lia.
  rewrite skipn_app, skipn_all2 by lia.
  replace (List.length l1 + 1 - List.length l1)%nat with 1%nat by lia.
  unfold size. rewrite !length_app. cbn [skipn app List.length]. lia.
Qed.

(** X19. In every state the pipeline can reach from the constructor, also
    with another task inside the engine, a pending task that a thread of
    the pool runs is taken off the pending ones and calls the engine, once
    and on the samples of its block, exactly when the guard is clear, the
    model is loaded and the block has 768000 bytes at most; the block always
    has one second of audio at least and an even size.  So audio that
    reached the pool is lost in two ways only: the task starts while
    another holds the guard, or the block is above the upper bound of the
    adapter.  A task that begins and stays inside the engine has the same
    events and leaves the guard set. *)
Theorem pending_task_reaches_engine (speech_audio_device : option bool)
    (model_loaded : bool) (ops : list op) (position : nat) (block : list byte) :
  let s := fst (Run (construct speech_audio_device model_loaded) ops) in
  nth_error (_task_queue_pool s) position = Some block ->
  let r := Step s (RunTask position) in
  let b := Step s (TaskBegin position) in
  let reached :=
    negb (_processingActive s) && model_loaded && (size block <=? 2 * kTargetSamples) in
  filter is_engine_call (snd r)
  = (if reached then [WhisperFull (Pcm16.pcmf32_of block)] else [])
  /\ size (_task_queue_pool (fst r)) = size (_task_queue_pool s) - 1
  /\ _processingActive (fst r) = _processingActive s
  /\ kSampleRate <= size (Pcm16.pcmf32_of block)
  /\ size (Pcm16.pcmf32_of block) * 2 = size block
  /\ snd b = snd r
  /\ _processingActive (fst b) = _processingActive s || reached.
Proof.
  cbv zeta. intros Hnth.
  set (s := fst (Run (construct speech_audio_device model_loaded) ops)) in *.
  assert (Hinv : invariant s) by apply run_invariant, construct_invariant.
  destruct (run_frame ops (construct speech_audio_device model_loaded))
    as (Hctx & _). fold s in Hctx. cbn [construct _whisperContext] in Hctx.
  destruct Hinv as (_ & _ & Hpool & _).
  destruct (pending_without _ _ _ _ Hnth Hpool) as [[Hlo Heven] _].
  assert (Hhalf : (size block + 1) / 2 * 2 = size block)
    by (Z.div_mod_to_equations; lia).
  rewrite (step_task_begin s position block Hnth). cbv zeta.
  rewrite step_events. cbn [step fst snd]. rewrite Hnth. cbv zeta. rewrite Task_state.
  set (s1 := set_task_queue_pool s _).
  assert (Hpool1 : size (_task_queue_pool s1) = size (_task_queue_pool s) - 1)
    by (unfold s1; cbn [set_task_queue_pool _task_queue_pool];
        apply (pending_size _ _ block); exact Hnth).
  assert (Hctx1 : _whisperContext s1 = model_loaded) by exact Hctx.
  assert (Hguard1 : _processingActive s1 = _processingActive s) by reflexivity.
  rewrite Pcm16More.pcmf32_of_size.
  assert (Hcalls : filter is_engine_call (snd (Task s1 block))
                   = (if negb (_processingActive s) && model_loaded
                         && (size block <=? 2 * kTargetSamples)
                      then [WhisperFull (Pcm16.pcmf32_of block)] else [])
                   /\ existsb is_engine_call (snd (Task s1 block))
                      = negb (_processingActive s) && model_loaded
                        && (size block <=? 2 * kTargetSamples)).
  { rewrite AdapterMore.Task_eq. unfold admitted.
    rewrite Pcm16More.pcmf32_of_valid, Pcm16More.pcmf32_of_size, Hctx1, Hguard1, andb_true_r.
    assert (E0 : (size block =? 0) = false)
      by (apply Z.eqb_neq; unfold kSampleRate in *; lia).
    assert (E1 : (size block mod 2 =? 0) = true) by (apply Z.eqb_eq; exact Heven).
    assert (E2 : (kSampleRate <=? (size block + 1) / 2) = true)
      by (apply Z.leb_le; unfold kSampleRate in *; lia).
    assert (E3 : ((size block + 1) / 2 <=? kTargetSamples)
                 = (size block <=? 2 * kTargetSamples)).
    { destruct (size block <=? 2 * kTargetSamples) eqn:E;
        [apply Z.leb_le in E; apply Z.leb_le | apply Z.leb_gt in E; apply Z.leb_gt]; lia. }
    rewrite E0, E1, E2, E3. cbn [negb andb].
    destruct (_processingActive s); cbn [negb andb];
      [destruct model_loaded; split; reflexivity |].
    destruct model_loaded; cbn [andb snd filter existsb]; [| split; reflexivity].
    destruct (size block <=? 2 * kTargetSamples);
      cbn [snd filter existsb is_engine_call orb]; [| split; reflexivity].
    destruct (whisper_full _ =? 0); [| split; reflexivity].
    rewrite (proj1 (forward_events s1 _)). split; reflexivity. }
  destruct Hcalls as [Hfilter Hexists].
  split; [exact Hfilter |]. split; [exact Hpool1 |]. split; [reflexivity |].
  split; [unfold kSampleRate in *; lia |]. split; [exact Hhalf |].
  split; [reflexivity |].
  cbn [fst set_processingActive _processingActive]. rewrite Hexists. reflexivity.
Qed.

Lemma run_quiet (s : WhisperTranscriber) (o : op) (rest : list op) :
  is_task o = false -> Run s (o :: rest) = Run (fst (Step s o)) rest.
Proof.
  intros Ho. rewrite run_cons, step_events.
  destruct o; try discriminate; cbn [app]; destruct (Run _ rest); reflexivity.
Qed.

Lemma run_one (s : WhisperTranscriber) (o : op) : Run s [o] = Step s o.
Proof. rewrite run_cons. cbn [run fst snd]. rewrite app_nil_r. destruct (Step s o); reflexivity. Qed.

Lemma run_audio2 (s : WhisperTranscriber) (a1 a2 : float) (b1 b2 : list byte)
    (rest : list op) :
  Run s (Audio a1 b1 :: Audio a2 b2 :: rest)
  = Run (fst (feed s [(a1, b1); (a2, b2)])) rest.
Proof.
  rewrite 2 run_quiet by reflexivity. cbn [step fst feed].
  destruct (ProcessAudioBuffer s a1 b1) as [s1 ws1]. cbn [fst].
  destruct (ProcessAudioBuffer s1 a2 b2) as [s2 ws2]. reflexivity.
Qed.

(** A segment up to the pool: after the two blocks, [Start] and one call of
    the consumer, the voiced block is the one pending task and everything
    else is as constructed, the running flag apart. *)
Lemma segment_is_queued (speech_audio_device : option bool) (model_loaded : bool)
    (voiceAmplitude silenceAmplitude : float)
    (pairs : list (byte * byte)) (silence : list byte) :
  voicePresent_of false voiceAmplitude = true ->
  voicePresent_of true silenceAmplitude = false ->
  let voice := Pcm16.bytes_of_pairs pairs in
  32000 <= size voice < 384000 ->
  16000 <= size silence < size_max - 1 ->
  Run (construct speech_audio_device model_loaded)
    [Audio voiceAmplitude voice; Audio silenceAmplitude silence; StartThread; ConsumerRound]
  = (set_task_queue_pool
       (set_running (construct speech_audio_device model_loaded) true) [voice],
     []).
Proof.
  intros Hv Hq. cbv zeta. intros Hvoice Hsil.
  pose proof (segment_feed_eq (construct speech_audio_device model_loaded)
                voiceAmplitude silenceAmplitude pairs silence
                eq_refl eq_refl Hv Hq Hvoice Hsil) as Hfeed.
  revert Hfeed Hvoice.
  generalize (Pcm16.bytes_of_pairs pairs). intros voice Hfeed Hvoice.
  rewrite run_audio2, Hfeed. cbn [fst].
  assert (Hfits : fits (construct speech_audio_device model_loaded) voice = true).
  { apply Z.leb_le. cbn. lia. }
  unfold ring_after, count_after. rewrite Hfits.
  cbn [construct _audioBuffer _overflowCount _speech_audio_device _task_queue_pool
       _whisperContext _running _processingActive AudioRingBuffer.create
       AudioRingBuffer.capacity AudioRingBuffer.unread app].
  rewrite run_quiet by reflexivity.
  cbn [step fst]. unfold Consumer.Start, set_running.
  cbn [_running negb _speech_audio_device _task_queue_pool _whisperContext
       _audioBuffer _processingActive _accumulatedByteBuffer _overflowCount
       _inVoiceSegment _samplesSinceVoiceStart _silentSamplesCount].
  rewrite run_one.
  cbn [step]. rewrite RunProcessingThread_eq.
  assert (Havail : (size voice >? 0) = true) by (rewrite Z.gtb_ltb; apply Z.ltb_lt; lia).
  unfold set_task_queue_pool, set_audioBuffer, AudioRingBuffer.availableToRead.
  cbn [fst andb app AudioRingBuffer.unread AudioRingBuffer.capacity
       _running _speech_audio_device _task_queue_pool _whisperContext
       _audioBuffer _processingActive _accumulatedByteBuffer _overflowCount
       _inVoiceSegment _samplesSinceVoiceStart _silentSamplesCount].
  rewrite Havail. reflexivity.
Qed.

Lemma run_app (ops1 ops2 : list op) (s : WhisperTranscriber) :
  Run s (ops1 ++ ops2)
  = (fst (Run (fst (Run s ops1)) ops2),
     snd (Run s ops1) ++ snd (Run (fst (Run s ops1)) ops2)).
Proof.
  revert s. induction ops1 as [| o rest IH]; intros s.
  - cbn [app run fst snd]. destruct (Run s ops2); reflexivity.
  - cbn [app]. rewrite !run_cons, IH. cbn [fst snd]. rewrite app_assoc. reflexivity.
Qed.

(** X20. A segment from end to end: with the model loaded, a voiced block
    of whole samples between one second and the target, a block without
    voice of 16000 bytes or more, [Start], one call of the consumer and the
    task it queued make exactly one call of the engine, on the samples of
    the voiced block, followed by what forwarding its text causes; nothing
    stays in the accumulator, the ring buffer or the pool. *)
Theorem segment_reaches_engine (speech_audio_device : option bool)
    (voiceAmplitude silenceAmplitude : float)
    (pairs : list (byte * byte)) (silence : list byte) :
  voicePresent_of false voiceAmplitude = true ->
  voicePresent_of true silenceAmplitude = false ->
  let voice := Pcm16.bytes_of_pairs pairs in
  32000 <= size voice < 384000 ->
  16000 <= size silence < size_max - 1 ->
  let s := construct speech_audio_device true in
  let pcmf32 := Pcm16.pcmf32_of voice in
  Run s [Audio voiceAmplitude voice; Audio silenceAmplitude silence;
         StartThread; ConsumerRound; RunTask 0]
  = (set_running s true,
     WhisperFull pcmf32
     :: (if whisper_full pcmf32 =? 0
         then forward strip_annotations s (fullTranscription_of (segment_texts pcmf32))
         else []))
  /\ size pcmf32 = size pairs.
Proof.
  intros Hv Hq. cbv zeta. intros Hvoice Hsil.
  pose proof (segment_is_queued speech_audio_device true voiceAmplitude silenceAmplitude
                pairs silence Hv Hq Hvoice Hsil) as Hqueued.
  pose proof (bytes_of_pairs_size pairs) as Hsize.
  rewrite Pcm16More.pcmf32_of_size.
  split; [| rewrite Hsize; Z.div_mod_to_equations; lia].
  assert (Heven : size (Pcm16.bytes_of_pairs pairs) mod 2 = 0)
    by (rewrite Hsize, Z.mul_comm; apply Z.mod_mul; lia).
  clear Hsize. revert Hqueued Hvoice Heven.
  generalize (Pcm16.bytes_of_pairs pairs). intros voice Hqueued Hvoice Heven.
  change [Audio voiceAmplitude voice; Audio silenceAmplitude silence;
          StartThread; ConsumerRound; RunTask 0]
    with ([Audio voiceAmplitude voice; Audio silenceAmplitude silence;
           StartThread; ConsumerRound] ++ [RunTask 0]).
  rewrite run_app, Hqueued, run_one. cbn [fst snd app].
  unfold set_task_queue_pool, set_running, construct.
  cbn [step fst snd nth_error firstn skipn app
       _running _speech_audio_device _task_queue_pool _whisperContext
       _audioBuffer _processingActive _accumulatedByteBuffer _overflowCount
       _inVoiceSegment _samplesSinceVoiceStart _silentSamplesCount].
  unfold set_task_queue_pool.
  cbn [_running _speech_audio_device _task_queue_pool _whisperContext
       _audioBuffer _processingActive _accumulatedByteBuffer _overflowCount
       _inVoiceSegment _samplesSinceVoiceStart _silentSamplesCount].
  rewrite AdapterMore.Task_eq. unfold admitted.
  rewrite Pcm16More.pcmf32_of_valid, Pcm16More.pcmf32_of_size.
  cbn [_whisperContext _processingActive negb andb].
  assert (E0 : (size voice =? 0) = false) by (apply Z.eqb_neq; lia).
  assert (E1 : (size voice mod 2 =? 0) = true) by (apply Z.eqb_eq; exact Heven).
  assert (E2 : (kSampleRate <=? (size voice + 1) / 2) = true)
    by (apply Z.leb_le; unfold kSampleRate; Z.div_mod_to_equations; lia).
  assert (E3 : ((size voice + 1) / 2 <=? kTargetSamples) = true)
    by (apply Z.leb_le; unfold kTargetSamples, kSampleRate; Z.div_mod_to_equations; lia).
  rewrite E0, E1, E2, E3. cbn [negb andb fst snd].
  reflexivity.
Qed.

(** X21. What the consumer takes from the ring buffer in one read above
    768000 bytes is lost: with the running flag set, the call of the
    consumer queues the whole content as one task and empties the ring
    buffer, and the task, when run, calls nothing and leaves the pending
    tasks as they were before. *)
Theorem oversized_drain_is_dropped (s : WhisperTranscriber) :
  _running s = true ->
  2 * kTargetSamples < AudioRingBuffer.availableToRead (_audioBuffer s) ->
  let s1 := fst (Step s ConsumerRound) in
  let r := Step s1 (RunTask (List.length (_task_queue_pool s))) in
  _task_queue_pool s1 = _task_queue_pool s ++ [AudioRingBuffer.unread (_audioBuffer s)]
  /\ snd r = []
  /\ _task_queue_pool (fst r) = _task_queue_pool s
  /\ AudioRingBuffer.unread (_audioBuffer (fst r)) = [].
Proof.
  intros Hrun Hbig. cbv zeta. cbn [step].
  rewrite RunProcessingThread_eq. cbn [fst].
  assert (Havail : (AudioRingBuffer.availableToRead (_audioBuffer s) >? 0) = true)
    by (rewrite Z.gtb_ltb; apply Z.ltb_lt; unfold kTargetSamples, kSampleRate in Hbig; lia).
  rewrite Hrun, Havail. cbn [andb].
  unfold AudioRingBuffer.availableToRead in Hbig.
  destruct s as [dev pool ctx rb run act acc oc inv sv sil].
  cbn [set_task_queue_pool set_audioBuffer _task_queue_pool _audioBuffer] in *.
  split; [reflexivity |].
  rewrite nth_error_app2, Nat.sub_diag by lia. cbn [nth_error]. cbv zeta.
  rewrite firstn_app, firstn_all, Nat.sub_diag, firstn_O, app_nil_r.
  replace (S (List.length pool)) with (List.length pool + 1)%nat by lia.
  rewrite skipn_app, skipn_all2 by lia.
  replace (List.length pool + 1 - List.length pool)%nat with 1%nat by lia.
  cbn [skipn app]. rewrite app_nil_r.
  cbn [set_task_queue_pool].
  rewrite AdapterMore.Task_eq. unfold admitted.
  rewrite Pcm16More.pcmf32_of_size.
  assert (E3 : ((size (AudioRingBuffer.unread rb) + 1) / 2 <=? kTargetSamples) = false)
    by (apply Z.leb_gt; Z.div_mod_to_equations; lia).
  rewrite E3, !andb_false_r. cbn [andb fst snd _task_queue_pool _audioBuffer
                                   AudioRingBuffer.unread].
  repeat split.
Qed.

(** A segment up to the pool, from any state in the Silence state with
    nothing accumulated, an empty ring buffer that can hold the voiced block
    and the consumer running. *)
Lemma segment_queued_from (s : WhisperTranscriber)
    (voiceAmplitude silenceAmplitude : float)
    (pairs : list (byte * byte)) (silence : list byte) (rest : list op) :
  _inVoiceSegment s = false ->
  _accumulatedByteBuffer s = [] ->
  _running s = true ->
  AudioRingBuffer.unread (_audioBuffer s) = [] ->
  voicePresent_of false voiceAmplitude = true ->
  voicePresent_of true silenceAmplitude = false ->
  let voice := Pcm16.bytes_of_pairs pairs in
  32000 <= size voice < 384000 ->
  size voice <= AudioRingBuffer.capacity (_audioBuffer s) ->
  16000 <= size silence < size_max - 1 ->
  Run s (Audio voiceAmplitude voice :: Audio silenceAmplitude silence
         :: ConsumerRound :: rest)
  = Run (mkTranscriber (_speech_audio_device s) (_task_queue_pool s ++ [voice])
           (_whisperContext s)
           (AudioRingBuffer.mk (AudioRingBuffer.capacity (_audioBuffer s)) [])
           true (_processingActive s) [] (_overflowCount s) false 0 0) rest.
Proof.
  intros Hin Hacc Hrun Hempty Hv Hq. cbv zeta. intros Hvoice Hcap Hsil.
  pose proof (segment_feed_eq s voiceAmplitude silenceAmplitude pairs silence
                Hin Hacc Hv Hq Hvoice Hsil) as Hfeed.
  revert Hfeed Hvoice Hcap.
  generalize (Pcm16.bytes_of_pairs pairs). intros voice Hfeed Hvoice Hcap.
  rewrite run_audio2, Hfeed. cbn [fst].
  assert (Hfits : fits s voice = true).
  { apply Z.leb_le. unfold AudioRingBuffer.availableToRead. rewrite Hempty.
    change (size (@nil byte)) with 0. lia. }
  unfold ring_after, count_after. rewrite Hfits, Hempty, Hrun. cbn [app].
  rewrite run_quiet by reflexivity.
  cbn [step]. rewrite RunProcessingThread_eq.
  assert (Havail : (size voice >? 0) = true) by (rewrite Z.gtb_ltb; apply Z.ltb_lt; lia).
  unfold set_task_queue_pool, set_audioBuffer, AudioRingBuffer.availableToRead.
  cbn [fst andb app AudioRingBuffer.unread AudioRingBuffer.capacity
       _running _speech_audio_device _task_queue_pool _whisperContext
       _audioBuffer _processingActive _accumulatedByteBuffer _overflowCount
       _inVoiceSegment _samplesSinceVoiceStart _silentSamplesCount].
  rewrite Havail. reflexivity.
Qed.

(** A task whose block is of even size between 32000 and 768000 bytes, run
    with the model loaded: with the guard clear it reaches the engine, with
    the guard set it does nothing. *)
Lemma Task_reaches (s : WhisperTranscriber) (block : list byte) :
  _whisperContext s = true ->
  _processingActive s = false ->
  size block mod 2 = 0 ->
  32000 <= size block <= 768000 ->
  let pcmf32 := Pcm16.pcmf32_of block in
  Task s block
  = (s, WhisperFull pcmf32
        :: (if whisper_full pcmf32 =? 0
            then forward strip_annotations s (fullTranscription_of (segment_texts pcmf32))
            else [])).
Proof.
  intros Hctx Hguard Heven Hsize. cbv zeta.
  rewrite AdapterMore.Task_eq. unfold admitted.
  rewrite Pcm16More.pcmf32_of_valid, Pcm16More.pcmf32_of_size, Hctx, Hguard.
  assert (E0 : (size block =? 0) = false) by (apply Z.eqb_neq; lia).
  assert (E1 : (size block mod 2 =? 0) = true) by (apply Z.eqb_eq; exact Heven).
  assert (E2 : (kSampleRate <=? (size block + 1) / 2) = true)
    by (apply Z.leb_le; unfold kSampleRate; Z.div_mod_to_equations; lia).
  assert (E3 : ((size block + 1) / 2 <=? kTargetSamples) = true)
    by (apply Z.leb_le; unfold kTargetSamples, kSampleRate; Z.div_mod_to_equations; lia).
  rewrite E0, E1, E2, E3. reflexivity.
Qed.

Lemma Task_guarded (s : WhisperTranscriber) (block : list byte) :
  _processingActive s = true -> Task s block = (s, []).
Proof.
  intros Hguard. rewrite AdapterMore.Task_eq. unfold admitted. rewrite Hguard.
  cbn [negb andb]. rewrite !andb_false_r. reflexivity.
Qed.

Lemma existsb_engine_call_cons (pcmf32 : list float) (evs : list event) :
  existsb is_engine_call (WhisperFull pcmf32 :: evs) = true.
Proof. reflexivity. Qed.

(** Two segments in the pool: after [Start], two segments, each followed by
    a call of the consumer, both voiced blocks are pending, in their
    order. *)
Lemma two_tasks_queued (speech_audio_device : option bool)
    (voiceAmplitude silenceAmplitude : float)
    (pairs1 pairs2 : list (byte * byte)) (silence : list byte) (rest : list op) :
  voicePresent_of false voiceAmplitude = true ->
  voicePresent_of true silenceAmplitude = false ->
  let voice1 := Pcm16.bytes_of_pairs pairs1 in
  let voice2 := Pcm16.bytes_of_pairs pairs2 in
  32000 <= size voice1 < 384000 ->
  32000 <= size voice2 < 384000 ->
  16000 <= size silence < size_max - 1 ->
  Run (construct speech_audio_device true)
    (StartThread :: Audio voiceAmplitude voice1 :: Audio silenceAmplitude silence
     :: ConsumerRound :: Audio voiceAmplitude voice2 :: Audio silenceAmplitude silence
     :: ConsumerRound :: rest)
  = Run (set_task_queue_pool
           (set_running (construct speech_audio_device true) true) [voice1; voice2])
      rest.
Proof.
  intros Hv Hq. cbv zeta. intros Hvoice1 Hvoice2 Hsil.
  assert (Hcap1 : size (Pcm16.bytes_of_pairs pairs1) <= kRingBufferSizeIncrement)
    by (unfold kRingBufferSizeIncrement, kSampleRate, kTargetDurationSeconds; lia).
  assert (Hcap2 : size (Pcm16.bytes_of_pairs pairs2) <= kRingBufferSizeIncrement)
    by (unfold kRingBufferSizeIncrement, kSampleRate, kTargetDurationSeconds; lia).
  rewrite run_quiet by reflexivity.
  cbn [step fst]. unfold Consumer.Start, set_running, construct.
  cbn [_running negb _speech_audio_device _task_queue_pool _whisperContext
       _audioBuffer _processingActive _accumulatedByteBuffer _overflowCount
       _inVoiceSegment _samplesSinceVoiceStart _silentSamplesCount].
  match goal with
  | |- run _ _ _ ?st _ = _ =>
      rewrite (segment_queued_from st voiceAmplitude silenceAmplitude pairs1 silence _
                 eq_refl eq_refl eq_refl eq_refl Hv Hq Hvoice1 Hcap1 Hsil)
  end.
  cbn [_running _speech_audio_device _task_queue_pool _whisperContext
       _audioBuffer _processingActive _accumulatedByteBuffer _overflowCount
       _inVoiceSegment _samplesSinceVoiceStart _silentSamplesCount
       AudioRingBuffer.create AudioRingBuffer.capacity app].
  match goal with
  | |- run _ _ _ ?st _ = _ =>
      rewrite (segment_queued_from st voiceAmplitude silenceAmplitude pairs2 silence _
                 eq_refl eq_refl eq_refl eq_refl Hv Hq Hvoice2 Hcap2 Hsil)
  end.
  reflexivity.
Qed.

(** The first of two queued tasks inside the engine: the guard is set and
    the second block is the one pending task. *)
Lemma first_task_inside (speech_audio_device : option bool)
    (voiceAmplitude silenceAmplitude : float)
    (pairs1 pairs2 : list (byte * byte)) (silence : list byte) :
  voicePresent_of false voiceAmplitude = true ->
  voicePresent_of true silenceAmplitude = false ->
  let voice1 := Pcm16.bytes_of_pairs pairs1 in
  let voice2 := Pcm16.bytes_of_pairs pairs2 in
  32000 <= size voice1 < 384000 ->
  32000 <= size voice2 < 384000 ->
  16000 <= size silence < size_max - 1 ->
  let s := construct speech_audio_device true in
  let pcmf32 := Pcm16.pcmf32_of voice1 in
  Run s [StartThread; Audio voiceAmplitude voice1; Audio silenceAmplitude silence;
         ConsumerRound; Audio voiceAmplitude voice2; Audio silenceAmplitude silence;
         ConsumerRound; TaskBegin 0]
  = (set_processingActive (set_task_queue_pool (set_running s true) [voice2]) true,
     WhisperFull pcmf32
     :: (if whisper_full pcmf32 =? 0
         then forward strip_annotations s (fullTranscription_of (segment_texts pcmf32))
         else [])).
Proof.
  intros Hv Hq. cbv zeta. intros Hvoice1 Hvoice2 Hsil.
  rewrite (two_tasks_queued speech_audio_device voiceAmplitude silenceAmplitude
             pairs1 pairs2 silence _ Hv Hq Hvoice1 Hvoice2 Hsil).
  assert (Heven1 : size (Pcm16.bytes_of_pairs pairs1) mod 2 = 0)
    by (rewrite bytes_of_pairs_size, Z.mul_comm; apply Z.mod_mul; lia).
  revert Hvoice1 Heven1.
  generalize (Pcm16.bytes_of_pairs pairs1) (Pcm16.bytes_of_pairs pairs2).
  intros voice1 voice2 Hvoice1 Heven1.
  unfold set_task_queue_pool, set_running, construct.
  cbn [_running _speech_audio_device _task_queue_pool _whisperContext
       _audioBuffer _processingActive _accumulatedByteBuffer _overflowCount
       _inVoiceSegment _samplesSinceVoiceStart _silentSamplesCount].
  rewrite run_one.
  rewrite (step_task_begin _ 0%nat voice1) by reflexivity. cbv zeta.
  unfold set_task_queue_pool.
  cbn [fst snd nth_error firstn skipn app
       _running _speech_audio_device _task_queue_pool _whisperContext
       _audioBuffer _processingActive _accumulatedByteBuffer _overflowCount
       _inVoiceSegment _samplesSinceVoiceStart _silentSamplesCount].
  rewrite Task_reaches by (try reflexivity; try assumption; lia).
  cbv zeta. cbn [snd]. rewrite existsb_engine_call_cons.
  reflexivity.
Qed.

(** X24. The second of two tasks is lost when it starts while the first is
    inside the engine: with the model loaded and two segments queued as two
    tasks, if the first task is still inside [whisper_full] when a thread
    of the pool runs the second, the engine is called on the first block
    only, the second block is taken off the pending ones without any call,
    and nothing is pending once the first task has returned; run one after
    the other, both tasks reach the engine, in their order. *)
Theorem second_task_is_dropped (speech_audio_device : option bool)
    (voiceAmplitude silenceAmplitude : float)
    (pairs1 pairs2 : list (byte * byte)) (silence : list byte) :
  voicePresent_of false voiceAmplitude = true ->
  voicePresent_of true silenceAmplitude = false ->
  let voice1 := Pcm16.bytes_of_pairs pairs1 in
  let voice2 := Pcm16.bytes_of_pairs pairs2 in
  32000 <= size voice1 < 384000 ->
  32000 <= size voice2 < 384000 ->
  16000 <= size silence < size_max - 1 ->
  let s := construct speech_audio_device true in
  let queue rest :=
    StartThread :: Audio voiceAmplitude voice1 :: Audio silenceAmplitude silence
    :: ConsumerRound :: Audio voiceAmplitude voice2 :: Audio silenceAmplitude silence
    :: ConsumerRound :: rest in
  let events_of block :=
    let pcmf32 := Pcm16.pcmf32_of block in
    WhisperFull pcmf32
    :: (if whisper_full pcmf32 =? 0
        then forward strip_annotations s (fullTranscription_of (segment_texts pcmf32))
        else []) in
  Run s (queue [TaskBegin 0; RunTask 0; TaskEnd])
  = (set_running s true, events_of voice1)
  /\ Run s (queue [RunTask 0; RunTask 0])
     = (set_running s true, events_of voice1 ++ events_of voice2).
Proof.
  intros Hv Hq. cbv zeta. intros Hvoice1 Hvoice2 Hsil. cbv beta.
  rewrite !(two_tasks_queued speech_audio_device voiceAmplitude silenceAmplitude
              pairs1 pairs2 silence _ Hv Hq Hvoice1 Hvoice2 Hsil).
  assert (Heven1 : size (Pcm16.bytes_of_pairs pairs1) mod 2 = 0)
    by (rewrite bytes_of_pairs_size, Z.mul_comm; apply Z.mod_mul; lia).
  assert (Heven2 : size (Pcm16.bytes_of_pairs pairs2) mod 2 = 0)
    by (rewrite bytes_of_pairs_size, Z.mul_comm; apply Z.mod_mul; lia).
  revert Hvoice1 Hvoice2 Heven1 Heven2.
  generalize (Pcm16.bytes_of_pairs pairs1) (Pcm16.bytes_of_pairs pairs2).
  intros voice1 voice2 Hvoice1 Hvoice2 Heven1 Heven2.
  unfold set_task_queue_pool, set_running, construct.
  cbn [_running _speech_audio_device _task_queue_pool _whisperContext
       _audioBuffer _processingActive _accumulatedByteBuffer _overflowCount
       _inVoiceSegment _samplesSinceVoiceStart _silentSamplesCount].
  split.
  - rewrite run_cons.
    rewrite (step_task_begin _ 0%nat voice1) by reflexivity. cbv zeta.
    unfold set_task_queue_pool.
    cbn [fst snd nth_error firstn skipn app
         _running _speech_audio_device _task_queue_pool _whisperContext
         _audioBuffer _processingActive _accumulatedByteBuffer _overflowCount
         _inVoiceSegment _samplesSinceVoiceStart _silentSamplesCount].
    rewrite Task_reaches by (try reflexivity; try assumption; lia).
    cbv zeta. cbn [snd]. rewrite existsb_engine_call_cons.
    unfold set_processingActive.
    cbn [orb _running _speech_audio_device _task_queue_pool _whisperContext
         _audioBuffer _processingActive _accumulatedByteBuffer _overflowCount
         _inVoiceSegment _samplesSinceVoiceStart _silentSamplesCount].
    rewrite run_cons, step_events.
    cbn [step fst snd nth_error firstn skipn app
         _running _speech_audio_device _task_queue_pool _whisperContext
         _audioBuffer _processingActive _accumulatedByteBuffer _overflowCount
         _inVoiceSegment _samplesSinceVoiceStart _silentSamplesCount].
    unfold set_task_queue_pool.
    cbn [_running _speech_audio_device _task_queue_pool _whisperContext
         _audioBuffer _processingActive _accumulatedByteBuffer _overflowCount
         _inVoiceSegment _samplesSinceVoiceStart _silentSamplesCount].
    rewrite Task_guarded by reflexivity.
    rewrite run_one. cbn [step fst snd app]. rewrite app_nil_r.
    reflexivity.
  - rewrite run_cons, step_events.
    cbn [step fst snd nth_error firstn skipn app
         _running _speech_audio_device _task_queue_pool _whisperContext
         _audioBuffer _processingActive _accumulatedByteBuffer _overflowCount
         _inVoiceSegment _samplesSinceVoiceStart _silentSamplesCount].
    unfold set_task_queue_pool.
    cbn [_running _speech_audio_device _task_queue_pool _whisperContext
         _audioBuffer _processingActive _accumulatedByteBuffer _overflowCount
         _inVoiceSegment _samplesSinceVoiceStart _silentSamplesCount].
    rewrite Task_reaches by (try reflexivity; try assumption; lia).
    cbv zeta. cbn [fst snd].
    rewrite run_one.
    cbn [step fst snd nth_error firstn skipn app
         _running _speech_audio_device _task_queue_pool _whisperContext
         _audioBuffer _processingActive _accumulatedByteBuffer _overflowCount
         _inVoiceSegment _samplesSinceVoiceStart _silentSamplesCount].
    unfold set_task_queue_pool.
    cbn [_running _speech_audio_device _task_queue_pool _whisperContext
         _audioBuffer _processingActive _accumulatedByteBuffer _overflowCount
         _inVoiceSegment _samplesSinceVoiceStart _silentSamplesCount].
    rewrite Task_reaches by (try reflexivity; try assumption; lia).
    cbv zeta. cbn [fst snd]. reflexivity.
Qed.

Lemma step_no_model (s : WhisperTranscriber) (o : op) :
  _whisperContext s = false -> snd (Step s o) = [].
Proof.
  intros Hctx. rewrite step_events.
  destruct o as [avgAmplitude playoutBuffer | | | position | position |];
    try reflexivity.
  all: destruct (nth_error _ position); [| reflexivity].
  all: rewrite AdapterMore.Task_eq.
  all: cbn [set_task_queue_pool _whisperContext]; rewrite Hctx; reflexivity.
Qed.

(** X22. When the constructor ends without a model, nothing ever comes out
    of the transcriber: whatever audio it is given and whatever the threads
    do, neither the engine nor the device is called, and the model stays
    unloaded. *)
Theorem no_model_no_events (whisper_init_from_file_with_params : bool -> bool)
    (file : option (list byte)) (speech_audio_device : option bool) (ops : list op) :
  fst (ModelLoading.load_model whisper_init_from_file_with_params file) = false ->
  let s := ModelLoading.WhisperTranscriber_new whisper_init_from_file_with_params file
             speech_audio_device in
  snd (Run s ops) = [] /\ _whisperContext (fst (Run s ops)) = false.
Proof.
  intros Hload. cbv zeta. unfold ModelLoading.WhisperTranscriber_new. rewrite Hload.
  split; [| apply run_frame].
  assert (H : forall s, _whisperContext s = false -> snd (Run s ops) = []).
  { induction ops as [| o rest IH]; intros s Hctx; [reflexivity |].
    rewrite run_cons. cbn [snd]. rewrite (step_no_model s o Hctx), IH; [reflexivity |].
    rewrite (proj1 (step_frame s o)). exact Hctx. }
  apply H. reflexivity.
Qed.

End WithEngine.

(** On a run: two segments are queued as two tasks and the first task is
    inside the engine, so the guard is set; the second block, 20000 samples,
    is the pending task, and running it calls nothing. *)
Lemma pending_task_reaches_engine_witness :
  let voice1 := Pcm16.bytes_of_pairs (repeat (x01, x00) (Z.to_nat 16000)) in
  let voice2 := Pcm16.bytes_of_pairs (repeat (x01, x00) (Z.to_nat 20000)) in
  let silence := Scenario.zeros 16000 in
  let s := fst (run Scenario.working_engine Scenario.hello_text Scenario.keep_text
                  (construct None true)
                  [StartThread; Audio 1%float voice1; Audio 0%float silence;
                   ConsumerRound; Audio 1%float voice2; Audio 0%float silence;
                   ConsumerRound; TaskBegin 0]) in
  let r := step Scenario.working_engine Scenario.hello_text Scenario.keep_text
             s (RunTask 0) in
  let b := step Scenario.working_engine Scenario.hello_text Scenario.keep_text
             s (TaskBegin 0) in
  let reached :=
    negb (_processingActive s) && true && (size voice2 <=? 2 * kTargetSamples) in
  nth_error (_task_queue_pool s) 0 = Some voice2
  /\ _processingActive s = true
  /\ (filter is_engine_call (snd r)
      = (if reached then [WhisperFull (Pcm16.pcmf32_of voice2)] else [])
      /\ size (_task_queue_pool (fst r)) = size (_task_queue_pool s) - 1
      /\ _processingActive (fst r) = _processingActive s
      /\ kSampleRate <= size (Pcm16.pcmf32_of voice2)
      /\ size (Pcm16.pcmf32_of voice2) * 2 = size voice2
      /\ snd b = snd r
      /\ _processingActive (fst b) = _processingActive s || reached)
  /\ filter is_engine_call (snd r) = [].
Proof.
  cbv zeta.
  pose proof (first_task_inside Scenario.working_engine Scenario.hello_text
                Scenario.keep_text None 1%float 0%float
                (repeat (x01, x00) (Z.to_nat 16000)) (repeat (x01, x00) (Z.to_nat 20000))
                (Scenario.zeros 16000)) as Hstate.
  cbv zeta in Hstate.
  assert (Hloud : voicePresent_of false 1%float = true) by (vm_compute; reflexivity).
  assert (Hquiet : voicePresent_of true 0%float = false) by (vm_compute; reflexivity).
  assert (H1 : 32000 <= size (Pcm16.bytes_of_pairs (repeat (x01, x00) (Z.to_nat 16000)))
               < 384000)
    by (vm_compute; split; [discriminate | reflexivity]).
  assert (H2 : 32000 <= size (Pcm16.bytes_of_pairs (repeat (x01, x00) (Z.to_nat 20000)))
               < 384000)
    by (vm_compute; split; [discriminate | reflexivity]).
  assert (H3 : 16000 <= size (Scenario.zeros 16000) < size_max - 1)
    by (vm_compute; split; [discriminate | reflexivity]).
  specialize (Hstate Hloud Hquiet H1 H2 H3).
  assert (Hnth : nth_error
                   (_task_queue_pool
                      (fst (run Scenario.working_engine Scenario.hello_text
                              Scenario.keep_text (construct None true)
                              [StartThread;
                               Audio 1%float
                                 (Pcm16.bytes_of_pairs (repeat (x01, x00) (Z.to_nat 16000)));
                               Audio 0%float (Scenario.zeros 16000);
                               ConsumerRound;
                               Audio 1%float
                                 (Pcm16.bytes_of_pairs (repeat (x01, x00) (Z.to_nat 20000)));
                               Audio 0%float (Scenario.zeros 16000);
                               ConsumerRound; TaskBegin 0]))) 0
                 = Some (Pcm16.bytes_of_pairs (repeat (x01, x00) (Z.to_nat 20000))))
    by (rewrite Hstate; reflexivity).
  assert (Hguard : _processingActive
                     (fst (run Scenario.working_engine Scenario.hello_text
                             Scenario.keep_text (construct None true)
                             [StartThread;
                              Audio 1%float
                                (Pcm16.bytes_of_pairs (repeat (x01, x00) (Z.to_nat 16000)));
                              Audio 0%float (Scenario.zeros 16000);
                              ConsumerRound;
                              Audio 1%float
                                (Pcm16.bytes_of_pairs (repeat (x01, x00) (Z.to_nat 20000)));
                              Audio 0%float (Scenario.zeros 16000);
                              ConsumerRound; TaskBegin 0]))
                   = true)
    by (rewrite Hstate; reflexivity).
  pose proof (pending_task_reaches_engine Scenario.working_engine Scenario.hello_text
                Scenario.keep_text None true _ 0%nat _ Hnth) as R.
  cbv zeta in R.
  split; [exact Hnth |]. split; [exact Hguard |]. split; [exact R |].
  rewrite (proj1 R), Hguard. reflexivity.
Defined.

(** On a run: one second of samples of value 1, then 8000 silent samples. *)
Lemma segment_reaches_engine_witness :
  let s := construct (Some false) true in
  let voice := Pcm16.bytes_of_pairs (repeat (x01, x00) (Z.to_nat 16000)) in
  let pcmf32 := Pcm16.pcmf32_of voice in
  run Scenario.working_engine Scenario.hello_text Scenario.keep_text s
    [Audio 1%float voice; Audio 0%float (Scenario.zeros 8000);
     StartThread; ConsumerRound; RunTask 0]
  = (set_running s true,
     WhisperFull pcmf32
     :: (if Scenario.working_engine pcmf32 =? 0
         then forward Scenario.keep_text s
                (fullTranscription_of (Scenario.hello_text pcmf32))
         else []))
  /\ size pcmf32 = size (repeat (x01, x00) (Z.to_nat 16000)).
Proof.
  apply (segment_reaches_engine Scenario.working_engine Scenario.hello_text
           Scenario.keep_text (Some false) 1%float 0%float
           (repeat (x01, x00) (Z.to_nat 16000)) (Scenario.zeros 8000)).
  - vm_compute. reflexivity.
  - vm_compute. reflexivity.
  - vm_compute. split; [discriminate | reflexivity].
  - vm_compute. split; [discriminate | reflexivity].
Defined.

(** On a run: a ring buffer that holds 400000 samples with the thread
    running. *)
Lemma oversized_drain_is_dropped_witness :
  let s := set_running
             (set_audioBuffer (construct None true)
                (AudioRingBuffer.mk kRingBufferSizeIncrement (Scenario.zeros 400000)))
             true in
  let s1 := fst (step Scenario.working_engine Scenario.hello_text Scenario.keep_text
                   s ConsumerRound) in
  let r := step Scenario.working_engine Scenario.hello_text Scenario.keep_text
             s1 (RunTask 0) in
  _task_queue_pool s1 = [Scenario.zeros 400000]
  /\ snd r = []
  /\ _task_queue_pool (fst r) = []
  /\ AudioRingBuffer.unread (_audioBuffer (fst r)) = [].
Proof.
  apply (oversized_drain_is_dropped Scenario.working_engine Scenario.hello_text
           Scenario.keep_text
           (set_running
              (set_audioBuffer (construct None true)
                 (AudioRingBuffer.mk kRingBufferSizeIncrement (Scenario.zeros 400000)))
              true)).
  - reflexivity.
  - vm_compute. reflexivity.
Defined.

(** On a run: no model file and an engine that loads nothing, then a
    whole segment through the pipeline. *)
Lemma no_model_no_events_witness :
  let s := ModelLoading.WhisperTranscriber_new (fun _ => false) None (Some false) in
  let ops := [Audio 1%float (Scenario.ones 16000); Audio 0%float (Scenario.zeros 8000);
              StartThread; ConsumerRound; RunTask 0] in
  snd (run Scenario.working_engine Scenario.hello_text Scenario.keep_text s ops) = []
  /\ _whisperContext
       (fst (run Scenario.working_engine Scenario.hello_text Scenario.keep_text s ops))
     = false.
Proof.
  apply (no_model_no_events Scenario.working_engine Scenario.hello_text Scenario.keep_text
           (fun _ => false) None (Some false)).
  reflexivity.
Defined.

(** On a run: segments of 16000 and 20000 samples of value 1, each followed
    by one second of silence. *)
Lemma second_task_is_dropped_witness :
  let voice1 := Pcm16.bytes_of_pairs (repeat (x01, x00) (Z.to_nat 16000)) in
  let voice2 := Pcm16.bytes_of_pairs (repeat (x01, x00) (Z.to_nat 20000)) in
  let silence := Scenario.zeros 16000 in
  let s := construct (Some false) true in
  let queue rest :=
    StartThread :: Audio 1%float voice1 :: Audio 0%float silence
    :: ConsumerRound :: Audio 1%float voice2 :: Audio 0%float silence
    :: ConsumerRound :: rest in
  let events_of block :=
    let pcmf32 := Pcm16.pcmf32_of block in
    WhisperFull pcmf32
    :: (if Scenario.working_engine pcmf32 =? 0
        then forward Scenario.keep_text s
               (fullTranscription_of (Scenario.hello_text pcmf32))
        else []) in
  run Scenario.working_engine Scenario.hello_text Scenario.keep_text s
    (queue [TaskBegin 0; RunTask 0; TaskEnd])
  = (set_running s true, events_of voice1)
  /\ run Scenario.working_engine Scenario.hello_text Scenario.keep_text s
       (queue [RunTask 0; RunTask 0])
     = (set_running s true, events_of voice1 ++ events_of voice2).
Proof.
  apply (second_task_is_dropped Scenario.working_engine Scenario.hello_text
           Scenario.keep_text (Some false) 1%float 0%float
           (repeat (x01, x00) (Z.to_nat 16000)) (repeat (x01, x00) (Z.to_nat 20000))
           (Scenario.zeros 16000)).
  - vm_compute. reflexivity.
  - vm_compute. reflexivity.
  - vm_compute. split; [discriminate | reflexivity].
  - vm_compute. split; [discriminate | reflexivity].
  - vm_compute. split; [discriminate | reflexivity].
Defined.

End PipelineFacts.

(** ** Loading the model *)

Module ModelLoadingFacts.
Import ModelLoading.

(** X23. The constructor's two ways of loading the model, taken together:
    the engine is tried with the GPU only when the file opens and has the 16
    bytes of its header, and without the GPU whenever that did not give a
    context, also when the file could not be read; so the model is loaded
    exactly when one of the two attempts succeeds, the engine is asked
    twice at most and never twice in the same way. *)
Theorem model_loading_outcome (whisper_init_from_file_with_params : bool -> bool)
    (file : option (list byte)) :
  let readable :=
    match file with
    | Some content => 16 <=? size content
    | None => false
    end in
  let with_gpu := readable && whisper_init_from_file_with_params true in
  InitializeWhisperModel whisper_init_from_file_with_params file false
  = (with_gpu, with_gpu, if readable then [true] else [])
  /\ load_model whisper_init_from_file_with_params file
     = (with_gpu || whisper_init_from_file_with_params false,
        (if readable then [true] else []) ++ (if with_gpu then [] else [false])).
Proof.
  cbv zeta. unfold load_model, InitializeWhisperModel, TryAlternativeInitMethods.
  destruct file as [content |]; [| split; reflexivity].
  cbv zeta.
  assert (E : (Z.min 16 (size content) <? 16) = negb (16 <=? size content)).
  { destruct (16 <=? size content) eqn:E1;
      [apply Z.leb_le in E1; apply Z.ltb_ge | apply Z.leb_gt in E1; apply Z.ltb_lt]; lia. }
  rewrite E. destruct (16 <=? size content); cbn [negb andb]; [| split; reflexivity].
  cbn [try_gpuOptions].
  destruct (whisper_init_from_file_with_params true); split; reflexivity.
Qed.

End ModelLoadingFacts.
